(** * Statement Extraction Pipeline: a shallow embedding and its properties

    The development follows [src/components/pdf-processor.tsx] (pattern
    matcher, line parser, post-processor, extraction back ends),
    [src/components/bank-statement-converter.tsx] (the caller-side progress
    handler and its timer) and the manual-entry component (CSV header
    mapping).

    Modelling conventions.
    - A JavaScript string is a Rocq [string]; its characters are read as
      code units in the range 0..255 (the Latin-1 part of UTF-16).
    - [undefined] fields of a record are [None].
    - A regular expression is a value of [Regex.regex], run by a
      backtracking matcher that returns every way to match in the priority
      order of the ECMAScript matcher; the first one is the match.
    - Numbers that only serve as percentages are rationals ([Q]);
      timestamps and durations are integers ([Z], milliseconds). *)

From Stdlib Require Import String Ascii List ZArith QArith Qround Lia Bool Arith
  Sorting.Sorted Sorting.Permutation.
From stdpp Require Import base gmap strings.

Import ListNotations.
Open Scope string_scope.
Open Scope list_scope.

(* ------------------------------------------------------------------ *)
(** ** JavaScript string primitives *)
(* ------------------------------------------------------------------ *)

Module JSString.

Definition code (c : ascii) : nat := nat_of_ascii c.

Definition in_range (lo hi : nat) (c : ascii) : bool :=
  (lo <=? code c)%nat && (code c <=? hi)%nat.

(** [\d] *)
Definition is_digit (c : ascii) : bool := in_range 48 57 c.

Definition is_upper (c : ascii) : bool := in_range 65 90 c.
Definition is_lower (c : ascii) : bool := in_range 97 122 c.

(** [\w], the word characters that [\b] looks at. *)
Definition is_word (c : ascii) : bool :=
  is_digit c || is_upper c || is_lower c || (code c =? 95)%nat.

(** White space and line terminators below 256: TAB, LF, VT, FF, CR, SP,
    NBSP.  This is the set of [\s] and the set [trim] strips. *)
Definition is_space (c : ascii) : bool :=
  in_range 9 13 c || (code c =? 32)%nat || (code c =? 160)%nat.

Definition eqc (a b : ascii) : bool := Ascii.eqb a b.

(** [String.prototype.toLowerCase] on one code unit. *)
Definition lower_char (c : ascii) : ascii :=
  if is_upper c then ascii_of_nat (code c + 32)
  else if in_range 192 222 c && negb (code c =? 215)%nat
       then ascii_of_nat (code c + 32)
       else c.

Fixpoint toLowerCase (s : string) : string :=
  match s with
  | EmptyString => EmptyString
  | String c s' => String (lower_char c) (toLowerCase s')
  end.

Fixpoint startsWith (p s : string) : bool :=
  match p, s with
  | EmptyString, _ => true
  | String a p', String b s' => eqc a b && startsWith p' s'
  | String _ _, EmptyString => false
  end.

(** [s.includes(p)] *)
Fixpoint includes (s p : string) : bool :=
  startsWith p s ||
  match s with
  | EmptyString => false
  | String _ s' => includes s' p
  end.

Fixpoint str_drop (n : nat) (s : string) : string :=
  match n, s with
  | O, _ => s
  | S n', String _ s' => str_drop n' s'
  | S _, EmptyString => EmptyString
  end.

Fixpoint str_take (n : nat) (s : string) : string :=
  match n, s with
  | O, _ => EmptyString
  | S n', String c s' => String c (str_take n' s')
  | S _, EmptyString => EmptyString
  end.

(** [s.substring(0, n)] *)
Definition substring0 (n : nat) (s : string) : string := str_take n s.

(** [s.replace(p, r)] with a string pattern: the first occurrence only.
    The replacement strings used by the program contain no [$]. *)
Fixpoint replace (s p r : string) : string :=
  if startsWith p s then r +:+ str_drop (String.length p) s
  else match s with
       | EmptyString => EmptyString
       | String c s' => String c (replace s' p r)
       end.

Fixpoint trimStart (s : string) : string :=
  match s with
  | EmptyString => EmptyString
  | String c s' => if is_space c then trimStart s' else s
  end.

Fixpoint trimEnd (s : string) : string :=
  match s with
  | EmptyString => EmptyString
  | String c s' =>
      match trimEnd s' with
      | EmptyString => if is_space c then EmptyString else String c EmptyString
      | t => String c t
      end
  end.

Definition trim (s : string) : string := trimEnd (trimStart s).

(** [s.split(sep)] for a one-character separator. *)
Fixpoint split (sep : ascii) (s : string) : list string :=
  match s with
  | EmptyString => [EmptyString]
  | String c s' =>
      if eqc c sep then EmptyString :: split sep s'
      else match split sep s' with
           | [] => [String c EmptyString]
           | w :: ws => String c w :: ws
           end
  end.

(** [s.padStart(2, "0")] *)
Definition padStart2 (s : string) : string :=
  match String.length s with
  | O => "00"
  | S O => "0" +:+ s
  | _ => s
  end.

Definition LF : ascii := ascii_of_nat 10.

(** JavaScript truthiness of a possibly undefined string, and [x || ""]. *)
Definition truthy (x : option string) : bool :=
  match x with
  | Some (String _ _) => true
  | _ => false
  end.

Definition or_else (x : option string) (y : string) : string :=
  match x with
  | Some (String c s) => String c s
  | _ => y
  end.

End JSString.

(* ------------------------------------------------------------------ *)
(** ** Regular expressions *)
(* ------------------------------------------------------------------ *)

Module Regex.
Import JSString.

Inductive regex : Type :=
| Chr (p : ascii -> bool)          (* one code unit: literal, class, escape *)
| Seq (a b : regex)
| Alt (a b : regex)                (* a|b, a tried first *)
| Star (a : regex)                 (* a*, greedy *)
| Rep (lo hi : nat) (a : regex)    (* a{lo,hi}, greedy *)
| Grp (i : nat) (a : regex)        (* the i-th capturing group *)
| Bol                              (* ^ *)
| Eol                              (* $ *)
| WordB.                           (* \b *)

Definition Opt (a : regex) : regex := Rep 0 1 a.
Definition Plus (a : regex) : regex := Seq a (Star a).

(** A position of the matcher in the subject: the offset, the code unit
    just before it, what is left to read, and the captures so far as
    (group, (start, end)) offsets. *)
Record mstate : Type := MState {
  pos : nat;
  prev : option ascii;
  rest : list ascii;
  caps : list (nat * (nat * nat))
}.

Definition advance (st : mstate) : list mstate :=
  match rest st with
  | [] => []
  | c :: tl => [MState (S (pos st)) (Some c) tl (caps st)]
  end.

Definition word_before (st : mstate) : bool :=
  match prev st with Some c => is_word c | None => false end.

Definition word_after (st : mstate) : bool :=
  match rest st with c :: _ => is_word c | [] => false end.

(** Greedy [*]: an iteration that consumes nothing is rejected, as in the
    ECMAScript RepeatMatcher; every accepted iteration shortens [rest], so
    [S (length (rest st))] rounds always suffice. *)
Fixpoint star_loop (step : mstate -> list mstate) (fuel : nat) (st : mstate)
  : list mstate :=
  match fuel with
  | O => [st]
  | S fuel' =>
      flat_map (fun st' =>
                  if (length (rest st') <? length (rest st))%nat
                  then star_loop step fuel' st' else [])
               (step st)
      ++ [st]
  end.

(** Greedy [{lo,hi}]. *)
Fixpoint rep_loop (step : mstate -> list mstate) (lo hi : nat) (st : mstate)
  : list mstate :=
  match hi with
  | O => [st]
  | S hi' =>
      match lo with
      | S lo' => flat_map (rep_loop step lo' hi') (step st)
      | O =>
          flat_map (fun st' =>
                      if (length (rest st') <? length (rest st))%nat
                      then rep_loop step 0 hi' st' else [])
                   (step st)
          ++ [st]
      end
  end.

(** All the ways [r] matches at [st], best first. *)
Fixpoint run (r : regex) (st : mstate) : list mstate :=
  match r with
  | Chr p =>
      match rest st with
      | c :: _ => if p c then advance st else []
      | [] => []
      end
  | Seq a b => flat_map (run b) (run a st)
  | Alt a b => run a st ++ run b st
  | Star a => star_loop (run a) (S (length (rest st))) st
  | Rep lo hi a => rep_loop (run a) lo hi st
  | Grp i a =>
      map (fun st' =>
             MState (pos st') (prev st') (rest st')
                    ((i, (pos st, pos st')) :: caps st'))
          (run a st)
  | Bol => if (pos st =? 0)%nat then [st] else []
  | Eol => match rest st with [] => [st] | _ => [] end
  | WordB => if xorb (word_before st) (word_after st) then [st] else []
  end.

(** The result of one successful match: where it starts and ends, and the
    captures. *)
Record rmatch : Type := RMatch {
  m_start : nat;
  m_end : nat;
  m_caps : list (nat * (nat * nat))
}.

Definition match_here (r : regex) (st : mstate) : option rmatch :=
  match run r st with
  | st' :: _ => Some (RMatch (pos st) (pos st') (caps st'))
  | [] => None
  end.

(** Leftmost match at or after [st]; also returns the state at its end. *)
Fixpoint scan (r : regex) (p : nat) (pv : option ascii) (l : list ascii)
  : option (rmatch * mstate) :=
  match run r (MState p pv l []) with
  | st' :: _ => Some (RMatch p (pos st') (caps st'), st')
  | [] =>
      match l with
      | [] => None
      | c :: tl => scan r (S p) (Some c) tl
      end
  end.

Definition chars (s : string) : list ascii := list_ascii_of_string s.

(** [r.exec(s)] for a regular expression without the [g] flag. *)
Definition exec (r : regex) (s : string) : option rmatch :=
  option_map fst (scan r 0 None (chars s)).

(** [r.test(s)] *)
Definition test (r : regex) (s : string) : bool :=
  match exec r s with Some _ => true | None => false end.

(** The text between two offsets of [s]. *)
Definition slice (s : string) (a b : nat) : string :=
  str_take (b - a) (str_drop a s).

Definition matched (s : string) (m : rmatch) : string :=
  slice s (m_start m) (m_end m).

(** The text of capture group [i] of a match ([match[i]]). *)
Definition group (s : string) (m : rmatch) (i : nat) : string :=
  match List.find (fun e => (fst e =? i)%nat) (m_caps m) with
  | Some (_, (a, b)) => slice s a b
  | None => EmptyString
  end.

(** [s.match(r)[0]] for a regular expression without the [g] flag. *)
Definition match0 (r : regex) (s : string) : option string :=
  option_map (matched s) (exec r s).

(** The matches of [s.matchAll(r)] for a regular expression with the [g]
    flag, left to right.  After an empty match the search resumes one code
    unit further. *)
Fixpoint matchAll_loop (r : regex) (fuel : nat) (p : nat) (pv : option ascii)
  (l : list ascii) : list rmatch :=
  match fuel with
  | O => []
  | S fuel' =>
      match scan r p pv l with
      | None => []
      | Some (m, st') =>
          m ::
          (if (m_start m <? m_end m)%nat
           then matchAll_loop r fuel' (pos st') (prev st') (rest st')
           else match rest st' with
                | [] => []
                | c :: tl => matchAll_loop r fuel' (S (pos st')) (Some c) tl
                end)
      end
  end.

Definition matchAll (r : regex) (s : string) : list string :=
  map (matched s) (matchAll_loop r (S (String.length s)) 0 None (chars s)).

(** Character predicates for building patterns. *)
Definition lit (c : ascii) : regex := Chr (eqc c).

(** A literal letter under the [i] flag. *)
Definition lit_ci (c : ascii) : regex :=
  Chr (fun x => eqc (lower_char c) (lower_char x)).

Definition one_of (s : string) : regex :=
  Chr (fun x => existsb (eqc x) (chars s)).

Definition digit : regex := Chr is_digit.
Definition space : regex := Chr is_space.

Fixpoint word_ci (s : string) : regex :=
  match s with
  | EmptyString => Rep 0 0 (Chr (fun _ => false))
  | String c EmptyString => lit_ci c
  | String c s' => Seq (lit_ci c) (word_ci s')
  end.

(** The words a pattern can consume, whatever surrounds them: an upper
    bound of what [run] accepts (assertions are read as the empty word). *)
Fixpoint lang (r : regex) (w : list ascii) : Prop :=
  match r with
  | Chr p => exists c, w = [c] /\ p c = true
  | Seq a b => exists w1 w2, w = w1 ++ w2 /\ lang a w1 /\ lang b w2
  | Alt a b => lang a w \/ lang b w
  | Star a => exists ws, w = concat ws /\ Forall (lang a) ws
  | Rep lo hi a =>
      exists ws, w = concat ws /\ Forall (lang a) ws /\ (length ws <= hi)%nat
  | Grp _ a => lang a w
  | Bol | Eol | WordB => w = []
  end.

(** [st'] is reached from [st] by consuming the word [w]. *)
Definition consumes (st st' : mstate) (w : list ascii) : Prop :=
  rest st = w ++ rest st' /\ pos st' = (pos st + length w)%nat.

End Regex.

(* ------------------------------------------------------------------ *)
(** ** Pattern Matcher: the two recognizers and the single-line extractor *)
(* ------------------------------------------------------------------ *)

Import JSString Regex.

(** A transaction record: the fields the program reads or writes.  A field
    that was never assigned is [None]. *)
Record transaction : Type := Transaction {
  Date : option string;
  Amount : option string;
  Debit : option string;
  Credit : option string;
  Balance : option string;
  Description : option string;
  Page : option nat
}.

Definition empty_transaction : transaction :=
  Transaction None None None None None None None.

Definition set_Date (v : string) (t : transaction) : transaction :=
  Transaction (Some v) (Amount t) (Debit t) (Credit t) (Balance t)
              (Description t) (Page t).
Definition set_Debit (v : string) (t : transaction) : transaction :=
  Transaction (Date t) (Amount t) (Some v) (Credit t) (Balance t)
              (Description t) (Page t).
Definition set_Credit (v : string) (t : transaction) : transaction :=
  Transaction (Date t) (Amount t) (Debit t) (Some v) (Balance t)
              (Description t) (Page t).
Definition set_Balance (v : string) (t : transaction) : transaction :=
  Transaction (Date t) (Amount t) (Debit t) (Credit t) (Some v)
              (Description t) (Page t).
Definition set_Description (v : string) (t : transaction) : transaction :=
  Transaction (Date t) (Amount t) (Debit t) (Credit t) (Balance t)
              (Some v) (Page t).
Definition set_Page (v : nat) (t : transaction) : transaction :=
  Transaction (Date t) (Amount t) (Debit t) (Credit t) (Balance t)
              (Description t) (Some v).

Definition has_field {A} (x : option A) : nat :=
  match x with Some _ => 1 | None => 0 end.

(** [Object.keys(t).length] *)
Definition key_count (t : transaction) : nat :=
  (has_field (Date t) + has_field (Amount t) + has_field (Debit t)
   + has_field (Credit t) + has_field (Balance t) + has_field (Description t)
   + has_field (Page t))%nat.

(** [\d{1,2}[/\-.]\d{1,2}[/\-.]\d{2,4}] *)
Definition numeric_date : regex :=
  Seq (Rep 1 2 digit)
 (Seq (one_of "/-.")
 (Seq (Rep 1 2 digit)
 (Seq (one_of "/-.")
      (Rep 2 4 digit)))).

(** [(?:Jan|Feb|Mar|Apr|May|Jun|Jul|Aug|Sep|Oct|Nov|Dec)] under the [i]
    flag *)
Definition month_abbrev : regex :=
  Alt (word_ci "Jan") (Alt (word_ci "Feb") (Alt (word_ci "Mar")
 (Alt (word_ci "Apr") (Alt (word_ci "May") (Alt (word_ci "Jun")
 (Alt (word_ci "Jul") (Alt (word_ci "Aug") (Alt (word_ci "Sep")
 (Alt (word_ci "Oct") (Alt (word_ci "Nov") (word_ci "Dec"))))))))))).

(** [\d{1,2}\s+(?:Jan|...|Dec)[a-z]*\.?\s+\d{2,4}] under the [i] flag *)
Definition textual_date : regex :=
  Seq (Rep 1 2 digit)
 (Seq (Plus space)
 (Seq month_abbrev
 (Seq (Star (Chr (fun c => is_lower c || is_upper c)))
 (Seq (Opt (lit "."))
 (Seq (Plus space)
      (Rep 2 4 digit)))))).

(** [/\b(?:numeric|textual)\b/i] *)
Definition datePattern : regex :=
  Seq WordB (Seq (Alt numeric_date textual_date) WordB).

(** [\$?\s*-?[\d,]+\.\d{2}]; the program uses it without flags for
    the pre-filter and, parenthesised, with the [g] flag for extraction. *)
Definition amountPattern : regex :=
  Seq (Opt (lit "$"))
 (Seq (Star space)
 (Seq (Opt (lit "-"))
 (Seq (Plus (Chr (fun c => is_digit c || eqc c ",")))
 (Seq (lit ".")
      (Rep 2 2 digit))))).

(** The last element of a list, and the one before it. *)
Definition final {A} (l : list A) : option A :=
  match rev l with
  | x :: _ => Some x
  | [] => None
  end.

Definition penultimate {A} (l : list A) : option A :=
  match rev l with
  | _ :: x :: _ => Some x
  | _ => None
  end.

(** The working line once the first date match is removed. *)
Definition line_without_date (line : string) : string :=
  match match0 datePattern line with
  | Some d => replace line d ""
  | None => line
  end.

Definition minus : ascii := "-"%char.

(** How many times the code unit [c] occurs in [s]. *)
Fixpoint count_char (c : ascii) (s : string) : nat :=
  match s with
  | EmptyString => 0
  | String x s' => ((if eqc c x then 1 else 0) + count_char c s')%nat
  end.

(** [extractTransactionFromLine] *)
Definition extractTransactionFromLine (line : string) : transaction :=
  let transaction := empty_transaction in
  (* Extract date *)
  let dateMatch := match0 datePattern line in
  let '(transaction, line) :=
    match dateMatch with
    | Some d => (set_Date d transaction, replace line d "")
    | None => (transaction, line)
    end in
  (* Extract amounts *)
  let amountMatches := matchAll amountPattern line in
  let '(transaction, line) :=
    match final amountMatches with
    | Some lastAmount =>
        let transaction := set_Balance (trim lastAmount) transaction in
        let transaction :=
          match penultimate amountMatches with
          | Some m =>
              let amount := trim m in
              if includes amount "-" || includes (toLowerCase line) "debit"
              then set_Debit (replace amount "-" "") transaction
              else set_Credit amount transaction
          | None => transaction
          end in
        (transaction,
         fold_left (fun line m => replace line m "") amountMatches line)
    | None => (transaction, line)
    end in
  (* Whatever is left is the description *)
  set_Description (trim line) transaction.

Definition line_C1 : string :=
  "15/04/2024 ACH DEBIT:TXV/G4951885 500.00 86040.65".

(* ------------------------------------------------------------------ *)
(** ** Post-Processor: deduplication *)
(* ------------------------------------------------------------------ *)

(** A JavaScript [Map] with string keys: its entries in insertion order,
    at most one per key. *)
Module JSMap.

Definition t (V : Type) : Type := list (string * V).

Definition has {V} (m : t V) (k : string) : bool :=
  existsb (fun e => String.eqb (fst e) k) m.

(** [m.set(k, v)]: a new key goes last, an old one keeps its place. *)
Definition set {V} (m : t V) (k : string) (v : V) : t V :=
  if has m k
  then map (fun e => if String.eqb (fst e) k then (k, v) else e) m
  else m ++ [(k, v)].

(** [Array.from(m.values())] *)
Definition values {V} (m : t V) : list V := map snd m.

End JSMap.

(** [transaction.Amount || transaction.Debit || transaction.Credit || ""] *)
Definition amountStr (t : transaction) : string :=
  if truthy (Amount t) then or_else (Amount t) ""
  else if truthy (Debit t) then or_else (Debit t) ""
  else or_else (Credit t) "".

(** [transaction.Description ? transaction.Description.substring(0, 10) : ""] *)
Definition descStart (t : transaction) : string :=
  if truthy (Description t) then substring0 10 (or_else (Description t) "")
  else "".

(** [transaction.Date || ""] *)
Definition dateStr (t : transaction) : string := or_else (Date t) "".

(** The key [`${dateStr}-${amountStr}-${descStart}`]. *)
Definition dedup_key (t : transaction) : string :=
  dateStr t +:+ "-" +:+ amountStr t +:+ "-" +:+ descStart t.

(** [removeDuplicateTransactions] *)
Definition removeDuplicateTransactions (transactions : list transaction)
  : list transaction :=
  let uniqueMap :=
    fold_left
      (fun (uniqueMap : JSMap.t transaction) transaction =>
         let key := dedup_key transaction in
         if negb (JSMap.has uniqueMap key)
         then JSMap.set uniqueMap key transaction
         else uniqueMap)
      transactions [] in
  JSMap.values uniqueMap.

(** Two records have the same deduplication key. *)
Definition same_key (a b : transaction) : bool :=
  String.eqb (dedup_key a) (dedup_key b).

(** The claim's words: the first of the fields that is present and not
    empty, the empty string when there is none. *)
Fixpoint first_non_empty (fields : list (option string)) : string :=
  match fields with
  | [] => ""
  | Some (String c s) :: _ => String c s
  | _ :: rest => first_non_empty rest
  end.

(** The key as the claim builds it: the Date, the first non-empty of
    (Amount, Debit, Credit) and the first ten characters of the
    Description, joined with hyphens. *)
Definition claimed_key (t : transaction) : string :=
  first_non_empty [Date t] +:+ "-"
  +:+ first_non_empty [Amount t; Debit t; Credit t] +:+ "-"
  +:+ String.substring 0 10 (first_non_empty [Description t]).

Definition same_claimed_key (a b : transaction) : bool :=
  String.eqb (claimed_key a) (claimed_key b).

(** Sample records with amounts: [dup_c] repeats the key of [dup_a]
    (its amount is a Credit and its description differs after the tenth
    character); the others differ from [dup_a] in the amount, within the
    first ten characters of the description, and in the date. *)
Definition dup_a : transaction :=
  {| Date := Some "15/04/2024"; Amount := None; Debit := Some "500.00";
     Credit := None; Balance := Some "86040.65";
     Description := Some "ACH DEBIT:TXV/G4951885"; Page := Some 1%nat |}.
Definition dup_b : transaction :=
  {| Date := Some "15/04/2024"; Amount := None; Debit := Some "600.00";
     Credit := None; Balance := Some "85440.65";
     Description := Some "ACH DEBIT:TXV/G4951885"; Page := Some 1%nat |}.
Definition dup_c : transaction :=
  {| Date := Some "15/04/2024"; Amount := Some ""; Debit := None;
     Credit := Some "500.00"; Balance := Some "19077.65";
     Description := Some "ACH DEBIT:TXV/G4538/0188"; Page := Some 2%nat |}.
Definition dup_d : transaction :=
  {| Date := Some "15/04/2024"; Amount := None; Debit := Some "500.00";
     Credit := None; Balance := Some "18577.65";
     Description := Some "ACH CREDIT:TXV/G4951885"; Page := Some 2%nat |}.
Definition dup_e : transaction :=
  {| Date := Some "16/04/2024"; Amount := None; Debit := Some "500.00";
     Credit := None; Balance := Some "18077.65";
     Description := Some "ACH DEBIT:TXV/G4951885"; Page := Some 2%nat |}.

(** The claim's words, as a function: walk the input and keep a record
    unless its key was seen before. *)
Fixpoint keep_first_per_key (seen : list string) (l : list transaction)
  : list transaction :=
  match l with
  | [] => []
  | t :: l' =>
      if existsb (String.eqb (dedup_key t)) seen
      then keep_first_per_key seen l'
      else t :: keep_first_per_key (seen ++ [dedup_key t]) l'
  end.

(** No two records of the list share a key. *)
Fixpoint unique_keys (l : list transaction) : bool :=
  match l with
  | [] => true
  | t :: l' => negb (existsb (same_key t) l') && unique_keys l'
  end.

(* ------------------------------------------------------------------ *)
(** ** Post-Processor: sorting by date *)
(* ------------------------------------------------------------------ *)

(** [Array.prototype.sort] with a comparator.  ECMAScript fixes the result
    when the comparator is consistent on the elements: the stable sorted
    permutation (see [stable_sorted_unique] below).  For an inconsistent
    comparator the order is implementation-defined; the model then is the
    insertion sort below, which moves an element to the right only past
    elements that the comparator puts strictly before it. *)
Module JSArray.

Fixpoint insert {A} (cmp : A -> A -> Z) (x : A) (l : list A) : list A :=
  match l with
  | [] => [x]
  | y :: l' => if (0 <? cmp x y)%Z then y :: insert cmp x l' else x :: l
  end.

Definition sort {A} (cmp : A -> A -> Z) (l : list A) : list A :=
  fold_right (insert cmp) [] l.

(** No adjacent pair of the list is out of order for the comparator. *)
Fixpoint in_order {A} (cmp : A -> A -> Z) (l : list A) : bool :=
  match l with
  | [] => true
  | a :: l' =>
      match l' with
      | [] => true
      | b :: _ => negb (0 <? cmp a b)%Z && in_order cmp l'
      end
  end.

End JSArray.

(** [^(\\d{1,2})[/.-](\\d{1,2})[/.-](\\d{4})$], the pattern of the first
    two formats. *)
Definition regex_DMY : regex :=
  Seq Bol
 (Seq (Grp 1 (Rep 1 2 digit))
 (Seq (one_of "/.-")
 (Seq (Grp 2 (Rep 1 2 digit))
 (Seq (one_of "/.-")
 (Seq (Grp 3 (Rep 4 4 digit))
      Eol))))).

(** [^(\\d{4})[/.-](\\d{1,2})[/.-](\\d{1,2})$] *)
Definition regex_YMD : regex :=
  Seq Bol
 (Seq (Grp 1 (Rep 4 4 digit))
 (Seq (one_of "/.-")
 (Seq (Grp 2 (Rep 1 2 digit))
 (Seq (one_of "/.-")
 (Seq (Grp 3 (Rep 1 2 digit))
      Eol))))).

(** The argument each format hands to [new Date], from the capture groups
    [g 1], [g 2], [g 3]. *)
Definition build_DMY (g : nat -> string) : string :=
  g 3 +:+ "-" +:+ padStart2 (g 2) +:+ "-" +:+ padStart2 (g 1).
Definition build_MDY (g : nat -> string) : string :=
  g 3 +:+ "-" +:+ padStart2 (g 1) +:+ "-" +:+ padStart2 (g 2).
Definition build_YMD (g : nat -> string) : string :=
  g 1 +:+ "-" +:+ padStart2 (g 2) +:+ "-" +:+ padStart2 (g 3).

(** The [formats] table of [parseDate], in its order. *)
Definition formats : list (regex * ((nat -> string) -> string)) :=
  [ (regex_DMY, build_DMY);     (* DD/MM/YYYY *)
    (regex_DMY, build_MDY);     (* MM/DD/YYYY *)
    (regex_YMD, build_YMD) ].   (* YYYY/MM/DD *)

Section Sorting.

(** [new Date(s).getTime()], with [None] for an invalid date ([NaN]).
    What strings the constructor accepts beyond the ISO forms depends on
    the engine, so the development is parametric in it. *)
Variable Date_parse : string -> option Z.

(** The loop of [parseDate] over the formats. *)
Fixpoint try_formats (fs : list (regex * ((nat -> string) -> string)))
  (dateStr : string) : option Z :=
  match fs with
  | [] => None
  | (re, build) :: fs' =>
      match exec re dateStr with
      | Some m =>
          match Date_parse (build (group dateStr m)) with
          | Some date => Some date
          | None => try_formats fs' dateStr
          end
      | None => try_formats fs' dateStr
      end
  end.

(** [parseDate]; the result is the time value of the date, [None] for
    [null]. *)
Definition parseDate (dateStr : option string) : option Z :=
  if negb (truthy dateStr) then None
  else
    let dateStr := or_else dateStr "" in
    match try_formats formats dateStr with
    | Some date => Some date
    | None => Date_parse dateStr   (* last resort: direct parsing *)
    end.

(** The comparator of [sortTransactionsByDate]. *)
Definition compareByDate (a b : transaction) : Z :=
  if negb (truthy (Date a)) || negb (truthy (Date b)) then 0%Z
  else
    match parseDate (Date a), parseDate (Date b) with
    | Some dateA, Some dateB => (dateA - dateB)%Z
    | _, _ => 0%Z
    end.

(** [sortTransactionsByDate] *)
Definition sortTransactionsByDate (transactions : list transaction)
  : list transaction :=
  JSArray.sort compareByDate transactions.

(** The Post-Processor of the text-layer back end: deduplicate, then
    sort. *)
Definition postProcess (transactions : list transaction) : list transaction :=
  sortTransactionsByDate (removeDuplicateTransactions transactions).

(** The record's date parses. *)
Definition parses (t : transaction) : bool :=
  match parseDate (Date t) with Some _ => true | None => false end.

(** The time value of a record whose date parses. *)
Definition time_of (t : transaction) : Z :=
  match parseDate (Date t) with Some d => d | None => 0%Z end.

(** The list is already sorted by date: the comparator finds no adjacent
    pair out of order. *)
Definition date_sorted (l : list transaction) : bool :=
  JSArray.in_order compareByDate l.

(** The records whose date parses are in non-decreasing order of time. *)
Definition nondecreasing_among_parsed (out : list transaction) : Prop :=
  StronglySorted (fun a b => (time_of a <= time_of b)%Z)
                 (List.filter parses out).

(** The comparator is consistent on the list, so that the language
    fixes the result of the sort: every record's date parses, or none
    does. *)
Definition consistent_dates (l : list transaction) : bool :=
  forallb parses l || forallb (fun t => negb (parses t)) l.

End Sorting.

(** [a] stands before [b] in [l]. *)
Definition before {A} (a b : A) (l : list A) : Prop :=
  exists i j : nat, (i < j)%nat /\ nth_error l i = Some a /\ nth_error l j = Some b.

(** Every pair with a record whose date does not parse is in the same
    order in [out] as in [l]. *)
Definition keeps_unparsed_pairs (Date_parse : string -> option Z)
  (l out : list transaction) : Prop :=
  forall a b,
    parses Date_parse a = false \/ parses Date_parse b = false ->
    before a b l -> before a b out.

(** A date parser for examples: the date-only ISO form [YYYY-MM-DD] that
    ECMA-262 specifies, read as UTC; every other string is invalid here. *)
Module IsoDate.

Definition digit_val (c : ascii) : Z := Z.of_nat (code c) - 48.

Definition number (s : string) : Z :=
  fold_left (fun n c => n * 10 + digit_val c)%Z (chars s) 0%Z.

Definition is_leap (y : Z) : bool :=
  ((y mod 4 =? 0) && negb (y mod 100 =? 0) || (y mod 400 =? 0))%Z.

Definition days_in_month (y m : Z) : Z :=
  if (m =? 2)%Z then (if is_leap y then 29 else 28)%Z
  else if ((m =? 4) || (m =? 6) || (m =? 9) || (m =? 11))%Z then 30%Z
  else 31%Z.

(** Days from 1970-01-01 to the given civil date. *)
Definition days_from_civil (y m d : Z) : Z :=
  let y' := (if m <=? 2 then y - 1 else y)%Z in
  let era := (y' / 400)%Z in
  let yoe := (y' - era * 400)%Z in
  let mp := ((m + 9) mod 12)%Z in
  let doy := ((153 * mp + 2) / 5 + d - 1)%Z in
  let doe := (yoe * 365 + yoe / 4 - yoe / 100 + doy)%Z in
  (era * 146097 + doe - 719468)%Z.

Definition iso_pattern : regex :=
  Seq Bol
 (Seq (Grp 1 (Rep 4 4 digit))
 (Seq (lit "-")
 (Seq (Grp 2 (Rep 2 2 digit))
 (Seq (lit "-")
 (Seq (Grp 3 (Rep 2 2 digit))
      Eol))))).

Definition Date_parse (s : string) : option Z :=
  match exec iso_pattern s with
  | Some m =>
      let y := number (group s m 1) in
      let mo := number (group s m 2) in
      let d := number (group s m 3) in
      if ((1 <=? mo) && (mo <=? 12) && (1 <=? d) && (d <=? days_in_month y mo))%Z
      then Some (days_from_civil y mo d * 86400000)%Z
      else None
  | None => None
  end.

End IsoDate.

(** Sample records: two dated ones and one without a date. *)
Definition dated (d : string) (desc : string) : transaction :=
  {| Date := Some d; Amount := None; Debit := None; Credit := None;
     Balance := None; Description := Some desc; Page := Some 1 |}.

Definition undated (desc : string) : transaction :=
  {| Date := None; Amount := None; Debit := None; Credit := None;
     Balance := None; Description := Some desc; Page := Some 1 |}.

(** A March record, an undated one, a January record. *)
Definition mixed_list : list transaction :=
  [dated "01/03/2024" "rent"; undated "carried forward";
   dated "01/01/2024" "salary"].

(* ------------------------------------------------------------------ *)
(** ** Line Parser *)
(* ------------------------------------------------------------------ *)

(** The outcome of a step that may throw. *)
Inductive result (A : Type) : Type :=
| Ok (a : A)
| Thrown (e : string).
Arguments Ok {A} a.
Arguments Thrown {A} e.

(** [text.split("\n").map(line => line.trim()).filter(line => line.length > 0)] *)
Definition text_lines (text : string) : list string :=
  List.filter (fun line => (0 <? String.length line)%nat)
              (map trim (split LF text)).

(** The loop of [extractTableDataFromText] over the lines, with the call
    of the single-line extractor as a parameter that may throw: nothing
    in the loop catches, so a throw leaves the loop. *)
Fixpoint parse_lines (extract : string -> result transaction) (pageNum : nat)
  (lines : list string) (transactions : list transaction)
  : result (list transaction) :=
  match lines with
  | [] => Ok transactions
  | line :: lines' =>
      (* Skip page breaks and empty lines *)
      if includes line "PAGE BREAK" || (String.length (trim line) =? 0)%nat
      then parse_lines extract pageNum lines' transactions
      else if test datePattern line && test amountPattern line
      then match extract line with
           | Ok transaction =>
               if (0 <? key_count transaction)%nat
               then parse_lines extract pageNum lines'
                      (transactions ++ [set_Page pageNum transaction])
               else parse_lines extract pageNum lines' transactions
           | Thrown e => Thrown e
           end
      else parse_lines extract pageNum lines' transactions
  end.

(** [extractTableDataFromText] around a given line extractor: the one
    [try] encloses the whole body and its [catch] returns [[]]. *)
Definition extractTableDataFromText_with
  (extract : string -> result transaction) (text : string) (pageNum : nat)
  : list transaction :=
  match parse_lines extract pageNum (text_lines text) [] with
  | Ok transactions => transactions
  | Thrown _ => []
  end.

(** [extractTableDataFromText]: the program's extractor does not throw. *)
Definition extractTableDataFromText (text : string) (pageNum : nat)
  : list transaction :=
  extractTableDataFromText_with
    (fun line => Ok (extractTransactionFromLine line)) text pageNum.

(** [extractTableDataFromOcrText] *)
Definition extractTableDataFromOcrText (text : string) (pageNum : nat)
  : list transaction :=
  extractTableDataFromText text pageNum.

(** A line the parser turns into a record. *)
Definition qualifies (line : string) : bool :=
  negb (includes line "PAGE BREAK" || (String.length (trim line) =? 0)%nat)
  && (test datePattern line && test amountPattern line).

(** What one qualifying line adds to the output when its extraction
    returns. *)
Definition line_records (extract : string -> result transaction)
  (pageNum : nat) (line : string) : list transaction :=
  match extract line with
  | Ok transaction =>
      if (0 <? key_count transaction)%nat
      then [set_Page pageNum transaction] else []
  | Thrown _ => []
  end.

(** The extractor throws on the line. *)
Definition throws (extract : string -> result transaction) (line : string)
  : bool :=
  match extract line with Thrown _ => true | Ok _ => false end.

Definition three_lines : string :=
  "14/04/2024 CR CARD PYMT 50000.00 86540.65" +:+ String LF
  ("15/04/2024 ACH DEBIT 500.00 86040.65" +:+ String LF
   "26/04/2024 Card Payment 66463.00 19577.65").

(* ------------------------------------------------------------------ *)
(** ** Manual entry: JSON or CSV text *)
(* ------------------------------------------------------------------ *)

(** The shapes of a parsed JSON value that [handleSubmit] tells apart. *)
#[warnings="-register-all"]
Inductive json : Type :=
| JArray (items : list json)
| JObject (fields : list (string * json))
| JNull
| JPrimitive (text : string).        (* a number, a string or a boolean *)

(** What is handed to [onDataSubmit]: parsed JSON items, or the rows
    built from CSV lines, each row an object from header to value. *)
Inductive submitted : Type :=
| FromJson (items : list json)
| FromCsv (rows : list (gmap string string)).

Inductive submit_outcome : Type :=
| SetError (message : string)
| DataSubmit (data : submitted).

(** A JSON text begins, after white space, with the first character of a
    value. *)
Definition json_first (c : ascii) : bool :=
  is_digit c || existsb (eqc c) (chars "{[-tfn") || (code c =? 34)%nat.

Definition json_space (c : ascii) : bool :=
  (code c =? 32)%nat || (code c =? 9)%nat || (code c =? 10)%nat
  || (code c =? 13)%nat.

Fixpoint json_can_start (s : string) : bool :=
  match s with
  | EmptyString => false
  | String c s' => if json_space c then json_can_start s' else json_first c
  end.

(** [row[key] = value] on an object made by [{}], for a string [value]:
    the key [__proto__] names the accessor of the prototype, whose
    setter ignores a string, so nothing is stored; every other key
    stores an own property. *)
Definition set_property (row : gmap string string) (key value : string)
  : gmap string string :=
  if String.eqb key "__proto__" then row else <[key := value]> row.

(** One CSV row: [row[headers[j]] = values[j]] for [j] from 0 up. *)
Definition make_row (headers values : list string) : gmap string string :=
  fold_left (fun row hv => set_property row (fst hv) (snd hv))
            (combine headers values) (∅ : gmap string string).

(** The loop of [handleSubmit] over the data lines. *)
Definition csv_rows (headers : list string) (lines : list string)
  : list (gmap string string) :=
  flat_map
    (fun line =>
       let values := map trim (split "," line) in
       if (length values =? length headers)%nat
       then [make_row headers values] else [])
    lines.

Section ManualEntry.

(** [JSON.parse] on the texts that can begin a JSON value, as the engine
    has it ([None]: it throws).  On every other text it throws. *)
Variable JSON_parse_value : string -> option json.

Definition JSON_parse (text : string) : option json :=
  if json_can_start text then JSON_parse_value text else None.

(** The CSV branch of [handleSubmit]. *)
Definition parse_csv (inputText : string) : submit_outcome :=
  let lines :=
    List.filter (fun line => (0 <? String.length (trim line))%nat)
                (split LF inputText) in
  match lines with
  | header :: ((_ :: _) as data_lines) =>
      let headers := map trim (split "," header) in
      let data := csv_rows headers data_lines in
      match data with
      | [] => SetError "Could not parse any valid transactions from the input"
      | _ => DataSubmit (FromCsv data)
      end
  | _ => SetError "Please enter data with headers and at least one transaction"
  end.

(** [handleSubmit] *)
Definition handleSubmit (inputText : string) : submit_outcome :=
  if (String.length (trim inputText) =? 0)%nat
  then SetError "Please enter some transaction data"
  else
    (* Try to parse as JSON first *)
    match JSON_parse inputText with
    | Some (JArray items) => DataSubmit (FromJson items)
    | Some (JObject fields) => DataSubmit (FromJson [JObject fields])
    | Some JNull => DataSubmit (FromJson [JNull])
    | _ => parse_csv inputText   (* not JSON, or a primitive: CSV *)
    end.

End ManualEntry.

Definition csv_header : string := "Date,Description,Debit,Credit,Balance".
Definition csv_line : string :=
  "14/04/2024,FT/0000885394301/15894005677/CR CARD PYMT,,50000.00,86540.65".
Definition csv_sample : string := csv_header +:+ String LF csv_line.

(** The text of [handlePasteSampleData], line by line. *)
Definition sampleData_lines : list string :=
  [ "Date,Description,Debit,Credit,Balance";
    "14/04/2024,FT/0000885394301/15894005677/CR CARD PYMT,,50000.00,86540.65";
    "15/04/2024,ACH DEBIT:TXV/G4951885,BD-UTIMF SMS,500.00,,86040.65";
    "26/04/2024,Own Indusind CreditCard Payment/4147XXXXXXXXXX854,66463.00,,19577.65";
    "29/04/2024,ACH DEBIT:TXV/G4538/0188,BD-UTIMF SMS,500.00,,19077.65";
    "29/04/2024,N/N12024300880/1963/HDF/C0000240/ NATIONAL SECURITIES,,347.93,19425.58";
    "15/05/2024,ACH DEBIT:TXV/G4608/3053,BD-UTIMF SMS,500.00,,18925.58" ].

Definition sampleData : string :=
  String.concat (String LF "") sampleData_lines.

(** The row the CSV mapping builds from [csv_sample]. *)
Definition csv_row_built : gmap string string :=
  <["Date" := "14/04/2024"]>
  (<["Description" := "FT/0000885394301/15894005677/CR CARD PYMT"]>
  (<["Debit" := ""]>
  (<["Credit" := "50000.00"]>
  (<["Balance" := "86540.65"]> ∅)))).

(** The same row with an empty Credit. *)
Definition csv_row_empty_credit : gmap string string :=
  <["Date" := "14/04/2024"]>
  (<["Description" := "FT/0000885394301/15894005677/CR CARD PYMT"]>
  (<["Debit" := ""]>
  (<["Credit" := ""]>
  (<["Balance" := "86540.65"]> ∅)))).

(* ------------------------------------------------------------------ *)
(** ** The extraction back ends and the Pipeline Controller *)
(* ------------------------------------------------------------------ *)

(** The asynchronous code runs on a virtual clock.  Synchronous code
    takes no time; every [await] suspends the function for a duration
    chosen by the environment, and while it is suspended the timers may
    fire and the caller may cancel.  A state update that unmounts the
    processor ([setIsProcessing(false)]) takes effect when the running
    block of code is over, that is at the next suspension.  The
    environment also says which of the awaited operations reject, and
    whether the document asks for a password. *)
Module Pipeline.

Inductive event : Type :=
| Progress (percent : Q)          (* [onProgress] is called *)
| DataExtracted (records : list transaction)   (* [onDataExtracted] *)
| Error (message : string)        (* [onError] *)
| ReadFile
| LoadDocument
| GetPage (i : nat)               (* [pdfDocument.getPage(i)] *)
| GetTextContent (i : nat)        (* [page.getTextContent()] of page [i] *)
| Render (i : nat)                (* [page.render] of page [i] *)
| CreateWorker
| Recognize (i : nat)             (* [worker.recognize(images[i])] *)
| Terminate                       (* [worker.terminate()] *)
| CallerCancels                   (* [handleCancelProcessing] *)
| OuterTimeout.                   (* the caller's timer fires *)

(** What the world outside the program does. *)
Record env : Type := Env {
  startTime : Z;                            (* [Date.now()] at the start *)
  numPages : nat;                           (* [pdfDocument.numPages] *)
  pageItems : nat -> option (list string);  (* text items; [None]: rejects *)
  recognized : nat -> option string;        (* OCR text; [None]: rejects *)
  awaitMs : nat -> Z;                       (* duration of the k-th await *)
  cancelAt : option Z;                      (* when the caller cancels *)
  useOcr : bool;
  engine_Date : string -> option Z;         (* [new Date(s).getTime()] *)
  rejects : event -> option string;         (* the operation rejects: the
                                               message its error shows *)
  needsPassword : bool                      (* the document asks for one *)
}.

(** The refs and closure variables of [PdfProcessor]. *)
Record processor : Type := Processor {
  processingCancelled : bool;     (* [processingCancelledRef.current] *)
  cleanupRequired : bool;
  lastProgressUpdate : Z;         (* [lastProgressUpdateRef.current] *)
  timeoutId : option Z            (* the inner timer: its deadline *)
}.

(** The refs and state of [BankStatementConverter]. *)
Record caller : Type := Caller {
  processingTimeout : option Z;   (* [processingTimeoutRef]: its deadline *)
  callerLastProgress : Z;         (* its [lastProgressUpdateRef.current] *)
  isProcessing : bool;
  error : option string;
  extractedData : option (list transaction)
}.

Record state : Type := State {
  now : Z;
  awaits : nat;                   (* awaits completed so far *)
  proc : processor;
  call : caller;
  mounted : bool;                 (* the processor is still mounted *)
  log : list (Z * event)          (* time and event, oldest first *)
}.

Definition with_proc (f : processor -> processor) (s : state) : state :=
  State (now s) (awaits s) (f (proc s)) (call s) (mounted s) (log s).
Definition with_call (f : caller -> caller) (s : state) : state :=
  State (now s) (awaits s) (proc s) (f (call s)) (mounted s) (log s).
Definition emit (ev : event) (s : state) : state :=
  State (now s) (awaits s) (proc s) (call s) (mounted s)
        (log s ++ [(now s, ev)]).
Definition at_time (t : Z) (s : state) : state :=
  State t (awaits s) (proc s) (call s) (mounted s) (log s).

Definition set_cancelled (b : bool) (p : processor) : processor :=
  Processor b (cleanupRequired p) (lastProgressUpdate p) (timeoutId p).
Definition set_lastProgressUpdate (t : Z) (p : processor) : processor :=
  Processor (processingCancelled p) (cleanupRequired p) t (timeoutId p).
Definition set_timeoutId (d : option Z) (p : processor) : processor :=
  Processor (processingCancelled p) (cleanupRequired p) (lastProgressUpdate p) d.

Definition set_processingTimeout (d : option Z) (c : caller) : caller :=
  Caller d (callerLastProgress c) (isProcessing c) (error c) (extractedData c).
Definition set_callerLastProgress (t : Z) (c : caller) : caller :=
  Caller (processingTimeout c) t (isProcessing c) (error c) (extractedData c).
Definition set_isProcessing (b : bool) (c : caller) : caller :=
  Caller (processingTimeout c) (callerLastProgress c) b (error c)
         (extractedData c).
Definition set_error (m : string) (c : caller) : caller :=
  Caller (processingTimeout c) (callerLastProgress c) (isProcessing c)
         (Some m) (extractedData c).
Definition set_extractedData (d : list transaction) (c : caller) : caller :=
  Caller (processingTimeout c) (callerLastProgress c) (isProcessing c)
         (error c) (Some d).

(** The state when [isProcessing] has just become true: both effects have
    run, so the caller's timer is armed. *)
Definition initial (e : env) : state :=
  State (startTime e) 0
        (Processor false false 0 None)
        (Caller (Some (startTime e + 180000)%Z) 0 true None None)
        true [].

(** *** The caller's callbacks *)

Definition outer_timeout_message : string :=
  "Processing timed out. The PDF might be too large or complex. Please try a smaller file or use manual entry.".

Definition inner_timeout_message : string :=
  "Processing is taking too long. Please try again with a smaller PDF or use manual entry.".

(** [handleProgressUpdate] *)
Definition handleProgressUpdate (progress : Q) (s : state) : state :=
  if (100 <? now s - callerLastProgress (call s))%Z || Qeq_bool progress 100%Q
  then
    let s := with_call (set_callerLastProgress (now s)) s in
    (* Reset the timeout on progress updates *)
    match processingTimeout (call s) with
    | Some _ => with_call (set_processingTimeout (Some (now s + 180000)%Z)) s
    | None => s
    end
  else s.

(** [handleExtractedData] *)
Definition handleExtractedData (data : list transaction) (s : state) : state :=
  match data with
  | [] =>
      with_call (set_isProcessing false)
        (with_call (set_error
           "No transaction data could be extracted. Please try using manual entry instead.") s)
  | _ => with_call (set_isProcessing false) (with_call (set_extractedData data) s)
  end.

(** [handleExtractionError] *)
Definition handleExtractionError (message : string) (s : state) : state :=
  with_call (set_isProcessing false) (with_call (set_error message) s).

Definition onProgress (progress : Q) (s : state) : state :=
  handleProgressUpdate progress (emit (Progress progress) s).
Definition onDataExtracted (data : list transaction) (s : state) : state :=
  handleExtractedData data (emit (DataExtracted data) s).
Definition onError (message : string) (s : state) : state :=
  handleExtractionError message (emit (Error message) s).

(** *** What happens while the function is suspended *)

(** The cleanup functions of the two effects. *)
Definition unmount (s : state) : state :=
  let s := with_proc (fun p => Processor true true (lastProgressUpdate p) None) s in
  let s := with_call (set_processingTimeout None) s in
  State (now s) (awaits s) (proc s) (call s) false (log s).

Definition flush (s : state) : state :=
  if mounted s && negb (isProcessing (call s)) then unmount s else s.

(** [handleCancelProcessing] *)
Definition caller_cancels (s : state) : state :=
  flush (with_call (set_processingTimeout None)
           (with_call (set_isProcessing false) (emit CallerCancels s))).

(** The callback of the inner timer. *)
Definition inner_timer_fires (s : state) : state :=
  let s := with_proc (set_timeoutId None) s in
  flush
    (if negb (processingCancelled (proc s)) && negb (cleanupRequired (proc s))
     then with_proc (set_cancelled true) (onError inner_timeout_message s)
     else s).

(** The callback of the caller's timer. *)
Definition outer_timer_fires (s : state) : state :=
  flush (with_call (set_error outer_timeout_message)
           (with_call (set_isProcessing false)
              (with_call (set_processingTimeout None) (emit OuterTimeout s)))).

Definition due (d : option Z) (t1 : Z) : option Z :=
  match d with
  | Some t => if (t <=? t1)%Z then Some t else None
  | None => None
  end.

(** The next thing to happen up to time [t1], the earliest first. *)
Definition next_event (e : env) (t1 : Z) (s : state)
  : option (Z * (state -> state)) :=
  let c := if mounted s then due (cancelAt e) t1 else None in
  let i := due (timeoutId (proc s)) t1 in
  let o := due (processingTimeout (call s)) t1 in
  let earlier (a b : option (Z * (state -> state))) :=
    match a, b with
    | Some (ta, fa), Some (tb, fb) =>
        if (tb <? ta)%Z then Some (tb, fb) else Some (ta, fa)
    | Some x, None => Some x
    | None, y => y
    end in
  earlier (option_map (fun t => (t, caller_cancels)) c)
    (earlier (option_map (fun t => (t, inner_timer_fires)) i)
             (option_map (fun t => (t, outer_timer_fires)) o)).

Fixpoint run_events (fuel : nat) (e : env) (t1 : Z) (s : state) : state :=
  match fuel with
  | O => s
  | S fuel' =>
      match next_event e t1 s with
      | Some (t, f) => run_events fuel' e t1 (f (at_time (Z.max (now s) t) s))
      | None => s
      end
  end.

(** One suspension: pending updates are applied, time passes, and what
    falls due happens in order of time. *)
Definition suspend (e : env) (s : state) : state :=
  let s := flush s in
  let t1 := (now s + Z.max 0 (awaitMs e (awaits s)))%Z in
  let s := run_events 3 e t1 s in
  State t1 (S (awaits s)) (proc s) (call s) (mounted s) (log s).

(** *** The monad of the asynchronous functions *)

Inductive res (A : Type) : Type :=
| Val (a : A)
| Returned                       (* a [return] left the function *)
| Raised (e : string)            (* an exception is propagating *)
| Pending.                       (* an awaited promise never settles *)
Arguments Val {A} a.
Arguments Returned {A}.
Arguments Raised {A} e.
Arguments Pending {A}.

Definition M (A : Type) : Type := state -> res A * state.

Definition ret {A} (a : A) : M A := fun s => (Val a, s).
Definition bind {A B} (m : M A) (k : A -> M B) : M B :=
  fun s =>
    match m s with
    | (Val a, s') => k a s'
    | (Returned, s') => (Returned, s')
    | (Raised e, s') => (Raised e, s')
    | (Pending, s') => (Pending, s')
    end.
Definition return_ {A} : M A := fun s => (Returned, s).
Definition pending {A} : M A := fun s => (Pending, s).
Definition raise {A} (e : string) : M A := fun s => (Raised e, s).
Definition act (f : state -> state) : M unit := fun s => (Val tt, f s).
Definition get {A} (f : state -> A) : M A := fun s => (Val (f s), s).

(** A call of an asynchronous function: its [return] ends there. *)
Definition call_ (m : M unit) : M unit :=
  fun s =>
    match m s with
    | (Returned, s') => (Val tt, s')
    | r => r
    end.

(** [try { m } catch (error) { h error }] *)
Definition try_catch {A} (m : M A) (h : string -> M A) : M A :=
  fun s =>
    match m s with
    | (Raised e, s') => h e s'
    | r => r
    end.

(** [try { m } finally { f }] where [f] neither throws nor returns; a
    function that never resumes never reaches its [finally]. *)
Definition try_finally {A} (m : M A) (f : state -> state) : M A :=
  fun s =>
    match m s with
    | (Pending, s') => (Pending, s')
    | (r, s') => (r, f s')
    end.

(** [await] of an operation that the environment completes. *)
Definition await (e : env) (ev : event) : M unit :=
  act (fun s => suspend e (emit ev s)).

(** [await] of an operation that the environment completes or rejects:
    reading the file, loading the document, [getPage], [render], creating
    the OCR worker. *)
Definition await_op (e : env) (ev : event) : M unit :=
  bind (await e ev)
       (fun _ => match rejects e ev with
                 | Some message => raise message
                 | None => ret tt
                 end).

Fixpoint for_each {A} (l : list A) (body : A -> M unit) : M unit :=
  match l with
  | [] => ret tt
  | x :: l' => bind (body x) (fun _ => for_each l' body)
  end.

Fixpoint for_fold {A S} (l : list A) (acc : S) (body : S -> A -> M S) : M S :=
  match l with
  | [] => ret acc
  | x :: l' => bind (body acc x) (fun acc' => for_fold l' acc' body)
  end.

Notation "x <- m ;; k" := (bind m (fun x => k))
  (at level 100, m at next level, right associativity).
Notation "m ;;; k" := (bind m (fun _ => k))
  (at level 100, right associativity).

(** *** The program *)

(** [processingCancelledRef.current || cleanupRequired] *)
Definition cancelled : M bool :=
  get (fun s => processingCancelled (proc s) || cleanupRequired (proc s)).

(** [if (processingCancelledRef.current || cleanupRequired) return] *)
Definition return_if_cancelled : M unit :=
  c <- cancelled ;; if c then return_ else ret tt.

(** [throttledProgressUpdate]; the status text is left out. *)
Definition throttled (progress : Q) (s : state) : state :=
  if (100 <? now s - lastProgressUpdate (proc s))%Z
     || Qeq_bool progress 100%Q || Qeq_bool progress 0%Q
  then with_proc (set_lastProgressUpdate (now s)) (onProgress progress s)
  else s.

Definition throttledProgressUpdate (progress : Q) : M unit :=
  act (throttled progress).

(** [textContent.items.map(item => item.str).join(" ")] *)
Definition pageText (items : list string) : string := String.concat " " items.

Definition page_break : string :=
  String LF (String LF ("--- PAGE BREAK ---" +:+ String LF (String LF ""))).

(** [await page.getTextContent()] for page [i] *)
Definition getTextContent (e : env) (i : nat) : M (list string) :=
  await e (GetTextContent i) ;;;
  match pageItems e i with
  | Some items => ret items
  | None => raise "getTextContent failed"
  end.

Definition textLength (items : list string) : nat :=
  fold_left (fun acc item => (acc + String.length item)%nat) items 0%nat.

(** [checkIfPdfIsScanned] on the first page *)
Definition checkIfPdfIsScanned (e : env) : M bool :=
  try_catch
    (items <- getTextContent e 1 ;;
     (* Threshold: less than 100 characters on the first page *)
     ret (textLength items <? 100)%nat)
    (fun _ => ret true).

(** One round of the loop of [extractAllText]. *)
Definition all_text_step (e : env) (allText : string) (i : nat) : M string :=
  await_op e (GetPage i) ;;;
  items <- getTextContent e i ;;
  (* Combine the text items into a single string *)
  ret (allText +:+ pageText items +:+ page_break).

(** [extractAllText] *)
Definition extractAllText (e : env) (maxPages : nat) : M string :=
  for_fold (seq 1 (Nat.min (numPages e) maxPages)) "" (all_text_step e).

Definition nat_Q (n : nat) : Q := inject_Z (Z.of_nat n).

(** One round of the loop of [processImagesWithOcr] over the images; an
    image is named by the page it shows. *)
Definition recognize_step (e : env) (images : list nat)
  (progressCallback : Q -> M unit) (results : list string) (i : nat)
  : M (list string) :=
  try_catch
    (await e (Recognize i) ;;;
     match recognized e i with
     | Some text =>
         progressCallback (nat_Q (i + 1) / nat_Q (length images))%Q ;;;
         ret (results ++ [text])
     | None => raise "recognize failed"
     end)
    (fun _ => ret (results ++ [""])).   (* empty string for failed pages *)

(** [processImagesWithOcr] *)
Definition processImagesWithOcr (e : env) (images : list nat)
  (progressCallback : Q -> M unit) : M (list string) :=
  results <-
    for_fold (seq 0 (length images)) []
             (recognize_step e images progressCallback) ;;
  (* Clean up *)
  await e Terminate ;;;
  ret results.

(** The comparator of the sort in the fallback branch:
    [new Date(a.Date).getTime() - new Date(b.Date).getTime()], a [NaN]
    result counting as 0. *)
Definition compareByRawDate (e : env) (a b : transaction) : Z :=
  if truthy (Date a) && truthy (Date b)
  then match engine_Date e (or_else (Date a) ""),
             engine_Date e (or_else (Date b) "") with
       | Some ta, Some tb => (ta - tb)%Z
       | _, _ => 0%Z
       end
  else 0%Z.

Definition scanned_error : string :=
  "Failed to process the scanned PDF with OCR. Please try a clearer scan or a text-based PDF.".
Definition text_error : string :=
  "Failed to extract text from the PDF. Please try using OCR mode.".
Definition extraction_empty : string :=
  "Could not extract any transaction data from the PDF".

(** [if (!cleanupRequired) { onDataExtracted(data); throttledProgressUpdate(100, ...) }] *)
Definition deliver (data : list transaction) : M unit :=
  c <- get (fun s => cleanupRequired (proc s)) ;;
  if negb c
  then act (onDataExtracted data) ;;; throttledProgressUpdate 100%Q
  else ret tt.

(** The [catch] of the two back ends and of [processPdf]. *)
Definition report (message : string) : M unit :=
  c <- cancelled ;;
  if negb c then act (onError message) else ret tt.

(** One round of the rasterization loop of [processScannedPdf]. *)
Definition raster_step (e : env) (maxPagesToProcess : nat)
  (images : list nat) (i : nat) : M (list nat) :=
  return_if_cancelled ;;;
  let progressPerPage := (20 / nat_Q maxPagesToProcess)%Q in
  throttledProgressUpdate (25 + nat_Q (i - 1) * progressPerPage)%Q ;;;
  await_op e (GetPage i) ;;;
  (* Render the page to the canvas *)
  await_op e (Render i) ;;;
  throttledProgressUpdate (25 + nat_Q i / nat_Q maxPagesToProcess * 20)%Q ;;;
  ret (images ++ [i]).

(** The progress callback [processScannedPdf] hands to the OCR loop. *)
Definition ocr_progress (progress : Q) : M unit :=
  c <- cancelled ;;
  if c then ret tt
  else throttledProgressUpdate (45 + inject_Z (Qfloor (progress * 35)))%Q.

(** One round of the loop of [processScannedPdf] over the OCR texts. *)
Definition record_step (count : nat) (allExtractedData : list transaction)
  (it : nat * string) : M (list transaction) :=
  return_if_cancelled ;;;
  let progressPerPage := (15 / nat_Q count)%Q in
  throttledProgressUpdate (80 + nat_Q (fst it) * progressPerPage)%Q ;;;
  let pageData := extractTableDataFromOcrText (snd it) (fst it + 1) in
  ret (allExtractedData ++ pageData).

(** The [try] block of [processScannedPdf]. *)
Definition processScannedPdf_body (e : env) : M unit :=
  throttledProgressUpdate 25%Q ;;;
  let maxPagesToProcess := Nat.min (numPages e) 10 in
  (* Convert each page to an image (25-45%) *)
  images <- for_fold (seq 1 maxPagesToProcess) []
                     (raster_step e maxPagesToProcess) ;;
  return_if_cancelled ;;;
  throttledProgressUpdate 45%Q ;;;
  await_op e CreateWorker ;;;
  (* Process each page with OCR (45-80%) *)
  extractedText <- processImagesWithOcr e images ocr_progress ;;
  return_if_cancelled ;;;
  throttledProgressUpdate 80%Q ;;;
  allExtractedData <-
    for_fold (combine (seq 0 (length extractedText)) extractedText) []
             (record_step (length extractedText)) ;;
  return_if_cancelled ;;;
  throttledProgressUpdate 95%Q ;;;
  deliver (sortTransactionsByDate (engine_Date e) allExtractedData).

(** [processScannedPdf] *)
Definition processScannedPdf (e : env) : M unit :=
  try_catch (processScannedPdf_body e) (fun _ => report scanned_error).

(** One round of the page loop of [processTextBasedPdf]. *)
Definition text_step (e : env) (maxPagesToProcess : nat)
  (allPagesData : list transaction) (i : nat) : M (list transaction) :=
  return_if_cancelled ;;;
  let progressPerPage := (60 / nat_Q maxPagesToProcess)%Q in
  throttledProgressUpdate (20 + nat_Q (i - 1) * progressPerPage)%Q ;;;
  await_op e (GetPage i) ;;;
  (* Extract text content *)
  items <- getTextContent e i ;;
  let pageData := extractTableDataFromText (pageText items) i in
  throttledProgressUpdate (20 + nat_Q i / nat_Q maxPagesToProcess * 60)%Q ;;;
  ret (allPagesData ++ pageData).

(** The [try] block of [processTextBasedPdf]. *)
Definition processTextBasedPdf_body (e : env) : M unit :=
  let maxPagesToProcess := Nat.min (numPages e) 20 in
  (* Process each page (20-80%) *)
  allPagesData <- for_fold (seq 1 maxPagesToProcess) []
                           (text_step e maxPagesToProcess) ;;
  return_if_cancelled ;;;
  throttledProgressUpdate 80%Q ;;;
  match allPagesData with
  | [] =>
      (* try a different approach *)
      throttledProgressUpdate 85%Q ;;;
      allText <- extractAllText e maxPagesToProcess ;;
      match extractTableDataFromText allText 1 with
      | [] => raise extraction_empty
      | extractedData =>
          throttledProgressUpdate 95%Q ;;;
          deliver (JSArray.sort (compareByRawDate e) extractedData) ;;;
          return_
      end
  | _ =>
      return_if_cancelled ;;;
      throttledProgressUpdate 90%Q ;;;
      let uniqueTransactions := removeDuplicateTransactions allPagesData in
      let sortedTransactions :=
        sortTransactionsByDate (engine_Date e) uniqueTransactions in
      throttledProgressUpdate 95%Q ;;;
      deliver sortedTransactions
  end.

(** [processTextBasedPdf] *)
Definition processTextBasedPdf (e : env) : M unit :=
  try_catch (processTextBasedPdf_body e) (fun _ => report text_error).

Definition password_message : string :=
  "This PDF is password protected. Please remove the password protection and try again.".

(** [loadingTask.onPassword]: it calls [onError] behind no guard. *)
Definition on_password (s : state) : state :=
  with_proc (set_cancelled true) (onError password_message s).

(** [await loadingTask.promise].  A document that asks for a password
    makes the library call [onPassword]; the program never supplies a
    password, so the promise never settles and the function never
    resumes. *)
Definition load_document (e : env) : M unit :=
  await e LoadDocument ;;;
  if needsPassword e then act on_password ;;; pending
  else match rejects e LoadDocument with
       | Some message => raise message
       | None => ret tt
       end.

(** The [try] block of [processPdf], once the PDF library is loaded. *)
Definition processPdf_body (e : env) : M unit :=
  (* Set a timeout to prevent hanging *)
  act (fun s => with_proc (set_timeoutId (Some (now s + 120000)%Z)) s) ;;;
  throttledProgressUpdate 5%Q ;;;
  await_op e ReadFile ;;;
  return_if_cancelled ;;;
  throttledProgressUpdate 10%Q ;;;
  load_document e ;;;
  return_if_cancelled ;;;
  throttledProgressUpdate 15%Q ;;;
  await_op e (GetPage 1) ;;;
  return_if_cancelled ;;;
  isScanned <- checkIfPdfIsScanned e ;;
  if isScanned && useOcr e
  then throttledProgressUpdate 20%Q ;;; call_ (processScannedPdf e)
  else throttledProgressUpdate 20%Q ;;; call_ (processTextBasedPdf e).

(** [processPdf] *)
Definition processPdf (e : env) : M unit :=
  try_finally
    (try_catch (processPdf_body e)
       (fun error =>
          report ("Failed to process the PDF: " +:+ error
                  +:+ ". Please try again.")))
    (with_proc (set_timeoutId None)).

(** One whole invocation: the state when everything has settled. *)
Definition run (e : env) : state := flush (snd (processPdf e (initial e))).

(** The events of an invocation, oldest first. *)
Definition trace (e : env) : list event := map snd (log (run e)).

(** A result callback: [onDataExtracted] or [onError]. *)
Definition is_result (ev : event) : bool :=
  match ev with
  | DataExtracted _ | Error _ => true
  | _ => false
  end.

Definition is_progress (ev : event) : bool :=
  match ev with Progress _ => true | _ => false end.

(** The events other than progress notifications. *)
Definition steps (l : list event) : list event :=
  List.filter (fun ev => negb (is_progress ev)) l.

(** What follows the caller's cancellation in a list of events. *)
Fixpoint after_cancel (l : list event) : list event :=
  match l with
  | [] => []
  | CallerCancels :: l' => l'
  | _ :: l' => after_cancel l'
  end.

(** The time the first [k] awaits take. *)
Fixpoint elapsed (e : env) (k : nat) : Z :=
  match k with
  | O => 0%Z
  | S k' => (elapsed e k' + Z.max 0 (awaitMs e k'))%Z
  end.

End Pipeline.

(** The text of page [i], as both back-end loops build it. *)
Definition page_text (e : Pipeline.env) (i : nat) : string :=
  match Pipeline.pageItems e i with
  | Some items => Pipeline.pageText items
  | None => ""
  end.

(** The value [extractAllText] builds from the pages [l]. *)
Definition all_text (e : Pipeline.env) (l : list nat) : string :=
  fold_left (fun allText i => allText +:+ page_text e i +:+ Pipeline.page_break)
            l "".

(** The lines of a text that the Line Parser turns into records. *)
Definition record_lines (text : string) : list string :=
  List.filter qualifies (text_lines text).

(** Nothing interferes with the invocation before its [N]-th await is
    over: the caller never cancels, the first [N] awaits take less than
    the two minutes of the inner timer, and in state [s] the processor is
    mounted and not cancelled, the clock is where the awaits so far have
    brought it, and every armed timer is due after those [N] awaits. *)
Definition quiet (e : Pipeline.env) (N : nat) (s : Pipeline.state) : Prop :=
  Pipeline.cancelAt e = None /\
  (Pipeline.elapsed e N < 120000)%Z /\
  Pipeline.mounted s = true /\
  Pipeline.processingCancelled (Pipeline.proc s) = false /\
  Pipeline.cleanupRequired (Pipeline.proc s) = false /\
  Pipeline.isProcessing (Pipeline.call s) = true /\
  Pipeline.extractedData (Pipeline.call s) = None /\
  Pipeline.now s = (Pipeline.startTime e + Pipeline.elapsed e (Pipeline.awaits s))%Z /\
  (forall d, Pipeline.timeoutId (Pipeline.proc s) = Some d ->
     (Pipeline.startTime e + Pipeline.elapsed e N < d)%Z) /\
  (forall d, Pipeline.processingTimeout (Pipeline.call s) = Some d ->
     (Pipeline.startTime e + Pipeline.elapsed e N < d)%Z).

(** State [s] is quiet, [k] awaits are over, and the steps logged so far
    are [evs]. *)
Definition reached (e : Pipeline.env) (N : nat) (s : Pipeline.state)
  (k : nat) (evs : list Pipeline.event) : Prop :=
  quiet e N s /\ Pipeline.awaits s = k /\
  Pipeline.steps (map snd (Pipeline.log s)) = evs.

(** Reading the pages [l]: the operations the program awaits. *)
Definition reads (l : list nat) : list Pipeline.event :=
  flat_map (fun i => [Pipeline.GetPage i; Pipeline.GetTextContent i]) l.

(** The records of the pages [l], page by page. *)
Definition page_records (e : Pipeline.env) (l : list nat) : list transaction :=
  flat_map (fun i => extractTableDataFromText (page_text e i) i) l.

(** Page [i] can be read: [getPage] and [getTextContent] resolve. *)
Definition readable (e : Pipeline.env) (i : nat) : bool :=
  match Pipeline.rejects e (Pipeline.GetPage i), Pipeline.pageItems e i with
  | None, Some _ => true
  | _, _ => false
  end.

(** The first page has at least 100 characters of text, or OCR is off:
    the text-layer back end is chosen. *)
Definition text_layer (e : Pipeline.env) : bool :=
  match Pipeline.pageItems e 1 with
  | Some items =>
      negb ((Pipeline.textLength items <? 100)%nat && Pipeline.useOcr e)
  | None => negb (Pipeline.useOcr e)
  end.

(** From [s] to [s'] no event of the kind [P] was logged. *)
Definition kept (P : Pipeline.event -> bool) (s s' : Pipeline.state) : Prop :=
  List.filter P (map snd (Pipeline.log s'))
  = List.filter P (map snd (Pipeline.log s)).

(** The text the OCR loop records for image [i]: the recognized text, or
    the empty string when recognition fails. *)
Definition ocr_text (e : Pipeline.env) (i : nat) : string :=
  match Pipeline.recognized e i with Some text => text | None => "" end.

(** The uses of the OCR engine. *)
Definition is_recognition (ev : Pipeline.event) : bool :=
  match ev with
  | Pipeline.Recognize _ | Pipeline.Terminate => true
  | _ => false
  end.

(** The uses of the OCR engine logged so far. *)
Definition recognitions (s : Pipeline.state) : list Pipeline.event :=
  List.filter is_recognition (map snd (Pipeline.log s)).

(** Rasterizing the pages [l]: the operations the program awaits. *)
Definition rasters (l : list nat) : list Pipeline.event :=
  flat_map (fun i => [Pipeline.GetPage i; Pipeline.Render i]) l.

(** The records of the OCR texts of the first [m] images; image [i]
    shows page [i + 1]. *)
Definition ocr_records (e : Pipeline.env) (m : nat) : list transaction :=
  flat_map (fun i => extractTableDataFromOcrText (ocr_text e i) (i + 1))
           (seq 0 m).

(** The operations before a back end is chosen. *)
Definition prelude : list Pipeline.event :=
  [Pipeline.ReadFile; Pipeline.LoadDocument; Pipeline.GetPage 1;
   Pipeline.GetTextContent 1].

(** The message [handleExtractedData] sets for an empty result. *)
Definition no_data_message : string :=
  "No transaction data could be extracted. Please try using manual entry instead.".

(** What the caller holds after [handleExtractedData data]. *)
Definition caller_has (data : list transaction) (c : Pipeline.caller) : Prop :=
  match data with
  | [] => Pipeline.error c = Some no_data_message
          /\ Pipeline.extractedData c = None
  | _ => Pipeline.extractedData c = Some data
  end.

(** The caller cancels. *)
Definition is_cancel (ev : Pipeline.event) : bool :=
  match ev with
  | Pipeline.CallerCancels => true
  | _ => false
  end.

(** The operations the program awaits. *)
Definition is_operation (ev : Pipeline.event) : bool :=
  match ev with
  | Pipeline.ReadFile | Pipeline.LoadDocument | Pipeline.GetPage _
  | Pipeline.GetTextContent _ | Pipeline.Render _ | Pipeline.CreateWorker
  | Pipeline.Recognize _ | Pipeline.Terminate => true
  | _ => false
  end.

Definition events (s : Pipeline.state) : list Pipeline.event :=
  map snd (Pipeline.log s).

(** The invariant behind the guards of the result callbacks: an
    unmounted processor has [cleanupRequired] set, a cancellation
    unmounts the processor, and no result callback follows a
    cancellation. *)
Definition stop_safe (s : Pipeline.state) : Prop :=
  (Pipeline.mounted s = false ->
   Pipeline.cleanupRequired (Pipeline.proc s) = true) /\
  (existsb is_cancel (events s) = true -> Pipeline.mounted s = false) /\
  forallb (fun ev => negb (Pipeline.is_result ev))
          (Pipeline.after_cancel (events s)) = true.

(** The result callbacks made so far. *)
Definition results (s : Pipeline.state) : list Pipeline.event :=
  List.filter Pipeline.is_result (events s).

(** At most one result callback was made, and since it was made the
    guards of the result callbacks are closed. *)
Definition guarded (s : Pipeline.state) : Prop :=
  (Pipeline.mounted s = false ->
   Pipeline.cleanupRequired (Pipeline.proc s) = true) /\
  (length (results s) <= 1)%nat /\
  (results s <> [] -> Pipeline.cleanupRequired (Pipeline.proc s) = true).

(** The computation [m] preserves the invariant [Inv]. *)
Definition keeps (Inv : Pipeline.state -> Prop) {A} (m : Pipeline.M A) : Prop :=
  forall s, Inv s -> Inv (snd (m s)).

(** The computation [m] makes at most one result callback: it keeps
    [guarded], or it ends, without an exception, just after its only
    result callback. *)
Definition once {A} (m : Pipeline.M A) : Prop :=
  forall s, guarded s ->
    guarded (snd (m s)) \/
    ((length (results (snd (m s))) <= 1)%nat /\
     forall err, fst (m s) <> Pipeline.Raised err).

(** The progress notifications of a log: time and percentage. *)
Definition notifications (l : list (Z * Pipeline.event)) : list (Z * Q) :=
  flat_map (fun x => match snd x with
                     | Pipeline.Progress p => [(fst x, p)]
                     | _ => []
                     end) l.

(** A notification at time [t] of [p] percent passes the throttle when
    the one before it was made at time [last]. *)
Definition passes (last t : Z) (p : Q) : bool :=
  (100 <? t - last)%Z || Qeq_bool p 100 || Qeq_bool p 0.

(** Each notification passes the throttle after the one before it;
    [last] stands for the time before the first. *)
Fixpoint spaced (last : Z) (l : list (Z * Q)) : bool :=
  match l with
  | [] => true
  | (t, p) :: l' => passes last t p && spaced t l'
  end.

(** The time of the last notification. *)
Definition last_time (last : Z) (l : list (Z * Q)) : Z :=
  fold_left (fun _ x => fst x) l last.

(** The notifications so far are spaced and [lastProgressUpdateRef]
    holds the time of the last one. *)
Definition throttle_ok (s : Pipeline.state) : Prop :=
  spaced 0 (notifications (Pipeline.log s)) = true /\
  Pipeline.lastProgressUpdate (Pipeline.proc s)
  = last_time 0 (notifications (Pipeline.log s)).



(** Nothing goes wrong outside the program: the document asks for no
    password and none of the operations the program awaits rejects. *)
Definition cooperative (e : Pipeline.env) : Prop :=
  Pipeline.needsPassword e = false /\
  forall ev, Pipeline.rejects e ev = None.

(** Sample environments. *)
Definition T0 : Z := 1700000000000.

(** A scanned document of ten pages, one second per operation. *)
Definition ocr_env (cancel : option Z) : Pipeline.env :=
  {| Pipeline.startTime := T0;
     Pipeline.numPages := 10;
     Pipeline.pageItems := fun _ => Some ["scan"];
     Pipeline.recognized := fun _ => Some "15/04/2024 ACH DEBIT 500.00 86040.65";
     Pipeline.awaitMs := fun _ => 1000%Z;
     Pipeline.cancelAt := cancel;
     Pipeline.useOcr := true;
     Pipeline.engine_Date := IsoDate.Date_parse;
     Pipeline.rejects := fun _ => None;
     Pipeline.needsPassword := false |}.

Definition statement_heading : string :=
  "Statement of account for the period from the first to the last day of the month, account 0000885394301".

(** A text-layer document with the given page texts, [ms] milliseconds
    per operation. *)
Definition text_env (pages : list string) (ms : Z) : Pipeline.env :=
  {| Pipeline.startTime := T0;
     Pipeline.numPages := length pages;
     Pipeline.pageItems :=
       fun i => option_map (fun t => [statement_heading; t])
                           (nth_error pages (i - 1));
     Pipeline.recognized := fun _ => None;
     Pipeline.awaitMs := fun _ => ms;
     Pipeline.cancelAt := None;
     Pipeline.useOcr := true;
     Pipeline.engine_Date := IsoDate.Date_parse;
     Pipeline.rejects := fun _ => None;
     Pipeline.needsPassword := false |}.

(** Twenty pages without a transaction line, seven seconds per
    operation: some progress is reported every fourteen seconds. *)
Definition slow_env : Pipeline.env := text_env (repeat "hello" 20) 7000.


(** A document that asks for a password, one second per operation but
    [loadMs] for loading the document. *)
Definition locked_env (cancel : option Z) (loadMs : Z) : Pipeline.env :=
  {| Pipeline.startTime := T0;
     Pipeline.numPages := 1;
     Pipeline.pageItems := fun _ => None;
     Pipeline.recognized := fun _ => None;
     Pipeline.awaitMs := fun k => if (k =? 1)%nat then loadMs else 1000%Z;
     Pipeline.cancelAt := cancel;
     Pipeline.useOcr := true;
     Pipeline.engine_Date := IsoDate.Date_parse;
     Pipeline.rejects := fun _ => None;
     Pipeline.needsPassword := true |}.

(** When, counted from the start, the events that satisfy [p] happen. *)
Definition times_of (e : Pipeline.env) (p : Pipeline.event -> bool) : list Z :=
  map (fun x => (fst x - Pipeline.startTime e)%Z)
      (List.filter (fun x => p (snd x)) (Pipeline.log (Pipeline.run e))).

(* ------------------------------------------------------------------ *)
(** * The table preview (src/components/table-preview.tsx) *)
(* ------------------------------------------------------------------ *)

Module TablePreview.

(** [new Set(l)]: the elements in the order of their first insertion. *)
Definition set_add (s : list string) (x : string) : list string :=
  if existsb (String.eqb x) s then s else s ++ [x].

Definition new_Set (l : list string) : list string := fold_left set_add l [].

(** [a.includes(col)] on an array of strings. *)
Definition array_includes (a : list string) (col : string) : bool :=
  existsb (String.eqb col) a.

(** [a.slice(start, end)] *)
Definition slice {A} (a : list A) (start end_ : Z) : list A :=
  let len := Z.of_nat (length a) in
  let k := if (start <? 0)%Z then Z.max (len + start) 0 else Z.min start len in
  let final := if (end_ <? 0)%Z then Z.max (len + end_) 0 else Z.min end_ len in
  firstn (Z.to_nat (final - k)) (skipn (Z.to_nat k) a).

Definition rowsPerPage : Z := 10.

Definition important : list string :=
  ["Date"; "Description"; "Debit"; "Credit"; "Amount"; "Balance"; "Type"; "Page"].

Section Rows.
(** A row is any value; [keys] is [Object.keys], which throws on [null]
    and on [undefined]: [None]. *)
Variable Row : Type.
Variable keys : Row -> option (list string).

(** [data.flatMap((item) => Object.keys(item))]; [None] when it throws. *)
Fixpoint flatMap_keys (data : list Row) : option (list string) :=
  match data with
  | [] => Some []
  | item :: rest =>
      match keys item with
      | None => None
      | Some ks =>
          match flatMap_keys rest with
          | None => None
          | Some more => Some (ks ++ more)
          end
      end
  end.

(** Get all unique keys from the data *)
Definition columns (data : list Row) : option (list string) :=
  match flatMap_keys data with
  | None => None
  | Some all => Some (new_Set all)
  end.

(** Sort columns to put important columns first; [None] when the
    component throws before it. *)
Definition orderedColumns (data : list Row) : option (list string) :=
  match columns data with
  | None => None
  | Some columns =>
      Some (List.filter (fun col => array_includes columns col)
              (important
               ++ List.filter (fun col => negb (array_includes important col))
                              columns))
  end.

Definition startIndex (currentPage : Z) : Z := ((currentPage - 1) * rowsPerPage)%Z.
Definition endIndex (currentPage : Z) : Z := (startIndex currentPage + rowsPerPage)%Z.

(** Determine which data to show based on pagination *)
Definition displayData (data : list Row) (currentPage : Z) : list Row :=
  slice data (startIndex currentPage) (endIndex currentPage).

(** [Math.ceil(data.length / rowsPerPage)] *)
Definition totalPages (data : list Row) : Z :=
  Qceiling (inject_Z (Z.of_nat (length data)) / inject_Z rowsPerPage).

Definition handlePreviousPage (prev : Z) : Z := Z.max (prev - 1) 1.

Definition handleNextPage (data : list Row) (prev : Z) : Z :=
  Z.min (prev + 1) (totalPages data).

(** The two buttons, and the page shown after a series of clicks; the
    component starts on page 1. *)
Inductive click : Type := Previous | Next.

Definition on_click (data : list Row) (currentPage : Z) (c : click) : Z :=
  match c with
  | Previous => handlePreviousPage currentPage
  | Next => handleNextPage data currentPage
  end.

Definition after_clicks (data : list Row) (clicks : list click) : Z :=
  fold_left (on_click data) clicks 1%Z.

(** The page numbers [1..totalPages]. *)
Definition page_numbers (data : list Row) : list Z :=
  map Z.of_nat (seq 1 (Z.to_nat (totalPages data))).

End Rows.

End TablePreview.

(** Twenty-three rows, for the examples. *)
Definition sample_rows : list (list (string * string)) :=
  map (fun i => [("Ref", "r"); ("Balance", "1.00"); ("Date", "01/01/2024")])
      (seq 0 23).
(* ------------------------------------------------------------------ *)
(** ** Properties of the Pattern Matcher on the sample line *)
(* ------------------------------------------------------------------ *)

(** C1.  On the line ["15/04/2024 ACH DEBIT:TXV/G4951885 500.00 86040.65"]
    the first date match is ["15/04/2024"]; once it is removed the amount
    matches are [" 500.00"] and [" 86040.65"]; the line contains "debit"
    when lower-cased; and the extractor returns exactly the record with
    Date "15/04/2024", Debit "500.00", Balance "86040.65" and Description
    "ACH DEBIT:TXV/G4951885", no other field being set. *)
Theorem extractTransactionFromLine_sample :
  match0 datePattern line_C1 = Some "15/04/2024" /\
  matchAll amountPattern (replace line_C1 "15/04/2024" "")
    = [" 500.00"; " 86040.65"] /\
  includes (toLowerCase (replace line_C1 "15/04/2024" "")) "debit" = true /\
  extractTransactionFromLine line_C1 =
    {| Date := Some "15/04/2024";
       Amount := None;
       Debit := Some "500.00";
       Credit := None;
       Balance := Some "86040.65";
       Description := Some "ACH DEBIT:TXV/G4951885";
       Page := None |}.
Proof. repeat split; vm_compute; reflexivity. Qed.

(* ------------------------------------------------------------------ *)
(** ** Properties of deduplication *)
(* ------------------------------------------------------------------ *)

Lemma has_existsb {V} (m : JSMap.t V) (k : string) :
  JSMap.has m k = existsb (String.eqb k) (map fst m).
Proof.
  unfold JSMap.has. induction m as [|e m IH]; simpl; [reflexivity|].
  rewrite IH, (String.eqb_sym (fst e) k). reflexivity.
Qed.

(** The loop of [removeDuplicateTransactions], from any map built so far. *)
Lemma dedup_loop (l : list transaction) : forall m : JSMap.t transaction,
  JSMap.values
    (fold_left
       (fun (uniqueMap : JSMap.t transaction) transaction =>
          let key := dedup_key transaction in
          if negb (JSMap.has uniqueMap key)
          then JSMap.set uniqueMap key transaction
          else uniqueMap) l m)
  = JSMap.values m ++ keep_first_per_key (map fst m) l.
Proof.
  induction l as [|t l IH]; intros m; simpl.
  - rewrite app_nil_r. reflexivity.
  - rewrite IH. unfold JSMap.set. rewrite has_existsb.
    destruct (existsb (String.eqb (dedup_key t)) (map fst m)) eqn:E; simpl.
    + reflexivity.
    + unfold JSMap.values. rewrite !map_app. simpl.
      rewrite <- app_assoc. reflexivity.
Qed.

Lemma removeDuplicateTransactions_spec (l : list transaction) :
  removeDuplicateTransactions l = keep_first_per_key [] l.
Proof. unfold removeDuplicateTransactions. rewrite dedup_loop. reflexivity. Qed.
Lemma keep_first_sublist (l : list transaction) : forall seen,
  sublist (keep_first_per_key seen l) l.
Proof.
  induction l as [|t l IH]; intros seen; simpl.
  - constructor.
  - destruct (existsb _ seen).
    + apply sublist_cons, IH.
    + apply sublist_skip, IH.
Qed.

Lemma existsb_snoc_other (k k' : string) (seen : list string) :
  String.eqb k k' = false ->
  existsb (String.eqb k) (seen ++ [k']) = existsb (String.eqb k) seen.
Proof.
  intros H. rewrite existsb_app. simpl. rewrite H, !orb_false_r. reflexivity.
Qed.

(** What [keep_first_per_key] keeps of one key [k]: nothing if [k] was
    seen, else the first record of the input that has it. *)
Lemma keep_first_filter (k : string) (l : list transaction) : forall seen,
  List.filter (fun x => String.eqb k (dedup_key x)) (keep_first_per_key seen l)
  = if existsb (String.eqb k) seen then []
    else match List.find (fun x => String.eqb k (dedup_key x)) l with
         | Some f => [f]
         | None => []
         end.
Proof.
  induction l as [|t l IH]; intros seen; simpl.
  - destruct (existsb _ seen); reflexivity.
  - destruct (existsb (String.eqb (dedup_key t)) seen) eqn:Et.
    + rewrite IH. destruct (existsb (String.eqb k) seen) eqn:Ek; [reflexivity|].
      destruct (String.eqb k (dedup_key t)) eqn:E; [|reflexivity].
      apply String.eqb_eq in E. subst k. congruence.
    + simpl. rewrite IH.
      destruct (String.eqb k (dedup_key t)) eqn:E.
      * apply String.eqb_eq in E. subst k. rewrite Et.
        rewrite existsb_app. simpl. rewrite String.eqb_refl, orb_true_r.
        reflexivity.
      * rewrite existsb_snoc_other by exact E. reflexivity.
Qed.

Lemma find_some_of_In (t : transaction) (l : list transaction) :
  In t l -> exists f, List.find (same_key t) l = Some f.
Proof.
  induction l as [|x l IH]; simpl; [tauto|].
  intros [->|H].
  - unfold same_key at 1. rewrite String.eqb_refl. eauto.
  - destruct (same_key t x); eauto.
Qed.

Lemma str_take_substring (n : nat) (s : string) :
  str_take n s = String.substring 0 n s.
Proof.
  revert s. induction n as [|n IH]; intros [|c s]; simpl; try reflexivity.
  rewrite IH. reflexivity.
Qed.

(** The key the program builds is the key of the claim. *)
Lemma dedup_key_claimed (t : transaction) : dedup_key t = claimed_key t.
Proof.
  unfold dedup_key, claimed_key, dateStr, amountStr, descStart, substring0.
  rewrite str_take_substring.
  destruct t as [d a db cr b ds p]. cbn [Date Amount Debit Credit Description].
  destruct d as [[|? ?]|], a as [[|? ?]|], db as [[|? ?]|], cr as [[|? ?]|],
    ds as [[|? ?]|]; reflexivity.
Qed.

Lemma same_key_claimed (a b : transaction) : same_key a b = same_claimed_key a b.
Proof. unfold same_key, same_claimed_key. rewrite !dedup_key_claimed. reflexivity. Qed.

(** C3.  The key the program builds for a record is the Date (or the
    empty string), the first non-empty of (Amount, Debit, Credit), and
    the first ten characters of the Description, joined with hyphens.
    The output of deduplication is a subsequence of the input (nothing
    is added or reordered); of the records that share the key of any
    input record it holds exactly one, the first such record of the
    input; every record it holds is the first of its key; and two
    records with the same Date, the same first non-empty of (Amount,
    Debit, Credit) and the same first ten characters of Description
    have the same key. *)
Theorem removeDuplicateTransactions_keeps_first (l : list transaction) :
  let out := removeDuplicateTransactions l in
  (forall t, dedup_key t = claimed_key t) /\
  sublist out l /\
  (forall t, In t l ->
     exists f, List.find (same_claimed_key t) l = Some f /\
               List.filter (same_claimed_key t) out = [f]) /\
  (forall t, In t out -> List.find (same_claimed_key t) l = Some t) /\
  (forall a b,
     first_non_empty [Date a] = first_non_empty [Date b] ->
     first_non_empty [Amount a; Debit a; Credit a]
     = first_non_empty [Amount b; Debit b; Credit b] ->
     String.substring 0 10 (first_non_empty [Description a])
     = String.substring 0 10 (first_non_empty [Description b]) ->
     same_claimed_key a b = true).
Proof.
  simpl. split; [exact dedup_key_claimed|].
  rewrite removeDuplicateTransactions_spec.
  assert (Ef : forall t l', List.find (same_claimed_key t) l'
                            = List.find (same_key t) l').
  { intros t l'. induction l' as [|x l' IH]; [reflexivity|]. simpl.
    rewrite same_key_claimed, IH. reflexivity. }
  assert (Eg : forall t l', List.filter (same_claimed_key t) l'
                            = List.filter (same_key t) l').
  { intros t l'. induction l' as [|x l' IH]; [reflexivity|]. simpl.
    rewrite same_key_claimed, IH. reflexivity. }
  assert (K : forall t, In t l ->
     exists f, List.find (same_key t) l = Some f /\
               List.filter (same_key t) (keep_first_per_key [] l) = [f]).
  { intros t Ht. destruct (find_some_of_In t l Ht) as [f Hf].
    exists f. split; [exact Hf|].
    unfold same_key in *. rewrite keep_first_filter. simpl.
    rewrite Hf. reflexivity. }
  split; [apply keep_first_sublist|].
  split; [intros t Ht; rewrite Ef, Eg; exact (K t Ht)|]. split.
  - intros t Ht. rewrite Ef.
    assert (Hl : In t l).
    { apply list_elem_of_In.
      apply (sublist_subseteq _ _ (keep_first_sublist l [])).
      apply list_elem_of_In, Ht. }
    destruct (K t Hl) as [f [Hf Hflt]]. rewrite Hf. f_equal.
    assert (Hin : In t (List.filter (same_key t) (keep_first_per_key [] l))).
    { apply filter_In. split; [exact Ht|]. unfold same_key.
      apply String.eqb_refl. }
    rewrite Hflt in Hin. destruct Hin as [->|[]]. reflexivity.
  - intros a b H1 H2 H3. unfold same_claimed_key, claimed_key. simpl.
    rewrite H1, H2, H3. apply String.eqb_refl.
Qed.

(* ------------------------------------------------------------------ *)
(** ** Properties of the array sort *)
(* ------------------------------------------------------------------ *)

Section SortFacts.
Context {A : Type}.
Implicit Types (cmp : A -> A -> Z) (l : list A).

Lemma insert_perm cmp x l : Permutation (x :: l) (JSArray.insert cmp x l).
Proof.
  induction l as [|y l IH]; simpl; [reflexivity|].
  destruct (0 <? cmp x y)%Z; [|reflexivity].
  rewrite perm_swap. apply perm_skip, IH.
Qed.

Lemma sort_perm cmp l : Permutation l (JSArray.sort cmp l).
Proof.
  induction l as [|x l IH]; simpl; [reflexivity|].
  rewrite <- insert_perm. apply perm_skip, IH.
Qed.

(** Two comparators with the same sign on the elements of [l] sort it the
    same way. *)
Lemma insert_ext cmp cmp' x l :
  (forall y, In y l -> (0 <? cmp x y)%Z = (0 <? cmp' x y)%Z) ->
  JSArray.insert cmp x l = JSArray.insert cmp' x l.
Proof.
  induction l as [|y l IH]; intros H; simpl; [reflexivity|].
  rewrite <- (H y) by (left; reflexivity).
  destruct (0 <? cmp x y)%Z; [|reflexivity].
  f_equal. apply IH. intros z Hz. apply H. right. exact Hz.
Qed.

Lemma sort_ext cmp cmp' l :
  (forall x y, In x l -> In y l -> (0 <? cmp x y)%Z = (0 <? cmp' x y)%Z) ->
  JSArray.sort cmp l = JSArray.sort cmp' l.
Proof.
  induction l as [|x l IH]; intros H; simpl; [reflexivity|].
  rewrite IH by (intros; apply H; right; assumption).
  apply insert_ext. intros y Hy. apply H; [left; reflexivity|].
  right. eapply Permutation_in; [symmetry; apply sort_perm|exact Hy].
Qed.

(** A list without an adjacent pair out of order is left as it is. *)
Lemma sort_in_order cmp l : JSArray.in_order cmp l = true -> JSArray.sort cmp l = l.
Proof.
  induction l as [|a l IH]; [reflexivity|].
  intros H. cbn [JSArray.sort fold_right]. fold (JSArray.sort cmp l).
  destruct l as [|b l]; [reflexivity|].
  cbn [JSArray.in_order] in H. apply andb_prop in H as [H1 H2].
  rewrite (IH H2). simpl. apply negb_true_iff in H1. rewrite H1. reflexivity.
Qed.

(** The comparator compares a numeric key. *)
Section ByKey.
Variable f : A -> Z.
Let cmpf : A -> A -> Z := fun x y => (f x - f y)%Z.
Let le_f : A -> A -> Prop := fun x y => (f x <= f y)%Z.

Lemma insert_sorted x l :
  StronglySorted le_f l -> StronglySorted le_f (JSArray.insert cmpf x l).
Proof.
  induction 1 as [|y l Hs IH Hy]; simpl.
  - repeat constructor.
  - destruct (0 <? cmpf x y)%Z eqn:E.
    + constructor; [exact IH|].
      eapply Permutation_Forall; [apply insert_perm|].
      constructor; [|exact Hy].
      apply Z.ltb_lt in E. unfold le_f, cmpf in *. lia.
    + apply Z.ltb_ge in E.
      constructor; [constructor; assumption|].
      constructor; [unfold le_f, cmpf in *; lia|].
      eapply List.Forall_impl; [|exact Hy].
      intros z Hz. unfold le_f, cmpf in *. lia.
Qed.

Lemma sort_sorted l : StronglySorted le_f (JSArray.sort cmpf l).
Proof.
  induction l as [|x l IH]; simpl; [constructor|]. apply insert_sorted, IH.
Qed.

Lemma insert_stable k x l :
  List.filter (fun y => f y =? k)%Z (JSArray.insert cmpf x l)
  = List.filter (fun y => f y =? k)%Z (x :: l).
Proof.
  induction l as [|y l IH]; [reflexivity|].
  cbn [JSArray.insert].
  destruct (0 <? cmpf x y)%Z eqn:E; [|reflexivity].
  apply Z.ltb_lt in E. unfold cmpf in E.
  cbn [List.filter] in *. rewrite IH.
  destruct (f x =? k)%Z eqn:Ex, (f y =? k)%Z eqn:Ey; try reflexivity.
  apply Z.eqb_eq in Ex, Ey. lia.
Qed.

(** Stability: records with the same key keep their input order. *)
Lemma sort_stable k l :
  List.filter (fun y => f y =? k)%Z (JSArray.sort cmpf l)
  = List.filter (fun y => f y =? k)%Z l.
Proof.
  induction l as [|x l IH]; [reflexivity|].
  cbn [JSArray.sort fold_right]. fold (JSArray.sort cmpf l).
  rewrite insert_stable. cbn [List.filter]. rewrite IH. reflexivity.
Qed.

Lemma filter_key_nil l :
  (forall k, List.filter (fun y => f y =? k)%Z l = []) -> l = [].
Proof.
  destruct l as [|y l]; [reflexivity|].
  intros H. specialize (H (f y)). simpl in H. rewrite Z.eqb_refl in H.
  discriminate.
Qed.

(** A consistent comparator leaves one possible result: two sorted lists
    that hold, key by key, the same records in the same order are equal.
    So any sort that is stable agrees with [JSArray.sort] here. *)
Lemma stable_sorted_unique l1 : forall l2,
  StronglySorted le_f l1 -> StronglySorted le_f l2 ->
  (forall k, List.filter (fun y => f y =? k)%Z l1
             = List.filter (fun y => f y =? k)%Z l2) ->
  l1 = l2.
Proof.
  induction l1 as [|x t1 IH]; intros l2 S1 S2 H.
  - symmetry. apply filter_key_nil. intros k. rewrite <- H. reflexivity.
  - destruct l2 as [|y t2].
    { apply filter_key_nil. intros k. rewrite H. reflexivity. }
    apply StronglySorted_inv in S1 as [S1 F1].
    apply StronglySorted_inv in S2 as [S2 F2].
    assert (Hxy : f x = f y).
    { assert (Hx : In x (y :: t2)).
      { pose proof (H (f x)) as Hk. cbn [List.filter] in Hk.
        rewrite Z.eqb_refl in Hk.
        assert (Hin : In x (List.filter (fun z => f z =? f x)%Z (y :: t2))).
        { cbn [List.filter]. rewrite <- Hk. left. reflexivity. }
        apply filter_In in Hin. tauto. }
      assert (Hy : In y (x :: t1)).
      { pose proof (H (f y)) as Hk. cbn [List.filter] in Hk.
        rewrite (Z.eqb_refl (f y)) in Hk.
        assert (Hin : In y (List.filter (fun z => f z =? f y)%Z (x :: t1))).
        { cbn [List.filter]. rewrite Hk. left. reflexivity. }
        apply filter_In in Hin. tauto. }
      rewrite List.Forall_forall in F1, F2. unfold le_f in *.
      destruct Hx as [->|Hx]; [reflexivity|].
      destruct Hy as [->|Hy]; [reflexivity|].
      specialize (F1 _ Hy). specialize (F2 _ Hx). lia. }
    assert (Hhd : x = y).
    { specialize (H (f x)). cbn [List.filter] in H.
      rewrite Z.eqb_refl, <- Hxy, Z.eqb_refl in H. congruence. }
    subst y. f_equal. apply IH; try assumption.
    intros k. specialize (H k). cbn [List.filter] in H.
    destruct (f x =? k)%Z; congruence.
Qed.

End ByKey.
End SortFacts.

(* ------------------------------------------------------------------ *)
(** ** Properties of sorting by date *)
(* ------------------------------------------------------------------ *)

Section SortByDate.
(** The engine's date constructor, as in [parseDate]. *)
Variable D : string -> option Z.

Lemma parses_truthy (t : transaction) : parses D t = true -> truthy (Date t) = true.
Proof.
  unfold parses, parseDate. destruct (truthy (Date t)); simpl; congruence.
Qed.

(** A pair the comparator cannot order compares equal. *)
Lemma compare_unparsed (a b : transaction) :
  parses D a = false \/ parses D b = false -> compareByDate D a b = 0%Z.
Proof.
  unfold parses, compareByDate.
  destruct (negb (truthy (Date a)) || negb (truthy (Date b))); [reflexivity|].
  destruct (parseDate D (Date a)), (parseDate D (Date b));
    intros [H|H]; congruence.
Qed.

Lemma compare_parsed (a b : transaction) :
  parses D a = true -> parses D b = true ->
  compareByDate D a b = (time_of D a - time_of D b)%Z.
Proof.
  intros Ha Hb. unfold compareByDate.
  rewrite (parses_truthy a Ha), (parses_truthy b Hb). simpl.
  unfold parses, time_of in *.
  destruct (parseDate D (Date a)), (parseDate D (Date b)); congruence.
Qed.

Lemma in_order_zero {A} (l : list A) : JSArray.in_order (fun _ _ => 0%Z) l = true.
Proof.
  induction l as [|a [|b l] IH]; try reflexivity. simpl in *. exact IH.
Qed.

(** C2, as the program has it.  A pair in which a date is missing or
    fails every parse compares equal; the output is a permutation of the
    input; when every date parses the output is non-decreasing by parsed
    date and records with equal dates keep their input order; when no
    date parses the output is the input.  Nothing is stated for lists
    that mix parsed and unparsed dates. *)
Theorem sortTransactionsByDate_orders_parsed (l : list transaction) :
  (forall a b, parses D a = false \/ parses D b = false ->
     compareByDate D a b = 0%Z) /\
  Permutation l (sortTransactionsByDate D l) /\
  (forallb (parses D) l = true ->
     StronglySorted (fun a b => (time_of D a <= time_of D b)%Z)
                    (sortTransactionsByDate D l) /\
     forall k, List.filter (fun t => time_of D t =? k)%Z (sortTransactionsByDate D l)
               = List.filter (fun t => time_of D t =? k)%Z l) /\
  (forallb (fun t => negb (parses D t)) l = true ->
     sortTransactionsByDate D l = l).
Proof.
  split; [exact compare_unparsed|].
  split; [apply sort_perm|]. split.
  - intros H. rewrite forallb_forall in H.
    assert (E : sortTransactionsByDate D l
                = JSArray.sort (fun x y => (time_of D x - time_of D y)%Z) l).
    { apply sort_ext. intros x y Hx Hy.
      rewrite compare_parsed by (apply H; assumption). reflexivity. }
    rewrite E. split; [apply sort_sorted|]. intros k. apply sort_stable.
  - intros H. rewrite forallb_forall in H.
    assert (E : sortTransactionsByDate D l = JSArray.sort (fun _ _ => 0%Z) l).
    { apply sort_ext. intros x y Hx Hy.
      rewrite compare_unparsed; [reflexivity|].
      left. apply negb_true_iff, H, Hx. }
    rewrite E. apply sort_in_order, in_order_zero.
Qed.

Lemma keep_first_unique (l : list transaction) : forall seen,
  unique_keys l = true ->
  forallb (fun t => negb (existsb (String.eqb (dedup_key t)) seen)) l = true ->
  keep_first_per_key seen l = l.
Proof.
  induction l as [|t l IH]; intros seen U F; [reflexivity|].
  cbn [unique_keys forallb keep_first_per_key] in *.
  apply andb_prop in U as [U1 U2]. apply andb_prop in F as [F1 F2].
  apply negb_true_iff in F1. rewrite F1. f_equal.
  apply IH; [exact U2|].
  apply forallb_forall. intros x Hx.
  rewrite forallb_forall in F2. specialize (F2 x Hx).
  apply negb_true_iff in F2. apply negb_true_iff.
  rewrite existsb_app, F2. simpl. rewrite orb_false_r.
  apply negb_true_iff in U1.
  destruct (String.eqb (dedup_key x) (dedup_key t)) eqn:E; [|reflexivity].
  exfalso. apply not_true_iff_false in U1. apply U1.
  apply existsb_exists. exists x. split; [exact Hx|].
  unfold same_key. rewrite String.eqb_sym. exact E.
Qed.

Lemma removeDuplicateTransactions_unique (l : list transaction) :
  unique_keys l = true -> removeDuplicateTransactions l = l.
Proof.
  intros U. rewrite removeDuplicateTransactions_spec.
  apply keep_first_unique; [exact U|].
  apply forallb_forall. reflexivity.
Qed.

(** C4.  On a list whose keys are pairwise distinct and in which the
    comparator finds no adjacent pair out of order, the Post-Processor
    (deduplicate, then sort) returns the list itself: no record is
    removed and none is moved. *)
Theorem postProcess_fixes_clean_input (l : list transaction) :
  unique_keys l = true -> date_sorted D l = true ->
  postProcess D l = l.
Proof.
  intros U S. unfold postProcess.
  rewrite (removeDuplicateTransactions_unique l U).
  apply sort_in_order, S.
Qed.

End SortByDate.

(** The three records of [mixed_list] come out in the input order, so the
    March record still precedes the January one. *)
Lemma sort_mixed_list :
  sortTransactionsByDate IsoDate.Date_parse mixed_list = mixed_list.
Proof. vm_compute. reflexivity. Qed.

(** C2, counterexample.  On [mixed_list] the records whose date parses
    are not in non-decreasing order after the sort. *)
Lemma sort_mixed_list_not_by_date :
  ~ nondecreasing_among_parsed IsoDate.Date_parse
      (sortTransactionsByDate IsoDate.Date_parse mixed_list).
Proof.
  rewrite sort_mixed_list. unfold nondecreasing_among_parsed.
  assert (E : List.filter (parses IsoDate.Date_parse) mixed_list
              = [dated "01/03/2024" "rent"; dated "01/01/2024" "salary"])
    by (vm_compute; reflexivity).
  rewrite E. intros H.
  apply StronglySorted_inv in H as [_ H].
  apply Forall_inv in H. vm_compute in H. apply H. reflexivity.
Qed.

(** Witness of [sortTransactionsByDate_orders_parsed]: three dated records. *)
Lemma sortTransactionsByDate_orders_parsed_witness :
  let l := [dated "15/04/2024" "a"; dated "14/04/2024" "b";
            dated "15/04/2024" "c"] in
  sortTransactionsByDate IsoDate.Date_parse l
    = [dated "14/04/2024" "b"; dated "15/04/2024" "a"; dated "15/04/2024" "c"]
  /\ StronglySorted
       (fun a b => (time_of IsoDate.Date_parse a <= time_of IsoDate.Date_parse b)%Z)
       (sortTransactionsByDate IsoDate.Date_parse l).
Proof.
  split; [vm_compute; reflexivity|].
  apply (sortTransactionsByDate_orders_parsed IsoDate.Date_parse).
  vm_compute. reflexivity.
Defined.

(** Witness of [postProcess_fixes_clean_input]. *)
Lemma postProcess_fixes_clean_input_witness :
  let l := [dated "14/04/2024" "b"; dated "15/04/2024" "a";
            undated "carried forward"; dated "01/01/2024" "c"] in
  unique_keys l = true /\ date_sorted IsoDate.Date_parse l = true /\
  postProcess IsoDate.Date_parse l = l.
Proof.
  split; [vm_compute; reflexivity|]. split; [vm_compute; reflexivity|].
  apply (postProcess_fixes_clean_input IsoDate.Date_parse);
    vm_compute; reflexivity.
Defined.

(* ------------------------------------------------------------------ *)
(** ** Soundness of the matcher *)
(* ------------------------------------------------------------------ *)

Section MatcherSound.

Lemma consumes_nil st : consumes st st [].
Proof. split; [reflexivity|simpl; lia]. Qed.

Lemma consumes_app st1 st2 st3 w1 w2 :
  consumes st1 st2 w1 -> consumes st2 st3 w2 -> consumes st1 st3 (w1 ++ w2).
Proof.
  intros [H1 P1] [H2 P2]. split.
  - rewrite H1, H2, app_assoc. reflexivity.
  - rewrite P2, P1, length_app. lia.
Qed.

Variable step : mstate -> list mstate.
Variable L : list ascii -> Prop.
Hypothesis step_sound :
  forall st st', In st' (step st) -> exists w, consumes st st' w /\ L w.

Lemma star_loop_sound fuel : forall st st',
  In st' (star_loop step fuel st) ->
  exists ws, consumes st st' (concat ws) /\ Forall L ws.
Proof.
  induction fuel as [|fuel IH]; intros st st' H; simpl in H.
  - destruct H as [<-|[]]. exists []. split; [apply consumes_nil|constructor].
  - apply in_app_iff in H as [H|[<-|[]]].
    + apply in_flat_map in H as [mid [Hmid H]].
      destruct (length (rest mid) <? length (rest st))%nat; [|destruct H].
      destruct (step_sound _ _ Hmid) as [w [Hw Lw]].
      destruct (IH _ _ H) as [ws [Hws Lws]].
      exists (w :: ws). split; [|constructor; assumption].
      simpl. eapply consumes_app; eassumption.
    + exists []. split; [apply consumes_nil|constructor].
Qed.

Lemma rep_loop_sound hi : forall lo st st',
  In st' (rep_loop step lo hi st) ->
  exists ws, consumes st st' (concat ws) /\ Forall L ws /\ (length ws <= hi)%nat.
Proof.
  induction hi as [|hi IH]; intros lo st st' H; simpl in H.
  - destruct H as [<-|[]]. exists [].
    repeat split; [simpl; lia|constructor|simpl; lia].
  - destruct lo as [|lo].
    + apply in_app_iff in H as [H|[<-|[]]].
      * apply in_flat_map in H as [mid [Hmid H]].
        destruct (length (rest mid) <? length (rest st))%nat; [|destruct H].
        destruct (step_sound _ _ Hmid) as [w [Hw Lw]].
        destruct (IH _ _ _ H) as [ws [Hws [Lws Hlen]]].
        exists (w :: ws). split; [|split; [constructor; assumption|simpl; lia]].
        simpl. eapply consumes_app; eassumption.
      * exists []. repeat split; [simpl; lia|constructor|simpl; lia].
    + apply in_flat_map in H as [mid [Hmid H]].
      destruct (step_sound _ _ Hmid) as [w [Hw Lw]].
      destruct (IH _ _ _ H) as [ws [Hws [Lws Hlen]]].
      exists (w :: ws). split; [|split; [constructor; assumption|simpl; lia]].
      simpl. eapply consumes_app; eassumption.
Qed.

End MatcherSound.

(** Whatever [run] accepts is a word of the pattern's language, read off
    the subject from the start position. *)
Lemma run_sound (r : regex) : forall st st',
  In st' (run r st) -> exists w, consumes st st' w /\ lang r w.
Proof.
  induction r as [p|a IHa b IHb|a IHa b IHb|a IHa|lo hi a IHa|i a IHa| | |];
    intros st st' H; cbn [run] in H.
  - destruct (rest st) as [|c tl] eqn:E; [destruct H|].
    destruct (p c) eqn:Ep; [|destruct H].
    unfold advance in H. rewrite E in H. destruct H as [<-|[]].
    exists [c]. split; [split; simpl; [exact E|lia]|].
    exists c. split; [reflexivity|exact Ep].
  - apply in_flat_map in H as [mid [Hmid H]].
    destruct (IHa _ _ Hmid) as [w1 [H1 L1]].
    destruct (IHb _ _ H) as [w2 [H2 L2]].
    exists (w1 ++ w2). split; [eapply consumes_app; eassumption|].
    exists w1, w2. auto.
  - apply in_app_iff in H as [H|H].
    + destruct (IHa _ _ H) as [w [Hw Lw]]. exists w. simpl. auto.
    + destruct (IHb _ _ H) as [w [Hw Lw]]. exists w. simpl. auto.
  - destruct (star_loop_sound (run a) (lang a) IHa _ _ _ H) as [ws [Hws Lws]].
    exists (concat ws). split; [exact Hws|]. exists ws. auto.
  - destruct (rep_loop_sound (run a) (lang a) IHa _ _ _ _ H) as [ws [Hws [Lws Hl]]].
    exists (concat ws). split; [exact Hws|]. exists ws. auto.
  - apply in_map_iff in H as [mid [<- Hmid]].
    destruct (IHa _ _ Hmid) as [w [[Hw Pw] Lw]].
    exists w. split; [split; simpl; assumption|exact Lw].
  - destruct (pos st =? 0)%nat; [|destruct H]. destruct H as [<-|[]].
    exists []. split; [apply consumes_nil|reflexivity].
  - destruct (rest st); [|destruct H]. destruct H as [<-|[]].
    exists []. split; [apply consumes_nil|reflexivity].
  - destruct (xorb _ _); [|destruct H]. destruct H as [<-|[]].
    exists []. split; [apply consumes_nil|reflexivity].
Qed.

(** *** From offsets to text *)

Lemma chars_str_drop (k : nat) : forall s, chars (str_drop k s) = skipn k (chars s).
Proof.
  induction k as [|k IH]; intros [|c s]; simpl; try reflexivity. apply IH.
Qed.

Lemma chars_str_take (k : nat) : forall s, chars (str_take k s) = firstn k (chars s).
Proof.
  induction k as [|k IH]; intros [|c s]; simpl; try reflexivity.
  unfold chars in *. simpl. rewrite IH. reflexivity.
Qed.

Lemma chars_length (s : string) : length (chars s) = String.length s.
Proof. induction s; simpl; [reflexivity|]. unfold chars in *. simpl. lia. Qed.

(** The match that [scan] finds is a word of the language, and it is the
    text between its two offsets. *)
Lemma scan_sound (r : regex) (l : list ascii) : forall p pv m st',
  scan r p pv l = Some (m, st') ->
  exists k w, m_start m = (p + k)%nat /\ m_end m = (p + k + length w)%nat /\
              pos st' = m_end m /\
              skipn k l = w ++ rest st' /\ lang r w.
Proof.
  induction l as [|c tl IH]; intros p pv m st' H; simpl in H.
  - destruct (run r (MState p pv [] [])) as [|st1 sts] eqn:E; [discriminate|].
    injection H as <- <-.
    assert (Hin : In st1 (run r (MState p pv [] []))).
    { rewrite E. left. reflexivity. }
    destruct (run_sound r _ _ Hin) as [w [[Hw Pw] Lw]].
    exists 0%nat, w. simpl in *. repeat split; try lia; assumption.
  - destruct (run r (MState p pv (c :: tl) [])) as [|st1 sts] eqn:E.
    + destruct (IH _ _ _ _ H) as [k [w [H1 [H2 [H3 [H4 H5]]]]]].
      exists (S k), w. simpl. repeat split; try lia; assumption.
    + injection H as <- <-.
      assert (Hin : In st1 (run r (MState p pv (c :: tl) []))).
      { rewrite E. left. reflexivity. }
      destruct (run_sound r _ _ Hin) as [w [[Hw Pw] Lw]].
      exists 0%nat, w. simpl in *. repeat split; try lia; assumption.
Qed.

Lemma matchAll_loop_sound (r : regex) (s : string) (fuel : nat) :
  forall p pv l m,
  l = skipn p (chars s) ->
  In m (matchAll_loop r fuel p pv l) ->
  lang r (chars (matched s m)).
Proof.
  induction fuel as [|fuel IH]; intros p pv l m Hl H; simpl in H; [destruct H|].
  destruct (scan r p pv l) as [[m1 st']|] eqn:E; [|destruct H].
  destruct (scan_sound r l p pv m1 st' E) as [k [w [H1 [H2 [H3 [H4 H5]]]]]].
  assert (Hrest : skipn (p + k) (chars s) = w ++ rest st').
  { rewrite <- H4, Hl, skipn_skipn. f_equal. lia. }
  assert (Hrest' : rest st' = skipn (pos st') (chars s)).
  { rewrite H3, H2.
    replace (p + k + length w)%nat with (length w + (p + k))%nat by lia.
    rewrite <- skipn_skipn, Hrest, skipn_app, Nat.sub_diag, skipn_all.
    reflexivity. }
  destruct H as [<-|H].
  - unfold matched, slice. rewrite chars_str_take, chars_str_drop, H1, H2, Hrest.
    replace (p + k + length w - (p + k))%nat with (length w) by lia.
    rewrite firstn_app, Nat.sub_diag, firstn_all. simpl.
    rewrite app_nil_r. exact H5.
  - destruct (m_start m1 <? m_end m1)%nat.
    + eapply IH; [|exact H]. exact Hrest'.
    + destruct (rest st') as [|c tl] eqn:Er; [destruct H|].
      eapply IH; [|exact H].
      replace (S (pos st')) with (1 + pos st')%nat by lia.
      rewrite <- skipn_skipn, <- Hrest'. reflexivity.
Qed.

(** Every text that [matchAll] returns is a word of the pattern. *)
Lemma matchAll_sound (r : regex) (s m : string) :
  In m (matchAll r s) -> lang r (chars m).
Proof.
  unfold matchAll. intros H. apply in_map_iff in H as [mm [<- H]].
  eapply matchAll_loop_sound; [|exact H]. reflexivity.
Qed.

(* ------------------------------------------------------------------ *)
(** ** The sign of the extracted amounts *)
(* ------------------------------------------------------------------ *)

Lemma count_char_chars (c : ascii) (s : string) :
  count_char c s = length (List.filter (eqc c) (chars s)).
Proof.
  induction s as [|x s IH]; [reflexivity|].
  unfold chars in *. simpl. rewrite IH. destruct (eqc c x); reflexivity.
Qed.

Lemma includes_count (c : ascii) (s : string) :
  includes s (String c EmptyString) = negb (count_char c s =? 0)%nat.
Proof.
  induction s as [|x s IH]; [reflexivity|].
  simpl. rewrite IH. destruct (eqc c x); simpl; reflexivity.
Qed.

Lemma count_trimStart (c : ascii) (s : string) :
  is_space c = false -> count_char c (trimStart s) = count_char c s.
Proof.
  intros Hc. induction s as [|x s IH]; [reflexivity|]. simpl.
  destruct (is_space x) eqn:Ex; [|reflexivity].
  rewrite IH. destruct (eqc c x) eqn:E; [|reflexivity].
  apply Ascii.eqb_eq in E. congruence.
Qed.

Lemma count_trimEnd (c : ascii) (s : string) :
  is_space c = false -> count_char c (trimEnd s) = count_char c s.
Proof.
  intros Hc. induction s as [|x s IH]; [reflexivity|]. simpl.
  destruct (trimEnd s) as [|y t] eqn:Et.
  - rewrite <- IH. destruct (is_space x) eqn:Ex; [|reflexivity]. simpl.
    destruct (eqc c x) eqn:E; [|reflexivity].
    apply Ascii.eqb_eq in E. congruence.
  - rewrite <- IH. reflexivity.
Qed.

(** [trim] removes white space only, so it keeps every sign. *)
Lemma count_trim (c : ascii) (s : string) :
  is_space c = false -> count_char c (trim s) = count_char c s.
Proof.
  intros Hc. unfold trim. rewrite count_trimEnd, count_trimStart; auto.
Qed.

(** Replacing the one-character text [c] by nothing removes one
    occurrence of [c], if there is one. *)
Lemma count_replace (c : ascii) (s : string) :
  count_char c (replace s (String c EmptyString) EmptyString)
  = pred (count_char c s).
Proof.
  induction s as [|x s IH]; [reflexivity|]. simpl.
  destruct (eqc c x) eqn:E; simpl.
  - destruct s; reflexivity.
  - rewrite E. exact IH.
Qed.

Lemma chr_words (p : ascii -> bool) (ws : list (list ascii)) :
  Forall (lang (Chr p)) ws ->
  Forall (fun c => p c = true) (concat ws) /\ length (concat ws) = length ws.
Proof.
  induction 1 as [|w ws [c [-> Hc]] _ [IH1 IH2]]; simpl.
  - split; [constructor|reflexivity].
  - split; [constructor; assumption|congruence].
Qed.

Lemma no_minus (p : ascii -> bool) (w : list ascii) :
  p minus = false -> Forall (fun c => p c = true) w ->
  length (List.filter (eqc minus) w) = 0%nat.
Proof.
  intros Hp. induction 1 as [|c w Hc _ IH]; [reflexivity|].
  cbn [List.filter]. destruct (eqc minus c) eqn:E; [|exact IH].
  apply Ascii.eqb_eq in E. congruence.
Qed.

(** A word of the amount pattern holds at most one minus sign. *)
Lemma amount_one_minus (w : list ascii) :
  lang amountPattern w -> (length (List.filter (eqc minus) w) <= 1)%nat.
Proof.
  intros (w1 & r1 & -> & (ws1 & -> & F1 & _) & H).
  destruct H as (w2 & r2 & -> & (ws2 & -> & F2) & H).
  destruct H as (w3 & r3 & -> & (ws3 & -> & F3 & L3) & H).
  destruct H as (w4 & r4 & -> & (w4a & w4b & -> & (c4 & -> & H4) & (ws4 & -> & F4)) & H).
  destruct H as (w5 & w6 & -> & (c5 & -> & H5) & (ws6 & -> & F6 & _)).
  apply chr_words in F1 as [F1 _], F2 as [F2 _], F3 as [_ E3],
                     F4 as [F4 _], F6 as [F6 _].
  rewrite !List.filter_app, !length_app.
  rewrite (no_minus _ _ eq_refl F1), (no_minus _ _ eq_refl F2),
          (no_minus _ _ eq_refl F4), (no_minus _ _ eq_refl F6).
  assert (E4 : length (List.filter (eqc minus) [c4]) = 0%nat).
  { apply (no_minus (fun c => is_digit c || eqc c ",")); [reflexivity|].
    constructor; [exact H4|constructor]. }
  assert (E5 : length (List.filter (eqc minus) [c5]) = 0%nat).
  { apply (no_minus (eqc ".")); [reflexivity|].
    constructor; [exact H5|constructor]. }
  rewrite E4, E5.
  pose proof (filter_length_le (eqc minus) (concat ws3)). lia.
Qed.

Lemma amount_match_one_minus (s m : string) :
  In m (matchAll amountPattern s) -> (count_char minus m <= 1)%nat.
Proof.
  intros H. rewrite count_char_chars.
  apply amount_one_minus, (matchAll_sound _ s), H.
Qed.

Lemma penultimate_In {A} (l : list A) (x : A) : penultimate l = Some x -> In x l.
Proof.
  unfold penultimate. intros H. apply in_rev.
  destruct (rev l) as [|a [|b t]]; try discriminate.
  injection H as <-. right. left. reflexivity.
Qed.

Lemma penultimate_final {A} (l : list A) (x : A) :
  penultimate l = Some x -> exists y, final l = Some y.
Proof.
  unfold penultimate, final. destruct (rev l) as [|a [|b t]]; try discriminate.
  eauto.
Qed.

(** The amount fields of the extracted record, read off the matches. *)
Lemma extract_amount_fields (line : string) :
  let line' := line_without_date line in
  let ms := matchAll amountPattern line' in
  let t := extractTransactionFromLine line in
  Balance t = option_map trim (final ms) /\
  forall m, penultimate ms = Some m ->
    if includes (trim m) "-" || includes (toLowerCase line') "debit"
    then Debit t = Some (replace (trim m) "-" "") /\ Credit t = None
    else Credit t = Some (trim m) /\ Debit t = None.
Proof.
  unfold extractTransactionFromLine, line_without_date.
  destruct (match0 datePattern line) as [d|]; cbv zeta;
    (match goal with
     | |- context [matchAll amountPattern ?x] =>
         generalize x; intros line'
     end;
     split;
     [ destruct (final (matchAll amountPattern line'));
       [destruct (penultimate (matchAll amountPattern line')) as [m|];
        [destruct (includes (trim m) "-" || includes (toLowerCase line') "debit")|]|];
       reflexivity
     | intros m Hm;
       destruct (penultimate_final _ _ Hm) as [y Hy];
       rewrite Hy, Hm;
       destruct (includes (trim m) "-" || includes (toLowerCase line') "debit");
       split; reflexivity ]).
Qed.

(** C10.  When the line (with its date removed) has at least two amount
    matches and the second-to-last contains a minus sign, Debit is that
    match, trimmed, with its minus sign removed, and no minus sign is
    left in it; no Credit is emitted; Balance is the last match, trimmed,
    with as many minus signs as the match had.  When the second-to-last
    match has no minus sign and the line does not contain "debit", Credit
    is that match, trimmed, unchanged. *)
Theorem extract_debit_minus_stripped (line m b : string) :
  let line' := line_without_date line in
  let ms := matchAll amountPattern line' in
  let t := extractTransactionFromLine line in
  penultimate ms = Some m -> final ms = Some b ->
  (includes m "-" = true ->
     Debit t = Some (replace (trim m) "-" "") /\
     includes (replace (trim m) "-" "") "-" = false /\
     Credit t = None) /\
  (Balance t = Some (trim b) /\
   count_char minus (trim b) = count_char minus b) /\
  (includes m "-" = false -> includes (toLowerCase line') "debit" = false ->
     Credit t = Some (trim m) /\ Debit t = None).
Proof.
  intros line' ms t Hm Hb.
  destruct (extract_amount_fields line) as [HB HD].
  fold line' ms t in HB, HD. specialize (HD m Hm).
  assert (Htrim : includes (trim m) "-" = includes m "-").
  { rewrite !(includes_count minus), count_trim by reflexivity. reflexivity. }
  rewrite Htrim in HD.
  split; [|split].
  - intros Hminus. rewrite Hminus in HD. simpl in HD. destruct HD as [HD HC].
    split; [exact HD|]. split; [|exact HC].
    rewrite (includes_count minus), (count_replace minus), count_trim by reflexivity.
    pose proof (amount_match_one_minus line' m (penultimate_In _ _ Hm)) as H1.
    destruct (count_char minus m) as [|[|n]]; [reflexivity|reflexivity|lia].
  - rewrite HB, Hb. split; [reflexivity|]. apply count_trim. reflexivity.
  - intros H1 H2. rewrite H1, H2 in HD. exact HD.
Qed.

(** Witness of [extract_debit_minus_stripped]: a dashed amount before the
    balance. *)
Lemma extract_debit_minus_stripped_witness :
  let line := "16/04/2024 POS PURCHASE $ -1,250.00 -84,790.65" in
  let t := extractTransactionFromLine line in
  matchAll amountPattern (line_without_date line)
    = ["$ -1,250.00"; " -84,790.65"] /\
  Debit t = Some "$ 1,250.00" /\ Balance t = Some "-84,790.65" /\
  (Debit t = Some (replace (trim "$ -1,250.00") "-" "") /\
   includes (replace (trim "$ -1,250.00") "-" "") "-" = false /\
   Credit t = None).
Proof.
  split; [vm_compute; reflexivity|]. split; [vm_compute; reflexivity|].
  split; [vm_compute; reflexivity|].
  apply (extract_debit_minus_stripped
           "16/04/2024 POS PURCHASE $ -1,250.00 -84,790.65"
           "$ -1,250.00" " -84,790.65");
    vm_compute; reflexivity.
Defined.

(** Witness of [removeDuplicateTransactions_keeps_first]: of five
    records the third repeats the key of the first (same date, same
    first non-empty amount, same first ten characters of the
    description) and is dropped; the second differs in the amount, the
    fourth within the first ten characters of the description, the
    fifth in the date, and they are kept. *)
Lemma removeDuplicateTransactions_keeps_first_witness :
  removeDuplicateTransactions [dup_a; dup_b; dup_c; dup_d; dup_e]
  = [dup_a; dup_b; dup_d; dup_e] /\
  claimed_key dup_c = "15/04/2024-500.00-ACH DEBIT:" /\
  exists f,
    List.find (same_claimed_key dup_c) [dup_a; dup_b; dup_c; dup_d; dup_e]
    = Some f /\
    List.filter (same_claimed_key dup_c)
      (removeDuplicateTransactions [dup_a; dup_b; dup_c; dup_d; dup_e]) = [f].
Proof.
  split; [vm_compute; reflexivity|]. split; [vm_compute; reflexivity|].
  apply (removeDuplicateTransactions_keeps_first
           [dup_a; dup_b; dup_c; dup_d; dup_e]).
  simpl. right. right. left. reflexivity.
Defined.

(* ------------------------------------------------------------------ *)
(** ** Properties of the Line Parser *)
(* ------------------------------------------------------------------ *)

Section LineParser.
Variable extract : string -> result transaction.
Variable pageNum : nat.

(** While the extractor returns, the loop appends the records of the
    qualifying lines in order. *)
Lemma parse_lines_returns (lines : list string) : forall acc,
  existsb (fun line => qualifies line && throws extract line) lines = false ->
  parse_lines extract pageNum lines acc
  = Ok (acc ++ flat_map (line_records extract pageNum)
                        (List.filter qualifies lines)).
Proof.
  induction lines as [|line lines IH]; intros acc H; simpl.
  - rewrite app_nil_r. reflexivity.
  - simpl in H. apply orb_false_elim in H as [H1 H2].
    unfold qualifies in *.
    destruct (includes line "PAGE BREAK" || (String.length (trim line) =? 0)%nat);
      simpl in *; [apply IH, H2|].
    destruct (test datePattern line && test amountPattern line);
      simpl in *; [|apply IH, H2].
    unfold line_records, throws in *.
    destruct (extract line) as [t|e]; [|discriminate].
    destruct (0 <? key_count t)%nat.
    + rewrite IH by exact H2. simpl. rewrite <- app_assoc. reflexivity.
    + apply IH, H2.
Qed.

End LineParser.

Lemma key_count_extract (line : string) :
  (0 <? key_count (extractTransactionFromLine line))%nat = true.
Proof.
  apply Nat.ltb_lt. unfold extractTransactionFromLine.
  destruct (match0 datePattern line); cbv zeta;
    match goal with |- context [final ?x] => destruct (final x) end;
    unfold key_count, set_Description; cbn [Description has_field]; lia.
Qed.

(** With the program's own extractor nothing throws: each qualifying line
    gives exactly one record, tagged with the page number, in line order;
    the other lines give none. *)
Lemma extractTableDataFromText_lines (text : string) (pageNum : nat) :
  extractTableDataFromText text pageNum
  = map (fun line => set_Page pageNum (extractTransactionFromLine line))
        (List.filter qualifies (text_lines text)).
Proof.
  unfold extractTableDataFromText, extractTableDataFromText_with.
  rewrite parse_lines_returns.
  - simpl. induction (List.filter qualifies (text_lines text)) as [|l ls IH];
      [reflexivity|].
    simpl. unfold line_records at 1. rewrite key_count_extract. simpl.
    f_equal. exact IH.
  - induction (text_lines text) as [|l ls IH]; [reflexivity|].
    simpl. rewrite IH. unfold throws. rewrite andb_false_r. reflexivity.
Qed.

(** No line makes the program's extractor throw. *)
Lemma no_line_throws (lines : list string) :
  existsb (fun line => qualifies line
                       && throws (fun line => Ok (extractTransactionFromLine line))
                                 line) lines = false.
Proof.
  induction lines as [|l ls IH]; [reflexivity|].
  simpl. rewrite IH. unfold throws. rewrite andb_false_r. reflexivity.
Qed.

Lemma line_records_map (pageNum : nat) (lines : list string) :
  flat_map (line_records (fun line => Ok (extractTransactionFromLine line))
                         pageNum) lines
  = map (fun line => set_Page pageNum (extractTransactionFromLine line)) lines.
Proof.
  induction lines as [|l ls IH]; [reflexivity|].
  cbn [flat_map map]. unfold line_records at 1.
  rewrite key_count_extract. cbn [app]. f_equal. exact IH.
Qed.

Lemma filter_map_flat_map {A B} (p : A -> bool) (f : A -> B) (l : list A) :
  map f (List.filter p l) = flat_map (fun x => if p x then [f x] else []) l.
Proof.
  induction l as [|x l IH]; [reflexivity|].
  cbn [List.filter flat_map]. destruct (p x); cbn [map app]; rewrite IH;
    reflexivity.
Qed.

(** C5.  The Line Parser returns a list for every text: no line makes the
    single-line extractor throw, so the loop over the lines ends
    normally and the [catch] around it is never entered.  A line that
    does not qualify is skipped alone: the output is, line by line and
    in order, the record of each qualifying line and nothing for the
    others, so every qualifying line has its record in the output
    whatever the other lines of the page are. *)
Theorem extractTableDataFromText_never_aborts (text : string) (pageNum : nat) :
  let record line := set_Page pageNum (extractTransactionFromLine line) in
  parse_lines (fun line => Ok (extractTransactionFromLine line)) pageNum
              (text_lines text) []
  = Ok (extractTableDataFromText text pageNum) /\
  extractTableDataFromText text pageNum
  = flat_map (fun line => if qualifies line then [record line] else [])
             (text_lines text) /\
  (forall line, In line (text_lines text) -> qualifies line = true ->
     In (record line) (extractTableDataFromText text pageNum)).
Proof.
  intros record.
  assert (E : extractTableDataFromText text pageNum
              = flat_map (fun line => if qualifies line then [record line] else [])
                         (text_lines text)).
  { rewrite extractTableDataFromText_lines. apply filter_map_flat_map. }
  split; [|split; [exact E|]].
  - rewrite (parse_lines_returns _ _ _ [] (no_line_throws _)).
    f_equal. rewrite extractTableDataFromText_lines. cbn [app].
    apply line_records_map.
  - intros line Hl Hq. rewrite E. apply in_flat_map. exists line.
    split; [exact Hl|]. rewrite Hq. left. reflexivity.
Qed.

(* ------------------------------------------------------------------ *)
(** ** Properties of manual entry *)
(* ------------------------------------------------------------------ *)

(** C9, as the program has it.  The sample text is not JSON, so it is
    read as CSV, and the header-driven mapping gives one row: Date
    "14/04/2024", the full Description, Debit "", Credit "50000.00",
    Balance "86540.65". *)
Theorem handleSubmit_csv_sample (JSON_parse_value : string -> option json) :
  handleSubmit JSON_parse_value csv_sample
  = DataSubmit (FromCsv [csv_row_built]).
Proof.
  unfold handleSubmit, JSON_parse.
  replace (json_can_start csv_sample) with false by (vm_compute; reflexivity).
  vm_compute. reflexivity.
Qed.

(** C9, counterexample.  The row built from the sample does not have an
    empty Credit. *)
Lemma handleSubmit_csv_sample_credit_not_empty :
  handleSubmit (fun _ => None) csv_sample
  <> DataSubmit (FromCsv [csv_row_empty_credit]).
Proof.
  intros H.
  assert (E : handleSubmit (fun _ => None) csv_sample
              = DataSubmit (FromCsv [csv_row_built]))
    by (vm_compute; reflexivity).
  rewrite E in H.
  apply (f_equal (fun o => match o with
                           | DataSubmit (FromCsv (row :: _)) => row !! "Credit"
                           | _ => None
                           end)) in H.
  vm_compute in H. discriminate.
Qed.

(* ------------------------------------------------------------------ *)
(** ** The back ends on sample documents *)
(* ------------------------------------------------------------------ *)

(** C6, on the failing input.  A ten-page scanned document, one second
    per operation, the caller cancelling while page 3 is being
    recognized: the images of pages 4 to 10 are still recognized, one
    after the other, before the engine is released.  No progress or
    result callback follows the cancellation. *)
Theorem ocr_cancel_recognition_goes_on :
  Pipeline.after_cancel (Pipeline.trace (ocr_env (Some (T0 + 27500)%Z)))
  = [Pipeline.Recognize 3; Pipeline.Recognize 4; Pipeline.Recognize 5;
     Pipeline.Recognize 6; Pipeline.Recognize 7; Pipeline.Recognize 8;
     Pipeline.Recognize 9; Pipeline.Terminate].
Proof. vm_compute. reflexivity. Qed.

(** The same document cancelled while page 3 is being rasterized: no
    further page is rasterized or recognized, and no result callback
    fires; one progress notification for page 3 is still delivered. *)
Lemma ocr_cancel_rasterization_stops :
  let after := Pipeline.after_cancel (Pipeline.trace (ocr_env (Some (T0 + 9500)%Z))) in
  Pipeline.steps after = [] /\ length after = 1%nat.
Proof. vm_compute. split; reflexivity. Qed.

(** C8, on the failing input.  Twenty pages, seven seconds per
    operation: progress is delivered at least every fourteen seconds, the
    last time 112 seconds after the start, and yet the inner timer fires
    120 seconds after the start and reports the time-out as the error of
    the invocation. *)
Theorem slow_document_hits_inner_deadline :
  times_of slow_env Pipeline.is_progress
  = [0; 7000; 14000; 28000; 42000; 56000; 70000; 84000; 98000; 112000;
     126000]%Z /\
  List.filter (fun x => Pipeline.is_result (snd x))
              (Pipeline.log (Pipeline.run slow_env))
  = [((T0 + 120000)%Z, Pipeline.Error Pipeline.inner_timeout_message)] /\
  Pipeline.error (Pipeline.call (Pipeline.run slow_env))
  = Some Pipeline.inner_timeout_message.
Proof. vm_compute. repeat split; reflexivity. Qed.

(* ------------------------------------------------------------------ *)
(** ** The whole-document text of the fallback *)
(* ------------------------------------------------------------------ *)

Lemma split_nonempty (sep : ascii) (s : string) : split sep s <> [].
Proof.
  destruct s as [|c s]; simpl; [discriminate|].
  destruct (eqc c sep); [discriminate|]. destruct (split sep s); discriminate.
Qed.

(** Splitting at a separator splits the list of pieces. *)
Lemma split_app (sep : ascii) (a b : string) :
  split sep (a +:+ String sep b) = split sep a ++ split sep b.
Proof.
  induction a as [|c a IH]; simpl.
  - unfold eqc. rewrite Ascii.eqb_refl. reflexivity.
  - destruct (eqc c sep); [rewrite IH; reflexivity|].
    rewrite IH. pose proof (split_nonempty sep a) as Hne.
    destruct (split sep a) as [|w ws]; [contradiction|]. reflexivity.
Qed.

Lemma text_lines_app (a b : string) :
  text_lines (a +:+ String LF b) = text_lines a ++ text_lines b.
Proof.
  unfold text_lines. rewrite split_app, map_app, List.filter_app. reflexivity.
Qed.

Lemma string_app_assoc (a b c : string) : (a +:+ b) +:+ c = a +:+ (b +:+ c).
Proof.
  induction a as [|x a IH]; [reflexivity|].
  change (String x ((a +:+ b) +:+ c) = String x (a +:+ (b +:+ c))).
  rewrite IH. reflexivity.
Qed.

Lemma record_lines_app (a b : string) :
  record_lines (a +:+ String LF b) = record_lines a ++ record_lines b.
Proof. unfold record_lines. rewrite text_lines_app, List.filter_app. reflexivity. Qed.

(** The page-break marker between two texts adds no record line. *)
Lemma record_lines_page_break (a b : string) :
  record_lines (a +:+ Pipeline.page_break +:+ b)
  = record_lines a ++ record_lines b.
Proof.
  change (a +:+ Pipeline.page_break +:+ b)
    with (a +:+ String LF
            ("" +:+ String LF
               ("--- PAGE BREAK ---" +:+ String LF ("" +:+ String LF b)))).
  rewrite !record_lines_app. reflexivity.
Qed.

Lemma all_text_from (e : Pipeline.env) (l : list nat) : forall acc,
  fold_left (fun allText i => allText +:+ page_text e i +:+ Pipeline.page_break)
            l acc
  = acc +:+ all_text e l.
Proof.
  induction l as [|i l IH]; intros acc.
  - unfold all_text. cbn [fold_left].
    induction acc as [|c acc IHa]; [reflexivity|].
    change (String c acc = String c (acc +:+ "")). congruence.
  - unfold all_text. cbn [fold_left]. change ("" +:+ ?x) with x.
    rewrite (IH (acc +:+ page_text e i +:+ Pipeline.page_break)).
    rewrite (IH (page_text e i +:+ Pipeline.page_break)).
    rewrite <- !string_app_assoc. reflexivity.
Qed.

(** The record lines of the whole-document text are those of the pages,
    in page order. *)
Lemma record_lines_all_text (e : Pipeline.env) (l : list nat) :
  record_lines (all_text e l) = flat_map (fun i => record_lines (page_text e i)) l.
Proof.
  induction l as [|i l IH]; [reflexivity|].
  unfold all_text. cbn [fold_left flat_map].
  change ("" +:+ page_text e i +:+ Pipeline.page_break)
    with (page_text e i +:+ Pipeline.page_break).
  rewrite all_text_from, string_app_assoc, record_lines_page_break, IH.
  reflexivity.
Qed.

(** Re-parsing the whole-document text gives the records of the pages
    again, all tagged page 1: the fallback finds a record exactly when
    the per-page pass does. *)
Theorem fallback_same_records (e : Pipeline.env) (l : list nat) :
  extractTableDataFromText (all_text e l) 1
  = map (set_Page 1)
        (flat_map (fun i => extractTableDataFromText (page_text e i) i) l).
Proof.
  rewrite extractTableDataFromText_lines.
  fold (record_lines (all_text e l)). rewrite record_lines_all_text.
  induction l as [|i l IH]; [reflexivity|].
  cbn [flat_map]. rewrite !map_app, IH. f_equal.
  rewrite extractTableDataFromText_lines. fold (record_lines (page_text e i)).
  rewrite map_map. reflexivity.
Qed.

Lemma fallback_empty (e : Pipeline.env) (l : list nat) :
  flat_map (fun i => extractTableDataFromText (page_text e i) i) l = [] ->
  extractTableDataFromText (all_text e l) 1 = [].
Proof. intros H. rewrite fallback_same_records, H. reflexivity. Qed.

(* ------------------------------------------------------------------ *)
(** ** Runs that nothing interferes with *)
(* ------------------------------------------------------------------ *)

Section QuietRuns.
Import Pipeline.
Variable e : env.
Variable N : nat.

Lemma elapsed_nonneg (k : nat) : (0 <= elapsed e k)%Z.
Proof. induction k as [|k IH]; simpl; lia. Qed.

Lemma elapsed_mono (k n : nat) : (k <= n)%nat -> (elapsed e k <= elapsed e n)%Z.
Proof.
  induction 1 as [|n _ IH]; [lia|]. simpl. lia.
Qed.

Lemma steps_app (l1 l2 : list event) : steps (l1 ++ l2) = steps l1 ++ steps l2.
Proof. unfold steps. apply List.filter_app. Qed.

(** An await in a quiet state just lets the time pass. *)
Lemma reached_await (s : state) (k : nat) (evs : list event) (ev : event) :
  reached e N s k evs -> (k < N)%nat -> is_progress ev = false ->
  reached e N (suspend e (emit ev s)) (S k) (evs ++ [ev]).
Proof.
  intros [Hq [Hk Hl]] HkN Hev.
  destruct Hq as (Hc & Hel & Hm & Hpc & Hcr & Hip & Hed & Hnow & Hti & Hto).
  destruct s as [t a [pc cr lp ti] [pt cl ip er ed] mo lg]. simpl in *.
  subst pc cr ip mo a ed.
  assert (Hle : (elapsed e (S k) <= elapsed e N)%Z) by (apply elapsed_mono; lia).
  simpl in Hle.
  unfold suspend, flush, emit. simpl.
  assert (Hdue : forall d, (forall d', d = Some d' ->
                   (startTime e + elapsed e N < d')%Z) ->
                 due d (t + Z.max 0 (awaitMs e k))%Z = None).
  { intros [d|] H; [|reflexivity]. simpl. specialize (H d eq_refl).
    destruct (d <=? t + Z.max 0 (awaitMs e k))%Z eqn:E; [|reflexivity].
    apply Z.leb_le in E. lia. }
  unfold next_event. simpl. rewrite Hc. simpl.
  rewrite (Hdue ti Hti), (Hdue pt Hto). simpl.
  repeat split; simpl; try assumption; try reflexivity.
  - rewrite Hnow. lia.
  - rewrite map_app, steps_app, Hl. simpl. unfold steps. simpl.
    rewrite Hev. reflexivity.
Qed.

(** A progress notification in a quiet state leaves it quiet. *)
Lemma reached_throttled (s : state) (k : nat) (evs : list event) (p : Q) :
  reached e N s k evs -> reached e N (throttled p s) k evs.
Proof.
  intros [Hq [Hk Hl]].
  destruct Hq as (Hc & Hel & Hm & Hpc & Hcr & Hip & Hed & Hnow & Hti & Hto).
  destruct s as [t a [pc cr lp ti] [pt cl ip er ed] mo lg]. simpl in *.
  subst pc cr ip mo a ed.
  pose proof (elapsed_nonneg k) as H0.
  unfold throttled. simpl.
  destruct ((100 <? t - lp)%Z || Qeq_bool p 100 || Qeq_bool p 0);
    [|repeat split; simpl; assumption].
  unfold onProgress, handleProgressUpdate, emit. simpl.
  assert (Hs : steps (map snd (lg ++ [(t, Progress p)])) = evs).
  { rewrite map_app, steps_app, Hl. simpl. apply app_nil_r. }
  destruct ((100 <? t - cl)%Z || Qeq_bool p 100); simpl.
  - destruct pt as [d|]; simpl; repeat split; simpl; try assumption.
    intros d' [= <-]. lia.
  - repeat split; simpl; assumption.
Qed.

Lemma quiet_not_cancelled (s : state) (k : nat) (evs : list event) :
  reached e N s k evs -> return_if_cancelled s = (Val tt, s).
Proof.
  intros [Hq _].
  destruct Hq as (_ & _ & _ & Hpc & Hcr & _).
  unfold return_if_cancelled, cancelled, bind, get. rewrite Hpc, Hcr. reflexivity.
Qed.

Lemma bind_val {A B} (m : M A) (k : A -> M B) (s s' : state) (a : A) :
  m s = (Val a, s') -> bind m k s = k a s'.
Proof. intros H. unfold bind. rewrite H. reflexivity. Qed.

Lemma bind_act {B} (f : state -> state) (k : unit -> M B) (s : state) :
  bind (act f) k s = k tt (f s).
Proof. reflexivity. Qed.

Ltac run_act :=
  unfold throttledProgressUpdate, await; rewrite bind_act; cbv beta.

Lemma getTextContent_val (i : nat) (items : list string) (s : state) :
  pageItems e i = Some items ->
  getTextContent e i s = (Val items, suspend e (emit (GetTextContent i) s)).
Proof.
  intros H. unfold getTextContent, bind, await, act. rewrite H. reflexivity.
Qed.

Lemma readable_items (i : nat) :
  readable e i = true ->
  exists items, pageItems e i = Some items /\ page_text e i = pageText items.
Proof.
  unfold readable, page_text. destruct (rejects e (GetPage i)); [discriminate|].
  destruct (pageItems e i) as [items|]; [|discriminate].
  eauto.
Qed.

Lemma readable_page (i : nat) :
  readable e i = true -> rejects e (GetPage i) = None.
Proof.
  unfold readable. destruct (rejects e (GetPage i)); [discriminate|reflexivity].
Qed.

(** An operation that does not reject. *)
Lemma await_op_val (ev : event) (s : state) :
  rejects e ev = None ->
  await_op e ev s = (Val tt, suspend e (emit ev s)).
Proof. intros H. unfold await_op, bind, await, act. rewrite H. reflexivity. Qed.

(** One round of the page loop of the text-layer back end. *)
Lemma text_step_quiet (s : state) (k : nat) (evs : list event)
  (m : nat) (acc : list transaction) (i : nat) :
  reached e N s k evs -> (k + 2 <= N)%nat -> readable e i = true ->
  exists s',
    text_step e m acc i s
    = (Val (acc ++ extractTableDataFromText (page_text e i) i), s') /\
    reached e N s' (k + 2) (evs ++ [GetPage i; GetTextContent i]).
Proof.
  intros H HN Hr. destruct (readable_items i Hr) as [items [Hi Ht]].
  unfold text_step.
  rewrite (bind_val _ _ _ _ _ (quiet_not_cancelled _ _ _ H)).
  apply (reached_throttled _ _ _
           (20 + nat_Q (i - 1) * (60 / nat_Q m))%Q) in H.
  run_act.
  apply (reached_await _ _ _ (GetPage i)) in H; [|lia|reflexivity].
  rewrite (bind_val _ _ _ _ _ (await_op_val (GetPage i) _ (readable_page i Hr))).
  apply (reached_await _ _ _ (GetTextContent i)) in H; [|lia|reflexivity].
  rewrite (bind_val _ _ _ _ _ (getTextContent_val i items _ Hi)).
  apply (reached_throttled _ _ _ (20 + nat_Q i / nat_Q m * 60)%Q) in H.
  run_act.
  eexists. split; [rewrite Ht; reflexivity|].
  replace (k + 2)%nat with (S (S k)) by lia.
  rewrite <- app_assoc in H. exact H.
Qed.

Lemma text_loop_quiet (m : nat) (l : list nat) :
  forall (s : state) (k : nat) (evs : list event) (acc : list transaction),
  reached e N s k evs -> (k + 2 * length l <= N)%nat ->
  forallb (readable e) l = true ->
  exists s',
    for_fold l acc (text_step e m) s = (Val (acc ++ page_records e l), s') /\
    reached e N s' (k + 2 * length l) (evs ++ reads l).
Proof.
  induction l as [|i l IH]; intros s k evs acc H HN Hr.
  - exists s. simpl. rewrite !app_nil_r, Nat.add_0_r. split; [reflexivity|exact H].
  - cbn [forallb] in Hr. apply andb_prop in Hr as [Hi Hr]. cbn [length] in HN.
    destruct (text_step_quiet s k evs m acc i H ltac:(lia) Hi) as [s1 [E1 H1]].
    destruct (IH s1 (k + 2)%nat _ (acc ++ extractTableDataFromText (page_text e i) i)
                 H1 ltac:(lia) Hr) as [s2 [E2 H2]].
    exists s2. cbn [for_fold]. rewrite (bind_val _ _ _ _ _ E1), E2.
    split.
    + unfold page_records. cbn [flat_map]. rewrite app_assoc. reflexivity.
    + cbn [length]. replace (k + 2 * S (length l))%nat
        with (k + 2 + 2 * length l)%nat by lia.
      unfold reads in *. cbn [flat_map]. rewrite <- app_assoc in H2. exact H2.
Qed.





End QuietRuns.

(* ------------------------------------------------------------------ *)
(** ** Further properties of the Line Parser *)
(* ------------------------------------------------------------------ *)

(** The fields the single-line extractor sets: always a Description,
    never Amount or Page, not both Debit and Credit, Debit or Credit only
    together with Balance, and Date exactly when the date pattern
    matches. *)
Lemma extract_fields (line : string) :
  let t := extractTransactionFromLine line in
  Date t = match0 datePattern line /\
  Amount t = None /\ Page t = None /\
  (exists d, Description t = Some d) /\
  (Debit t = None \/ Credit t = None) /\
  (Balance t = None -> Debit t = None /\ Credit t = None).
Proof.
  unfold extractTransactionFromLine.
  destruct (match0 datePattern line) as [d|]; cbv zeta;
    match goal with |- context [matchAll amountPattern ?x] =>
      generalize x; intros w end;
    (destruct (final (matchAll amountPattern w));
     [destruct (penultimate (matchAll amountPattern w)) as [m|];
      [destruct (includes (trim m) "-" || includes (toLowerCase w) "debit")|]|];
     simpl; repeat split; eauto; discriminate).
Qed.

Lemma test_match0 (r : regex) (s : string) :
  test r s = true -> exists d, match0 r s = Some d.
Proof.
  unfold test, match0. destruct (exec r s); [eauto|discriminate].
Qed.

(** X1.  The records of one page: each comes from a qualifying line, carries
    the page number, a Date and a Description, never an Amount, and not
    both a Debit and a Credit. *)
Theorem line_parser_records (text : string) (pageNum : nat) (t : transaction) :
  In t (extractTableDataFromText text pageNum) ->
  Page t = Some pageNum /\
  (exists d, Date t = Some d) /\
  (exists d, Description t = Some d) /\
  Amount t = None /\
  (Debit t = None \/ Credit t = None) /\
  (Balance t = None -> Debit t = None /\ Credit t = None).
Proof.
  rewrite extractTableDataFromText_lines. intros H.
  apply in_map_iff in H as [line [<- Hl]].
  apply filter_In in Hl as [_ Hq].
  unfold qualifies in Hq. apply andb_prop in Hq as [_ Hq].
  apply andb_prop in Hq as [Hd _].
  destruct (extract_fields line) as (HD & HA & _ & HDe & HDC & HB).
  destruct (test_match0 _ _ Hd) as [d Hm].
  unfold set_Page. cbn [Page Date Description Amount Debit Credit Balance].
  split; [reflexivity|]. split; [exists d; rewrite HD; exact Hm|].
  split; [exact HDe|]. split; [exact HA|]. split; [exact HDC|exact HB].
Qed.

(** Witness of [line_parser_records]. *)
Lemma line_parser_records_witness :
  let t := set_Page 2 (extractTransactionFromLine
                         "14/04/2024 CR CARD PYMT 50000.00 86540.65") in
  Page t = Some 2%nat /\
  (exists d, Date t = Some d) /\
  (exists d, Description t = Some d) /\
  Amount t = None /\
  (Debit t = None \/ Credit t = None) /\
  (Balance t = None -> Debit t = None /\ Credit t = None).
Proof.
  apply (line_parser_records three_lines 2
           (set_Page 2 (extractTransactionFromLine
                          "14/04/2024 CR CARD PYMT 50000.00 86540.65"))).
  vm_compute. left. reflexivity.
Defined.

(** X2.  Each qualifying line of the text gives exactly one record, in line
    order, and no other line gives any. *)
Theorem line_parser_one_record_per_line (text : string) (pageNum : nat) :
  extractTableDataFromText text pageNum
  = map (fun line => set_Page pageNum (extractTransactionFromLine line))
        (record_lines text)
  /\ length (extractTableDataFromText text pageNum) = length (record_lines text).
Proof.
  rewrite extractTableDataFromText_lines. fold (record_lines text).
  split; [reflexivity|apply length_map].
Qed.

Lemma count_char_app (c : ascii) (a b : string) :
  count_char c (a +:+ b) = (count_char c a + count_char c b)%nat.
Proof.
  induction a as [|x a IH]; [reflexivity|].
  change (count_char c (String x (a +:+ b))
          = (count_char c (String x a) + count_char c b)%nat).
  cbn [count_char]. rewrite IH. lia.
Qed.

Lemma split_no_separator (sep : ascii) (s : string) :
  count_char sep s = 0%nat -> split sep s = [s].
Proof.
  induction s as [|x s IH]; [reflexivity|]. cbn [count_char split].
  unfold eqc in *. rewrite (Ascii.eqb_sym x sep).
  destruct (Ascii.eqb sep x); [discriminate|].
  intros H. rewrite IH by exact H. reflexivity.
Qed.

Lemma count_concat_space (items : list string) :
  forallb (fun item => (count_char LF item =? 0)%nat) items = true ->
  count_char LF (String.concat " " items) = 0%nat.
Proof.
  induction items as [|a items IH]; [reflexivity|].
  cbn [forallb]. intros H. apply andb_prop in H as [Ha H].
  apply Nat.eqb_eq in Ha. specialize (IH H).
  destruct items as [|b items]; [exact Ha|].
  change (String.concat " " (a :: b :: items))
    with (a +:+ " " +:+ String.concat " " (b :: items)).
  rewrite !count_char_app, Ha, IH. reflexivity.
Qed.

(** X3.  A page whose text items hold no line feed is one line for the Line
    Parser, so it gives at most one record, however many transactions
    its text shows. *)
Theorem page_without_line_feed_one_record (items : list string) (pageNum : nat) :
  forallb (fun item => (count_char LF item =? 0)%nat) items = true ->
  (length (extractTableDataFromText (Pipeline.pageText items) pageNum) <= 1)%nat.
Proof.
  intros H. rewrite extractTableDataFromText_lines, length_map.
  unfold text_lines, Pipeline.pageText.
  rewrite (split_no_separator LF _ (count_concat_space items H)).
  cbn [map List.filter].
  destruct (0 <? String.length _)%nat; cbn [List.filter length]; [|lia].
  destruct (qualifies _); simpl; lia.
Qed.

(** Witness of [page_without_line_feed_one_record]: two transactions on
    the page, one record. *)
Lemma page_without_line_feed_one_record_witness :
  let items := ["15/04/2024"; "ACH DEBIT"; "500.00"; "86040.65";
                "16/04/2024"; "POS PURCHASE"; "20.00"; "86020.65"] in
  length (extractTableDataFromText (Pipeline.pageText items) 1) = 1%nat /\
  (length (extractTableDataFromText (Pipeline.pageText items) 1) <= 1)%nat.
Proof.
  split; [vm_compute; reflexivity|].
  apply (page_without_line_feed_one_record
           ["15/04/2024"; "ACH DEBIT"; "500.00"; "86040.65";
            "16/04/2024"; "POS PURCHASE"; "20.00"; "86020.65"] 1).
  vm_compute. reflexivity.
Defined.

(* ------------------------------------------------------------------ *)
(** ** Further properties of deduplication *)
(* ------------------------------------------------------------------ *)

Lemma keep_first_fresh (l : list transaction) : forall seen,
  unique_keys (keep_first_per_key seen l) = true /\
  forallb (fun t => negb (existsb (String.eqb (dedup_key t)) seen))
          (keep_first_per_key seen l) = true.
Proof.
  induction l as [|t l IH]; intros seen; [split; reflexivity|].
  cbn [keep_first_per_key].
  destruct (existsb (String.eqb (dedup_key t)) seen) eqn:E; [apply IH|].
  destruct (IH (seen ++ [dedup_key t])) as [U F].
  cbn [unique_keys forallb]. rewrite E, U. cbn [negb andb].
  rewrite forallb_forall in F.
  split.
  - rewrite andb_true_r. apply negb_true_iff, not_true_iff_false.
    intros Hex. apply existsb_exists in Hex as [x [Hx Hk]].
    specialize (F x Hx). apply negb_true_iff in F.
    rewrite existsb_app in F. apply orb_false_elim in F as [_ F].
    cbn [existsb] in F. rewrite orb_false_r in F.
    unfold same_key in Hk. rewrite String.eqb_sym in Hk. congruence.
  - apply forallb_forall. intros x Hx. specialize (F x Hx).
    apply negb_true_iff in F. apply negb_true_iff.
    rewrite existsb_app in F. apply orb_false_elim in F as [F _]. exact F.
Qed.

(** X4.  The output of deduplication has pairwise distinct keys, so running
    deduplication on it again changes nothing. *)
Theorem removeDuplicateTransactions_idempotent (l : list transaction) :
  unique_keys (removeDuplicateTransactions l) = true /\
  removeDuplicateTransactions (removeDuplicateTransactions l)
  = removeDuplicateTransactions l.
Proof.
  assert (U : unique_keys (removeDuplicateTransactions l) = true).
  { rewrite removeDuplicateTransactions_spec. apply keep_first_fresh. }
  split; [exact U|]. apply removeDuplicateTransactions_unique, U.
Qed.

(* ------------------------------------------------------------------ *)
(** ** The fallback of the text-layer back end *)
(* ------------------------------------------------------------------ *)

Lemma all_text_step_value (e : Pipeline.env) (acc : string) (i : nat)
  (s : Pipeline.state) :
  readable e i = true ->
  exists s',
    Pipeline.all_text_step e acc i s
    = (Pipeline.Val (acc +:+ page_text e i +:+ Pipeline.page_break), s').
Proof.
  intros Hr. destruct (readable_items e i Hr) as [items [Hi Ht]].
  unfold Pipeline.all_text_step.
  rewrite (bind_val _ _ _ _ _
             (await_op_val e (Pipeline.GetPage i) _ (readable_page e i Hr))).
  rewrite (bind_val _ _ _ _ _ (getTextContent_val e i items _ Hi)).
  rewrite Ht. eexists. reflexivity.
Qed.

Lemma all_text_loop_value (e : Pipeline.env) (l : list nat) :
  forall (acc : string) (s : Pipeline.state),
  forallb (readable e) l = true ->
  exists s',
    Pipeline.for_fold l acc (Pipeline.all_text_step e) s
    = (Pipeline.Val (acc +:+ all_text e l), s').
Proof.
  induction l as [|i l IH]; intros acc s Hr.
  - exists s. cbn [Pipeline.for_fold]. unfold Pipeline.ret. f_equal. f_equal.
    rewrite <- (all_text_from e [] acc). reflexivity.
  - cbn [forallb] in Hr. apply andb_prop in Hr as [Hi Hr].
    destruct (all_text_step_value e acc i s Hi) as [s1 E1].
    destruct (IH (acc +:+ page_text e i +:+ Pipeline.page_break) s1 Hr)
      as [s2 E2].
    exists s2. cbn [Pipeline.for_fold]. rewrite (bind_val _ _ _ _ _ E1), E2.
    f_equal. f_equal. rewrite <- (all_text_from e (i :: l) acc).
    rewrite <- (all_text_from e l). reflexivity.
Qed.

(** X5.  In any state, cancelled or not, [extractAllText] reads every page up
    to the cap and returns their texts, each followed by the page-break
    marker; parsing that text as page 1 gives the records of the
    page-by-page pass again, retagged page 1.  So the fallback finds
    records only when the first pass had found some. *)
Theorem fallback_finds_what_pages_find (e : Pipeline.env) (s : Pipeline.state) :
  let l := seq 1 (Nat.min (Pipeline.numPages e) 20) in
  forallb (readable e) l = true ->
  (exists s', Pipeline.extractAllText e 20 s = (Pipeline.Val (all_text e l), s')) /\
  extractTableDataFromText (all_text e l) 1
  = map (set_Page 1) (page_records e l) /\
  (page_records e l = [] -> extractTableDataFromText (all_text e l) 1 = []).
Proof.
  intros l Hr. split; [|split].
  - unfold Pipeline.extractAllText. fold l.
    destruct (all_text_loop_value e l "" s Hr) as [s' E]. exists s'. exact E.
  - apply fallback_same_records.
  - apply fallback_empty.
Qed.

(** Witness of [fallback_finds_what_pages_find]. *)
Lemma fallback_finds_what_pages_find_witness :
  let e := text_env ["15/04/2024 ACH DEBIT 500.00 86040.65"; "nothing"] 50 in
  extractTableDataFromText (all_text e [1; 2]%nat) 1
  = map (set_Page 1) (page_records e [1; 2]%nat).
Proof.
  apply (fallback_finds_what_pages_find
           (text_env ["15/04/2024 ACH DEBIT 500.00 86040.65"; "nothing"] 50)
           (Pipeline.initial
              (text_env ["15/04/2024 ACH DEBIT 500.00 86040.65"; "nothing"] 50))).
  vm_compute. reflexivity.
Defined.

(* ------------------------------------------------------------------ *)
(** ** Further properties of manual entry *)
(* ------------------------------------------------------------------ *)

Lemma make_row_from (l : list (string * string)) :
  forall (row : gmap string string) (k : string),
  ~ In k (map fst l) ->
  fold_left (fun row hv => set_property row (fst hv) (snd hv)) l row !! k
  = row !! k.
Proof.
  induction l as [|[h v] l IH]; intros row k Hk; [reflexivity|].
  cbn [fold_left fst snd]. rewrite IH.
  - unfold set_property. destruct (String.eqb h "__proto__"); [reflexivity|].
    apply lookup_insert_ne. intros ->. apply Hk. left. reflexivity.
  - intros H. apply Hk. right. exact H.
Qed.

(** Nothing is ever stored under [__proto__]. *)
Lemma make_row_proto (l : list (string * string)) :
  forall (row : gmap string string),
  row !! "__proto__" = None ->
  fold_left (fun row hv => set_property row (fst hv) (snd hv)) l row
    !! "__proto__" = None.
Proof.
  induction l as [|[h v] l IH]; intros row Hr; [exact Hr|].
  cbn [fold_left fst snd]. apply IH. unfold set_property.
  destruct (String.eqb h "__proto__") eqn:E; [exact Hr|].
  rewrite lookup_insert_ne; [exact Hr|].
  intros ->. rewrite String.eqb_refl in E. discriminate.
Qed.

Lemma make_row_entry (l : list (string * string)) :
  forall (row : gmap string string) (k v : string),
  List.NoDup (map fst l) -> In (k, v) l -> k <> "__proto__" ->
  fold_left (fun row hv => set_property row (fst hv) (snd hv)) l row !! k
  = Some v.
Proof.
  induction l as [|[h w] l IH]; intros row k v Hn Hin Hk; [destruct Hin|].
  cbn [map fst] in Hn. apply List.NoDup_cons_iff in Hn as [Hh Hn].
  cbn [fold_left fst snd]. destruct Hin as [[= -> ->]|Hin].
  - rewrite make_row_from by exact Hh. unfold set_property.
    destruct (String.eqb k "__proto__") eqn:E.
    + apply String.eqb_eq in E. contradiction.
    + apply lookup_insert_eq.
  - apply IH; assumption.
Qed.

Lemma fst_combine {A B} (l1 : list A) : forall l2 : list B,
  length l1 = length l2 -> map fst (combine l1 l2) = l1.
Proof.
  induction l1 as [|a l1 IH]; intros [|b l2] H; try discriminate; [reflexivity|].
  cbn [combine map fst]. rewrite IH; [reflexivity|]. simpl in H. lia.
Qed.

Lemma csv_rows_spec (headers lines : list string) :
  csv_rows headers lines
  = map (fun line => make_row headers (map trim (split "," line)))
        (List.filter
           (fun line => (length (map trim (split "," line)) =? length headers)%nat)
           lines).
Proof.
  unfold csv_rows. induction lines as [|line lines IH]; [reflexivity|].
  cbn [flat_map List.filter].
  destruct (length (map trim (split "," line)) =? length headers)%nat;
    cbn [map app]; rewrite IH; reflexivity.
Qed.

(** X6.  The CSV rows, the headers being distinct: every row comes from a
    data line that has as many comma-separated values as there are
    headers, and maps the header at each position, unless that header is
    [__proto__], to the trimmed value at the same position of that line;
    under [__proto__] a row holds nothing. *)
Theorem csv_rows_by_position (headers lines : list string)
  (row : gmap string string) :
  List.NoDup headers -> In row (csv_rows headers lines) ->
  exists line,
    In line lines /\
    length (split "," line) = length headers /\
    row !! "__proto__" = None /\
    forall (j : nat) (h v : string),
      nth_error headers j = Some h ->
      nth_error (split "," line) j = Some v ->
      h <> "__proto__" ->
      row !! h = Some (trim v).
Proof.
  intros Hn Hin. rewrite csv_rows_spec in Hin.
  apply in_map_iff in Hin as [line [<- Hl]].
  apply filter_In in Hl as [Hl Hlen]. apply Nat.eqb_eq in Hlen.
  rewrite length_map in Hlen.
  exists line. split; [exact Hl|]. split; [exact Hlen|].
  split; [apply make_row_proto; apply lookup_empty|].
  intros j h v Hh Hv Hp. unfold make_row.
  apply make_row_entry; [| |exact Hp].
  - rewrite fst_combine; [exact Hn|]. rewrite length_map. lia.
  - assert (Hv' : nth_error (map trim (split "," line)) j = Some (trim v)).
    { rewrite nth_error_map, Hv. reflexivity. }
    clear Hlen Hv. revert j Hh Hv'.
    generalize (map trim (split "," line)) as vs.
    induction headers as [|h0 hs IH]; intros vs [|j] Hh Hv';
      try discriminate.
    + destruct vs as [|v0 vs]; [discriminate|].
      injection Hh as ->. injection Hv' as ->. left. reflexivity.
    + destruct vs as [|v0 vs]; [discriminate|]. right.
      apply List.NoDup_cons_iff in Hn as [_ Hn]. eapply IH; eassumption.
Qed.

(** Witness of [csv_rows_by_position]: the program's own sample text.
    Three of its six data lines have a comma inside the description and
    so six values for five headers; they give no row. *)
Lemma csv_rows_by_position_witness :
  let headers := map trim (split "," "Date,Description,Debit,Credit,Balance") in
  let rows := csv_rows headers (tl sampleData_lines) in
  length rows = 3%nat /\
  exists line,
    In line (tl sampleData_lines) /\
    length (split "," line) = length headers /\
    make_row headers
      (map trim (split "," "14/04/2024,FT/0000885394301/15894005677/CR CARD PYMT,,50000.00,86540.65"))
    !! "__proto__" = None /\
    forall (j : nat) (h v : string),
      nth_error headers j = Some h ->
      nth_error (split "," line) j = Some v ->
      h <> "__proto__" ->
      make_row headers
        (map trim (split "," "14/04/2024,FT/0000885394301/15894005677/CR CARD PYMT,,50000.00,86540.65"))
      !! h = Some (trim v).
Proof.
  split; [vm_compute; reflexivity|].
  apply (csv_rows_by_position
           (map trim (split "," "Date,Description,Debit,Credit,Balance"))
           (tl sampleData_lines)).
  - vm_compute.
    repeat (apply List.NoDup_cons; [simpl; intuition discriminate|]).
    apply List.NoDup_nil.
  - rewrite csv_rows_spec. apply in_map_iff.
    exists "14/04/2024,FT/0000885394301/15894005677/CR CARD PYMT,,50000.00,86540.65".
    split; [reflexivity|]. apply filter_In. split.
    + left. reflexivity.
    + vm_compute. reflexivity.
Defined.

(** X7.  A non-JSON text is never submitted as an empty list of rows: with no
    row the outcome is an error message. *)
Theorem handleSubmit_csv_never_empty
  (JSON_parse_value : string -> option json) (inputText : string)
  (rows : list (gmap string string)) :
  handleSubmit JSON_parse_value inputText = DataSubmit (FromCsv rows) ->
  rows <> [].
Proof.
  unfold handleSubmit.
  destruct (String.length (trim inputText) =? 0)%nat; [discriminate|].
  assert (H : parse_csv inputText = DataSubmit (FromCsv rows) -> rows <> []).
  { unfold parse_csv.
    destruct (List.filter _ (split LF inputText)) as [|header [|l1 ls]];
      try discriminate.
    destruct (csv_rows _ _) as [|r rs]; [discriminate|].
    intros [= <-]. discriminate. }
  destruct (JSON_parse JSON_parse_value inputText) as [[items|fields| |t]|];
    try discriminate; exact H.
Qed.

(** Witness of [handleSubmit_csv_never_empty]. *)
Lemma handleSubmit_csv_never_empty_witness : [csv_row_built] <> [].
Proof.
  apply (handleSubmit_csv_never_empty (fun _ => None) csv_sample).
  vm_compute. reflexivity.
Defined.

(* ------------------------------------------------------------------ *)
(** ** The OCR loop, in any state *)
(* ------------------------------------------------------------------ *)

Section Suspension.
Import Pipeline.
Variable e : env.

(** A predicate on events that holds of nothing that can happen during a
    suspension or a progress notification. *)
Variable P : event -> bool.
Hypothesis P_cancel : P CallerCancels = false.
Hypothesis P_timeout : P OuterTimeout = false.
Hypothesis P_error : forall m, P (Error m) = false.
Hypothesis P_progress : forall p, P (Progress p) = false.

Lemma kept_emit (ev : event) (s : state) : P ev = false -> kept P s (emit ev s).
Proof.
  intros H. unfold kept, emit. simpl.
  rewrite map_app, List.filter_app. simpl. rewrite H. apply app_nil_r.
Qed.

Lemma kept_flush (s : state) : kept P s (flush s).
Proof. unfold kept, flush. destruct (mounted s && _); reflexivity. Qed.

Lemma kept_trans (s1 s2 s3 : state) : kept P s1 s2 -> kept P s2 s3 -> kept P s1 s3.
Proof. unfold kept. congruence. Qed.

Lemma kept_caller_cancels (s : state) : kept P s (caller_cancels s).
Proof.
  unfold caller_cancels.
  eapply kept_trans; [|apply kept_flush].
  apply (kept_emit CallerCancels s P_cancel).
Qed.

Lemma kept_onError (m : string) (s : state) : kept P s (onError m s).
Proof. apply (kept_emit (Error m) s (P_error m)). Qed.

Lemma kept_inner (s : state) : kept P s (inner_timer_fires s).
Proof.
  unfold inner_timer_fires.
  eapply kept_trans; [|apply kept_flush].
  destruct (negb _ && negb _); [|reflexivity].
  apply (kept_onError inner_timeout_message (with_proc (set_timeoutId None) s)).
Qed.

Lemma kept_outer (s : state) : kept P s (outer_timer_fires s).
Proof.
  unfold outer_timer_fires.
  eapply kept_trans; [|apply kept_flush].
  apply (kept_emit OuterTimeout s P_timeout).
Qed.

Lemma next_event_kept (t1 : Z) (s : state) (t : Z) (f : state -> state) :
  next_event e t1 s = Some (t, f) -> forall s0, kept P s0 (f s0).
Proof.
  unfold next_event.
  destruct (if mounted s then due (cancelAt e) t1 else None) as [c|];
    destruct (due (timeoutId (proc s)) t1) as [i|];
    destruct (due (processingTimeout (call s)) t1) as [o|];
    cbn [option_map];
    repeat match goal with
           | |- context [if ?b then _ else _] => destruct b
           end;
    intros [= <- <-] s0;
    auto using kept_caller_cancels, kept_inner, kept_outer.
Qed.

Lemma kept_run_events (fuel : nat) (t1 : Z) : forall s, kept P s (run_events fuel e t1 s).
Proof.
  induction fuel as [|fuel IH]; intros s; [reflexivity|].
  cbn [run_events]. destruct (next_event e t1 s) as [[t f]|] eqn:E; [|reflexivity].
  eapply kept_trans; [|apply IH].
  apply (next_event_kept _ _ _ _ E (at_time (Z.max (now s) t) s)).
Qed.

(** Nothing that happens during a suspension is an event of [P]. *)
Lemma kept_suspend (s : state) : kept P s (suspend e s).
Proof.
  unfold suspend.
  eapply kept_trans; [apply kept_flush|].
  eapply kept_trans; [apply kept_run_events|]. reflexivity.
Qed.

Lemma kept_throttled (p : Q) (s : state) : kept P s (throttled p s).
Proof.
  unfold throttled. destruct (_ || _ || _); [|reflexivity].
  unfold onProgress, handleProgressUpdate.
  eapply kept_trans; [apply (kept_emit (Progress p) s (P_progress p))|].
  destruct (_ || _); [|reflexivity].
  simpl. destruct (processingTimeout _); reflexivity.
Qed.

End Suspension.

Lemma ocr_progress_val (p : Q) (s : Pipeline.state) :
  exists s', Pipeline.ocr_progress p s = (Pipeline.Val tt, s') /\
             recognitions s' = recognitions s.
Proof.
  unfold Pipeline.ocr_progress, Pipeline.bind, Pipeline.cancelled, Pipeline.get.
  destruct (_ || _).
  - exists s. split; reflexivity.
  - eexists. split; [reflexivity|].
    apply (kept_throttled is_recognition); reflexivity.
Qed.

Lemma recognize_step_val (e : Pipeline.env) (images : list nat)
  (results : list string) (i : nat) (s : Pipeline.state) :
  exists s',
    Pipeline.recognize_step e images Pipeline.ocr_progress results i s
    = (Pipeline.Val (results ++ [ocr_text e i]), s') /\
    recognitions s' = recognitions s ++ [Pipeline.Recognize i].
Proof.
  unfold Pipeline.recognize_step, Pipeline.try_catch, Pipeline.await, ocr_text.
  rewrite bind_act. cbv beta.
  set (s1 := Pipeline.suspend e (Pipeline.emit (Pipeline.Recognize i) s)).
  assert (H1 : recognitions s1 = recognitions s ++ [Pipeline.Recognize i]).
  { unfold recognitions, s1.
    rewrite (kept_suspend e is_recognition) by reflexivity.
    unfold Pipeline.emit. simpl. rewrite map_app, List.filter_app. reflexivity. }
  destruct (Pipeline.recognized e i) as [text|].
  - destruct (ocr_progress_val
                (Pipeline.nat_Q (i + 1) / Pipeline.nat_Q (length images))%Q s1) as [s2 [E2 H2]].
    exists s2. unfold Pipeline.bind at 1.
    rewrite E2. split; [reflexivity|congruence].
  - exists s1. split; [reflexivity|exact H1].
Qed.

Lemma recognize_loop_val (e : Pipeline.env) (images : list nat) (l : list nat) :
  forall (results : list string) (s : Pipeline.state),
  exists s',
    Pipeline.for_fold l results
      (Pipeline.recognize_step e images Pipeline.ocr_progress) s
    = (Pipeline.Val (results ++ map (ocr_text e) l), s') /\
    recognitions s' = recognitions s ++ map Pipeline.Recognize l.
Proof.
  induction l as [|i l IH]; intros results s.
  - exists s. cbn [Pipeline.for_fold map]. rewrite !app_nil_r.
    split; reflexivity.
  - destruct (recognize_step_val e images results i s) as [s1 [E1 H1]].
    destruct (IH (results ++ [ocr_text e i]) s1) as [s2 [E2 H2]].
    exists s2. cbn [Pipeline.for_fold map].
    rewrite (bind_val _ _ _ _ _ E1), E2, H2, H1, <- !app_assoc.
    split; reflexivity.
Qed.

Lemma processImagesWithOcr_val (e : Pipeline.env) (images : list nat)
  (s : Pipeline.state) :
  exists s',
    Pipeline.processImagesWithOcr e images Pipeline.ocr_progress s
    = (Pipeline.Val (map (ocr_text e) (seq 0 (length images))), s') /\
    recognitions s'
    = recognitions s ++ map Pipeline.Recognize (seq 0 (length images))
      ++ [Pipeline.Terminate].
Proof.
  unfold Pipeline.processImagesWithOcr.
  destruct (recognize_loop_val e images (seq 0 (length images)) [] s)
    as [s1 [E1 H1]].
  rewrite (bind_val _ _ _ _ _ E1). unfold Pipeline.await.
  rewrite bind_act. cbv beta. eexists. split; [reflexivity|].
  unfold recognitions in *.
  rewrite (kept_suspend e is_recognition) by reflexivity.
  unfold Pipeline.emit. cbn [Pipeline.log].
  rewrite map_app, List.filter_app, H1, <- app_assoc. reflexivity.
Qed.

(** X8.  In any state, cancelled or not, the OCR loop runs the engine on every
    image in order and then releases it; it returns one text per image,
    the empty string where recognition failed; it never throws and never
    returns early. *)
Theorem ocr_loop_recognizes_every_image (e : Pipeline.env)
  (images : list nat) (s : Pipeline.state) :
  exists s',
    Pipeline.processImagesWithOcr e images Pipeline.ocr_progress s
    = (Pipeline.Val (map (ocr_text e) (seq 0 (length images))), s') /\
    recognitions s'
    = recognitions s ++ map Pipeline.Recognize (seq 0 (length images))
      ++ [Pipeline.Terminate].
Proof. apply processImagesWithOcr_val. Qed.

(* ------------------------------------------------------------------ *)
(** ** Runs that nothing interferes with: what is delivered *)
(* ------------------------------------------------------------------ *)

Section QuietDelivery.
Import Pipeline.
Variable e : env.
Variable N : nat.

Ltac run_act :=
  unfold throttledProgressUpdate, await; rewrite bind_act; cbv beta.

(** The check of the first page: a page that cannot be read counts
    as scanned. *)
Lemma checkIfPdfIsScanned_val (s : state) :
  checkIfPdfIsScanned e s
  = (Val match pageItems e 1 with
         | Some items => (textLength items <? 100)%nat
         | None => true
         end,
     suspend e (emit (GetTextContent 1) s)).
Proof.
  unfold checkIfPdfIsScanned, try_catch, getTextContent, await, bind, act.
  destruct (pageItems e 1); reflexivity.
Qed.

(** A document that loads. *)
Lemma load_document_val (s : state) :
  needsPassword e = false -> rejects e LoadDocument = None ->
  load_document e s = (Val tt, suspend e (emit LoadDocument s)).
Proof.
  intros Hp Hr. unfold load_document, bind, await, act. rewrite Hp, Hr.
  reflexivity.
Qed.

(** Up to the choice of the back end. *)
Lemma prelude_quiet :
  cooperative e ->
  cancelAt e = None -> (elapsed e N < 120000)%Z -> (4 <= N)%nat ->
  exists s,
    reached e N s 4 prelude /\
    processPdf_body e (initial e)
    = (if text_layer e then call_ (processTextBasedPdf e)
       else call_ (processScannedPdf e)) s.
Proof.
  intros [Hpw Hrej] Hc Hel HN.
  unfold processPdf_body. rewrite bind_act. cbv beta.
  assert (H1 : reached e N
            (with_proc (set_timeoutId (Some (now (initial e) + 120000)%Z))
                       (initial e)) 0 []).
  { pose proof (elapsed_nonneg e N).
    repeat split; cbn; try assumption; try reflexivity; try lia.
    - intros d [= <-]. lia.
    - intros d [= <-]. lia. }
  apply (reached_throttled _ _ _ _ _ 5%Q) in H1. run_act.
  apply (reached_await _ _ _ _ _ ReadFile) in H1; [|lia|reflexivity].
  rewrite (bind_val _ _ _ _ _ (await_op_val e ReadFile _ (Hrej _))).
  rewrite (bind_val _ _ _ _ _ (quiet_not_cancelled _ _ _ _ _ H1)).
  apply (reached_throttled _ _ _ _ _ 10%Q) in H1. rewrite bind_act; cbv beta.
  apply (reached_await _ _ _ _ _ LoadDocument) in H1; [|lia|reflexivity].
  rewrite (bind_val _ _ _ _ _ (load_document_val _ Hpw (Hrej _))).
  rewrite (bind_val _ _ _ _ _ (quiet_not_cancelled _ _ _ _ _ H1)).
  apply (reached_throttled _ _ _ _ _ 15%Q) in H1. rewrite bind_act; cbv beta.
  apply (reached_await _ _ _ _ _ (GetPage 1)) in H1; [|lia|reflexivity].
  rewrite (bind_val _ _ _ _ _ (await_op_val e (GetPage 1) _ (Hrej _))).
  rewrite (bind_val _ _ _ _ _ (quiet_not_cancelled _ _ _ _ _ H1)).
  apply (reached_await _ _ _ _ _ (GetTextContent 1)) in H1; [|lia|reflexivity].
  apply (reached_throttled _ _ _ _ _ 20%Q) in H1.
  eexists. split; [exact H1|].
  rewrite (bind_val _ _ _ _ _ (checkIfPdfIsScanned_val _)).
  unfold text_layer.
  destruct (pageItems e 1) as [items|]; cbn [andb];
    [destruct ((textLength items <? 100)%nat && useOcr e)
    |destruct (useOcr e)];
    cbn [negb]; rewrite bind_act; reflexivity.
Qed.

(** Delivering a result in a quiet state. *)
Lemma deliver_quiet (data : list transaction) (s : state) (k : nat)
  (evs : list event) :
  reached e N s k evs ->
  exists s',
    deliver data s = (Val tt, s') /\
    steps (map snd (log s')) = evs ++ [DataExtracted data] /\
    caller_has data (call s').
Proof.
  intros [Hq [Hk Hl]].
  destruct Hq as (_ & _ & _ & _ & Hcr & _ & Hed & _).
  unfold deliver, bind at 1, get. rewrite Hcr. cbn [negb].
  rewrite bind_act. cbv beta. unfold throttledProgressUpdate, act.
  eexists. split; [reflexivity|].
  destruct s as [t a pr [pt cl ip er ed] mo lg]. cbn in Hed, Hl. subst ed.
  unfold throttled, onProgress, onDataExtracted, handleExtractedData,
    handleProgressUpdate, emit.
  replace (Qeq_bool 100 100) with true by reflexivity.
  rewrite !orb_true_r. cbn [orb].
  unfold steps in *.
  destruct data as [|r data]; cbn;
    (destruct pt; cbn;
     rewrite !map_app, !List.filter_app, Hl; cbn;
     rewrite <- ?app_assoc, ?app_nil_r;
     (split; [reflexivity|unfold caller_has; cbn; auto])).
Qed.

End QuietDelivery.

(** The Deduplicator never empties a list. *)
Lemma removeDuplicateTransactions_nonempty (l : list transaction) :
  l <> [] -> removeDuplicateTransactions l <> [].
Proof.
  intros H. rewrite removeDuplicateTransactions_spec.
  destruct l as [|t l]; [congruence|]. simpl. discriminate.
Qed.

Lemma sort_nonempty cmp (l : list transaction) :
  l <> [] -> JSArray.sort cmp l <> [].
Proof.
  intros H E. pose proof (sort_perm cmp l) as P. rewrite E in P.
  apply Permutation_sym, Permutation_nil in P. contradiction.
Qed.

Lemma caller_has_nonempty (data : list transaction) (c : Pipeline.caller) :
  data <> [] -> caller_has data c -> Pipeline.extractedData c = Some data.
Proof. destruct data; [congruence|]. intros _ H. exact H. Qed.

Section QuietTextRun.
Import Pipeline.
Variable e : env.
Variable N : nat.

Ltac run_act :=
  unfold throttledProgressUpdate, await; rewrite bind_act; cbv beta.

(** The text-layer back end on pages that give records. *)
Lemma text_body_delivers (s : state) (k : nat) (evs : list event) :
  let l := seq 1 (Nat.min (numPages e) 20) in
  let data := postProcess (engine_Date e) (page_records e l) in
  reached e N s k evs -> (k + 2 * length l <= N)%nat ->
  forallb (readable e) l = true ->
  page_records e l <> [] ->
  exists s',
    processTextBasedPdf_body e s = (Val tt, s') /\
    steps (map snd (log s')) = evs ++ reads l ++ [DataExtracted data] /\
    caller_has data (call s').
Proof.
  intros l data H HN Hr Hne. unfold processTextBasedPdf_body. fold l.
  destruct (text_loop_quiet e N (Nat.min (numPages e) 20) l s k evs [] H
              ltac:(lia) Hr) as [s1 [E1 H1]].
  rewrite (bind_val _ _ _ _ _ E1). cbn [app].
  rewrite (bind_val _ _ _ _ _ (quiet_not_cancelled _ _ _ _ _ H1)).
  apply (reached_throttled _ _ _ _ _ 80%Q) in H1. run_act.
  destruct (page_records e l) as [|r rs] eqn:Epr; [congruence|].
  rewrite (bind_val _ _ _ _ _ (quiet_not_cancelled _ _ _ _ _ H1)).
  apply (reached_throttled _ _ _ _ _ 90%Q) in H1. rewrite bind_act; cbv beta.
  apply (reached_throttled _ _ _ _ _ 95%Q) in H1. rewrite bind_act; cbv beta.
  destruct (deliver_quiet e N data _ _ _ H1) as [s2 [E2 [L2 C2]]].
  exists s2. split; [exact E2|]. split; [|exact C2].
  rewrite L2, <- app_assoc. reflexivity.
Qed.

End QuietTextRun.

(** X9.  A text-layer document with at least one record, read without
    interference (no password is asked for, no operation rejects, the
    caller does not cancel, and the awaits of the run take less than two
    minutes together), the dates of whose deduplicated records all parse
    or all fail to parse, so that the sort has one possible result: the
    invocation reads page 1 for the classification, then reads each of
    the pages 1..min(pageCount, 20) once and no other page, and ends
    with one [onDataExtracted] call that hands over the records of these
    pages, deduplicated and then sorted; no [onError] call is made, and
    the caller stores that list. *)
Theorem text_backend_delivers_processed_records (e : Pipeline.env) :
  let l := seq 1 (Nat.min (Pipeline.numPages e) 20) in
  let data := postProcess (Pipeline.engine_Date e) (page_records e l) in
  cooperative e ->
  Pipeline.cancelAt e = None ->
  (Pipeline.elapsed e (4 + 2 * length l) <? 120000)%Z = true ->
  forallb (readable e) l = true ->
  text_layer e = true ->
  page_records e l <> [] ->
  consistent_dates (Pipeline.engine_Date e)
    (removeDuplicateTransactions (page_records e l)) = true ->
  Pipeline.steps (Pipeline.trace e)
  = prelude ++ reads l ++ [Pipeline.DataExtracted data] /\
  Pipeline.extractedData (Pipeline.call (Pipeline.run e)) = Some data.
Proof.
  intros l data Hco Hc Hel Hr Htl Hne _.
  apply Z.ltb_lt in Hel.
  remember (4 + 2 * length l)%nat as N eqn:HN.
  destruct (prelude_quiet e N Hco Hc Hel ltac:(lia)) as [s4 [H4 E4]].
  rewrite Htl in E4.
  destruct (text_body_delivers e N s4 4 prelude H4 ltac:(fold l; lia) Hr Hne)
    as [s' [E' [L' C']]].
  fold l in L', C'. fold data in L', C'.
  assert (Hd : data <> []).
  { unfold data, postProcess, sortTransactionsByDate.
    apply sort_nonempty, removeDuplicateTransactions_nonempty, Hne. }
  apply (caller_has_nonempty _ _ Hd) in C'.
  unfold Pipeline.trace, Pipeline.run, Pipeline.processPdf,
    Pipeline.try_finally, Pipeline.try_catch.
  rewrite E4.
  unfold Pipeline.call_, Pipeline.processTextBasedPdf, Pipeline.try_catch.
  rewrite E'. cbn [snd].
  destruct s' as [t a [pc cr lp ti] [pt cl ip er ed] mo lg].
  unfold Pipeline.flush, Pipeline.unmount. simpl in *.
  destruct (mo && negb ip); simpl; auto.
Qed.

(** Witness of [text_backend_delivers_processed_records]: a statement of
    three pages, 50 ms per operation; the third page repeats the line of
    the first, and the second has the earlier date.  Two records are
    handed over, the earlier first. *)
Lemma text_backend_delivers_processed_records_witness :
  let e := text_env ["20/04/2024 POS PURCHASE 20.00 86020.65";
                     "15/04/2024 ACH DEBIT 500.00 86040.65";
                     "20/04/2024 POS PURCHASE 20.00 86020.65"] 50 in
  let data := postProcess (Pipeline.engine_Date e) (page_records e [1; 2; 3]) in
  map Date data = [Some "15/04/2024"; Some "20/04/2024"] /\
  map Page data = [Some 2; Some 1]%nat /\
  Pipeline.steps (Pipeline.trace e)
  = prelude ++ reads [1; 2; 3] ++ [Pipeline.DataExtracted data] /\
  Pipeline.extractedData (Pipeline.call (Pipeline.run e)) = Some data.
Proof.
  split; [vm_compute; reflexivity|]. split; [vm_compute; reflexivity|].
  apply (text_backend_delivers_processed_records
           (text_env ["20/04/2024 POS PURCHASE 20.00 86020.65";
                      "15/04/2024 ACH DEBIT 500.00 86040.65";
                      "20/04/2024 POS PURCHASE 20.00 86020.65"] 50)).
  - split; [reflexivity|intros ev; reflexivity].
  - reflexivity.
  - vm_compute; reflexivity.
  - vm_compute; reflexivity.
  - vm_compute; reflexivity.
  - vm_compute. discriminate.
  - vm_compute; reflexivity.
Defined.

(* ------------------------------------------------------------------ *)
(** ** The OCR back end on a run that nothing interferes with *)
(* ------------------------------------------------------------------ *)

Lemma flat_map_combine_map {A B C} (f : A -> B) (g : A * B -> list C)
  (l : list A) :
  flat_map g (combine l (map f l)) = flat_map (fun i => g (i, f i)) l.
Proof. induction l as [|i l IH]; simpl; [reflexivity|]. rewrite IH. reflexivity. Qed.

Section QuietOcrRun.
Import Pipeline.
Variable e : env.
Variable N : nat.
Hypothesis Hrej : forall ev, rejects e ev = None.

Ltac run_act :=
  unfold throttledProgressUpdate, await; rewrite bind_act; cbv beta.

(** One round of the rasterization loop. *)
Lemma raster_step_quiet (s : state) (k : nat) (evs : list event)
  (m : nat) (images : list nat) (i : nat) :
  reached e N s k evs -> (k + 2 <= N)%nat ->
  exists s',
    raster_step e m images i s = (Val (images ++ [i]), s') /\
    reached e N s' (k + 2) (evs ++ [GetPage i; Render i]).
Proof.
  intros H HN. unfold raster_step.
  rewrite (bind_val _ _ _ _ _ (quiet_not_cancelled _ _ _ _ _ H)).
  apply (reached_throttled _ _ _ _ _
           (25 + nat_Q (i - 1) * (20 / nat_Q m))%Q) in H.
  run_act.
  apply (reached_await _ _ _ _ _ (GetPage i)) in H; [|lia|reflexivity].
  rewrite (bind_val _ _ _ _ _ (await_op_val e (GetPage i) _ (Hrej _))).
  apply (reached_await _ _ _ _ _ (Render i)) in H; [|lia|reflexivity].
  rewrite (bind_val _ _ _ _ _ (await_op_val e (Render i) _ (Hrej _))).
  apply (reached_throttled _ _ _ _ _ (25 + nat_Q i / nat_Q m * 20)%Q) in H.
  rewrite bind_act; cbv beta.
  eexists. split; [reflexivity|].
  replace (k + 2)%nat with (S (S k)) by lia.
  rewrite <- app_assoc in H. exact H.
Qed.

Lemma raster_loop_quiet (m : nat) (l : list nat) :
  forall (s : state) (k : nat) (evs : list event) (images : list nat),
  reached e N s k evs -> (k + 2 * length l <= N)%nat ->
  exists s',
    for_fold l images (raster_step e m) s = (Val (images ++ l), s') /\
    reached e N s' (k + 2 * length l) (evs ++ rasters l).
Proof.
  induction l as [|i l IH]; intros s k evs images H HN.
  - exists s. simpl. rewrite !app_nil_r, Nat.add_0_r. split; [reflexivity|exact H].
  - cbn [length] in HN.
    destruct (raster_step_quiet s k evs m images i H ltac:(lia)) as [s1 [E1 H1]].
    destruct (IH s1 (k + 2)%nat _ (images ++ [i]) H1 ltac:(lia)) as [s2 [E2 H2]].
    exists s2. cbn [for_fold]. rewrite (bind_val _ _ _ _ _ E1), E2.
    split; [rewrite <- app_assoc; reflexivity|].
    replace (k + 2 * length (i :: l))%nat with (k + 2 + 2 * length l)%nat
      by (cbn [length]; lia).
    unfold rasters in *. cbn [flat_map]. rewrite <- app_assoc in H2. exact H2.
Qed.

(** One round of the recognition loop. *)
Lemma recognize_step_quiet (s : state) (k : nat) (evs : list event)
  (images : list nat) (results : list string) (i : nat) :
  reached e N s k evs -> (k + 1 <= N)%nat ->
  exists s',
    recognize_step e images ocr_progress results i s
    = (Val (results ++ [ocr_text e i]), s') /\
    reached e N s' (k + 1) (evs ++ [Recognize i]).
Proof.
  intros H HN. unfold recognize_step, try_catch, await, ocr_text.
  rewrite bind_act. cbv beta.
  apply (reached_await _ _ _ _ _ (Recognize i)) in H; [|lia|reflexivity].
  replace (S k) with (k + 1)%nat in H by lia.
  destruct (recognized e i) as [text|].
  - unfold bind at 1, ocr_progress, bind at 1, cancelled, get.
    pose proof H as [Hq _].
    destruct Hq as (_ & _ & _ & Hpc & Hcr & _).
    rewrite Hpc, Hcr. cbn [orb]. unfold throttledProgressUpdate, act.
    eexists. split; [reflexivity|].
    apply reached_throttled, H.
  - eexists. split; [reflexivity|exact H].
Qed.

Lemma recognize_loop_quiet (images : list nat) (l : list nat) :
  forall (s : state) (k : nat) (evs : list event) (results : list string),
  reached e N s k evs -> (k + length l <= N)%nat ->
  exists s',
    for_fold l results (recognize_step e images ocr_progress) s
    = (Val (results ++ map (ocr_text e) l), s') /\
    reached e N s' (k + length l) (evs ++ map Recognize l).
Proof.
  induction l as [|i l IH]; intros s k evs results H HN.
  - exists s. simpl. rewrite !app_nil_r, Nat.add_0_r. split; [reflexivity|exact H].
  - cbn [length] in HN.
    destruct (recognize_step_quiet s k evs images results i H ltac:(lia))
      as [s1 [E1 H1]].
    destruct (IH s1 (k + 1)%nat _ (results ++ [ocr_text e i]) H1 ltac:(lia))
      as [s2 [E2 H2]].
    exists s2. cbn [for_fold]. rewrite (bind_val _ _ _ _ _ E1), E2.
    split; [rewrite <- app_assoc; reflexivity|].
    replace (k + length (i :: l))%nat with (k + 1 + length l)%nat
      by (cbn [length]; lia).
    cbn [map]. rewrite <- app_assoc in H2. exact H2.
Qed.

Lemma processImagesWithOcr_quiet (images : list nat) (s : state) (k : nat)
  (evs : list event) :
  reached e N s k evs -> (k + length images + 1 <= N)%nat ->
  exists s',
    processImagesWithOcr e images ocr_progress s
    = (Val (map (ocr_text e) (seq 0 (length images))), s') /\
    reached e N s' (k + length images + 1)
            (evs ++ map Recognize (seq 0 (length images)) ++ [Terminate]).
Proof.
  intros H HN. unfold processImagesWithOcr.
  destruct (recognize_loop_quiet images (seq 0 (length images)) _ _ _ [] H
              ltac:(rewrite length_seq; lia)) as [s1 [E1 H1]].
  rewrite (bind_val _ _ _ _ _ E1). cbn [app]. rewrite length_seq in H1.
  run_act.
  apply (reached_await _ _ _ _ _ Terminate) in H1; [|lia|reflexivity].
  eexists. split; [reflexivity|].
  replace (k + length images + 1)%nat with (S (k + length images)) by lia.
  rewrite <- app_assoc in H1. exact H1.
Qed.

(** One round of the loop over the OCR texts: nothing is awaited. *)
Lemma record_step_quiet (s : state) (k : nat) (evs : list event)
  (count : nat) (acc : list transaction) (it : nat * string) :
  reached e N s k evs ->
  exists s',
    record_step count acc it s
    = (Val (acc ++ extractTableDataFromOcrText (snd it) (fst it + 1)), s') /\
    reached e N s' k evs.
Proof.
  intros H. unfold record_step.
  rewrite (bind_val _ _ _ _ _ (quiet_not_cancelled _ _ _ _ _ H)).
  apply (reached_throttled _ _ _ _ _
           (80 + nat_Q (fst it) * (15 / nat_Q count))%Q) in H.
  run_act. eexists. split; [reflexivity|exact H].
Qed.

Lemma record_loop_quiet (count : nat) (l : list (nat * string)) :
  forall (s : state) (k : nat) (evs : list event) (acc : list transaction),
  reached e N s k evs ->
  exists s',
    for_fold l acc (record_step count) s
    = (Val (acc ++ flat_map (fun it => extractTableDataFromOcrText
                                         (snd it) (fst it + 1)) l), s') /\
    reached e N s' k evs.
Proof.
  induction l as [|it l IH]; intros s k evs acc H.
  - exists s. simpl. rewrite app_nil_r. split; [reflexivity|exact H].
  - destruct (record_step_quiet s k evs count acc it H) as [s1 [E1 H1]].
    destruct (IH s1 k evs
                (acc ++ extractTableDataFromOcrText (snd it) (fst it + 1)) H1)
      as [s2 [E2 H2]].
    exists s2. cbn [for_fold flat_map].
    rewrite (bind_val _ _ _ _ _ E1), E2, <- app_assoc.
    split; [reflexivity|exact H2].
Qed.

(** The OCR back end from a quiet state. *)
Lemma scanned_body_delivers (s : state) (k : nat) (evs : list event) :
  let m := Nat.min (numPages e) 10 in
  let data := sortTransactionsByDate (engine_Date e) (ocr_records e m) in
  reached e N s k evs -> (k + 3 * m + 2 <= N)%nat ->
  exists s',
    processScannedPdf_body e s = (Val tt, s') /\
    steps (map snd (log s'))
    = evs ++ rasters (seq 1 m) ++ [CreateWorker]
      ++ map Recognize (seq 0 m) ++ [Terminate; DataExtracted data] /\
    caller_has data (call s').
Proof.
  intros m data H HN. unfold processScannedPdf_body. fold m.
  apply (reached_throttled _ _ _ _ _ 25%Q) in H. run_act.
  destruct (raster_loop_quiet m (seq 1 m) _ _ _ [] H
              ltac:(rewrite length_seq; lia)) as [s1 [E1 H1]].
  rewrite (bind_val _ _ _ _ _ E1). cbn [app]. rewrite length_seq in H1.
  rewrite (bind_val _ _ _ _ _ (quiet_not_cancelled _ _ _ _ _ H1)).
  apply (reached_throttled _ _ _ _ _ 45%Q) in H1. rewrite bind_act; cbv beta.
  apply (reached_await _ _ _ _ _ CreateWorker) in H1; [|lia|reflexivity].
  rewrite (bind_val _ _ _ _ _ (await_op_val e CreateWorker _ (Hrej _))).
  destruct (processImagesWithOcr_quiet (seq 1 m) _ _ _ H1
              ltac:(rewrite length_seq; lia)) as [s2 [E2 H2]].
  rewrite (bind_val _ _ _ _ _ E2). cbv beta. rewrite length_seq in H2.
  rewrite (bind_val _ _ _ _ _ (quiet_not_cancelled _ _ _ _ _ H2)).
  apply (reached_throttled _ _ _ _ _ 80%Q) in H2. rewrite bind_act; cbv beta.
  rewrite length_map, !length_seq.
  destruct (record_loop_quiet m (combine (seq 0 m) (map (ocr_text e) (seq 0 m)))
              _ _ _ [] H2) as [s3 [E3 H3]].
  rewrite (bind_val _ _ _ _ _ E3). cbn [app].
  rewrite flat_map_combine_map. cbn [fst snd]. fold (ocr_records e m).
  rewrite (bind_val _ _ _ _ _ (quiet_not_cancelled _ _ _ _ _ H3)).
  apply (reached_throttled _ _ _ _ _ 95%Q) in H3. rewrite bind_act; cbv beta.
  fold data.
  destruct (deliver_quiet e N data _ _ _ H3) as [s4 [E4 [L4 C4]]].
  exists s4. split; [exact E4|]. split; [|exact C4].
  rewrite L4, <- !app_assoc. reflexivity.
Qed.

End QuietOcrRun.

(** X10.  A document that is classified as scanned (page 1 has fewer than
    100 characters of text, or its text cannot be read) with OCR enabled,
    processed without interference (no password is asked for, no
    operation rejects, the caller does not cancel, and the awaits of the
    run take less than two minutes together), the dates of whose OCR
    records all parse or all fail to parse, so that the sort has one
    possible result: the invocation rasterizes the pages
    1..min(pageCount, 10) and no other page, creates the OCR engine,
    recognizes every image, releases the engine, and ends with one
    [onDataExtracted] call that hands over the records of the OCR texts
    sorted by date, not deduplicated.  No [onError] call is made: when
    there is no record the empty list is handed over, and it is the
    caller that turns it into an error message. *)
Theorem ocr_backend_delivers_sorted_records (e : Pipeline.env) :
  let m := Nat.min (Pipeline.numPages e) 10 in
  let data := sortTransactionsByDate (Pipeline.engine_Date e) (ocr_records e m) in
  cooperative e ->
  Pipeline.cancelAt e = None ->
  (Pipeline.elapsed e (3 * m + 6) <? 120000)%Z = true ->
  text_layer e = false ->
  consistent_dates (Pipeline.engine_Date e) (ocr_records e m) = true ->
  Pipeline.steps (Pipeline.trace e)
  = prelude ++ rasters (seq 1 m) ++ [Pipeline.CreateWorker]
    ++ map Pipeline.Recognize (seq 0 m)
    ++ [Pipeline.Terminate; Pipeline.DataExtracted data] /\
  caller_has data (Pipeline.call (Pipeline.run e)).
Proof.
  intros m data Hco Hc Hel Htl _.
  apply Z.ltb_lt in Hel.
  remember (3 * m + 6)%nat as N eqn:HN.
  destruct (prelude_quiet e N Hco Hc Hel ltac:(lia)) as [s4 [H4 E4]].
  rewrite Htl in E4.
  destruct (scanned_body_delivers e N (proj2 Hco) s4 4 prelude H4
              ltac:(fold m; lia))
    as [s' [E' [L' C']]].
  fold m in L', C'. fold data in L', C'.
  unfold Pipeline.trace, Pipeline.run, Pipeline.processPdf,
    Pipeline.try_finally, Pipeline.try_catch.
  rewrite E4.
  unfold Pipeline.call_, Pipeline.processScannedPdf, Pipeline.try_catch.
  rewrite E'. cbn [snd].
  destruct s' as [t a [pc cr lp ti] [pt cl ip er ed] mo lg].
  unfold Pipeline.flush, Pipeline.unmount, caller_has in *. simpl in *.
  destruct (mo && negb ip); simpl; auto.
Qed.

(** Witness of [ocr_backend_delivers_sorted_records]: ten scanned pages
    with the same transaction line, one second per operation; the ten
    equal records are all handed over. *)
Lemma ocr_backend_delivers_sorted_records_witness :
  let e := ocr_env None in
  Pipeline.steps (Pipeline.trace e)
  = prelude ++ rasters (seq 1 10) ++ [Pipeline.CreateWorker]
    ++ map Pipeline.Recognize (seq 0 10)
    ++ [Pipeline.Terminate;
        Pipeline.DataExtracted
          (sortTransactionsByDate (Pipeline.engine_Date e) (ocr_records e 10))] /\
  length (ocr_records e 10) = 10%nat.
Proof.
  split; [|vm_compute; reflexivity].
  assert (H0 : cooperative (ocr_env None))
    by (split; [reflexivity|intros ev; reflexivity]).
  assert (H1 : (Pipeline.elapsed (ocr_env None)
                  (3 * Nat.min (Pipeline.numPages (ocr_env None)) 10 + 6)
                <? 120000)%Z = true) by (vm_compute; reflexivity).
  assert (H2 : text_layer (ocr_env None) = false) by (vm_compute; reflexivity).
  assert (H3 : consistent_dates (Pipeline.engine_Date (ocr_env None))
                 (ocr_records (ocr_env None)
                    (Nat.min (Pipeline.numPages (ocr_env None)) 10)) = true)
    by (vm_compute; reflexivity).
  exact (proj1 (ocr_backend_delivers_sorted_records (ocr_env None)
                  H0 eq_refl H1 H2 H3)).
Defined.

(* ------------------------------------------------------------------ *)
(** ** The table preview *)
(* ------------------------------------------------------------------ *)

Section TablePreviewFacts.
Import TablePreview.

Lemma array_includes_In (a : list string) (c : string) :
  array_includes a c = true <-> In c a.
Proof.
  unfold array_includes. rewrite existsb_exists. split.
  - intros [x [Hx E]]. apply String.eqb_eq in E. subst. exact Hx.
  - intros H. exists c. split; [exact H|apply String.eqb_refl].
Qed.









Variable Row : Type.
Variable keys : Row -> option (list string).


Lemma slice_page (data : list Row) (p : nat) :
  displayData Row data (Z.of_nat (S p))
  = firstn 10 (skipn (10 * p) data).
Proof.
  unfold displayData, slice, endIndex, startIndex, rowsPerPage.
  set (n := length data).
  assert (Hs : ((Z.of_nat (S p) - 1) * 10 = Z.of_nat (10 * p))%Z) by lia.
  rewrite Hs.
  destruct (Z.ltb_spec (Z.of_nat (10 * p)) 0); [lia|].
  destruct (Z.ltb_spec (Z.of_nat (10 * p) + 10) 0); [lia|].
  destruct (Nat.le_gt_cases n (10 * p)) as [Hle|Hgt].
  - rewrite !skipn_all2 by (fold n; lia). rewrite !firstn_nil. reflexivity.
  - replace (Z.to_nat (Z.min (Z.of_nat (10 * p)) (Z.of_nat n))) with (10 * p)%nat by lia.
    destruct (Nat.le_gt_cases (10 * p + 10) n) as [Hfull|Hpart].
    + f_equal. lia.
    + rewrite !firstn_all2; [reflexivity| |];
        rewrite length_skipn; fold n; lia.
Qed.

Lemma chunks_concat (n : nat) : forall (l : list Row),
  (length l <= 10 * n)%nat ->
  concat (map (fun p => firstn 10 (skipn (10 * p) l)) (seq 0 n)) = l.
Proof.
  induction n as [|n IH]; intros l H.
  - destruct l; [reflexivity|simpl in H; lia].
  - cbn [seq map concat]. rewrite <- seq_shift, map_map.
    change (skipn (10 * 0) l) with l.
    transitivity (firstn 10 l ++ skipn 10 l); [|apply firstn_skipn].
    f_equal.
    etransitivity; [|apply (IH (skipn 10 l)); rewrite length_skipn; lia].
    f_equal. apply map_ext. intros p. rewrite skipn_skipn. f_equal. f_equal. lia.
Qed.

Lemma totalPages_div (data : list Row) :
  totalPages Row data = ((Z.of_nat (length data) + 9) / 10)%Z.
Proof.
  unfold totalPages, rowsPerPage, Qceiling, Qfloor, Qdiv, Qmult, Qinv, Qopp,
    inject_Z.
  cbn [Qnum Qden]. 
  change (Z.pos (1 * 10)) with 10%Z.
  set (n := Z.of_nat (length data)).
  rewrite Z.mul_1_r.
  pose proof (Z.div_mod n 10 ltac:(lia)).
  pose proof (Z.mod_pos_bound n 10 ltac:(lia)).
  pose proof (Z.div_mod (- n) 10 ltac:(lia)).
  pose proof (Z.mod_pos_bound (- n) 10 ltac:(lia)).
  pose proof (Z.div_mod (n + 9) 10 ltac:(lia)).
  pose proof (Z.mod_pos_bound (n + 9) 10 ltac:(lia)).
  lia.
Qed.

End TablePreviewFacts.


(** A row list as manual entry can submit it, the second row being
    [null]: the component throws. *)
Example orderedColumns_null_row :
  TablePreview.orderedColumns (option (list (string * string)))
    (option_map (map fst)) [Some [("Page", "1")]; None]
  = None.
Proof. reflexivity. Qed.

(** The important columns that occur come first, in their fixed order;
    the other columns follow in the order in which the data first
    mentions them. *)
Lemma orderedColumns_important_first (Row : Type)
  (keys : Row -> option (list string)) (data : list Row) :
  TablePreview.orderedColumns Row keys data
  = option_map
      (fun columns =>
         List.filter (TablePreview.array_includes columns)
                     TablePreview.important
         ++ List.filter (fun col => negb (TablePreview.array_includes
                                            TablePreview.important col))
                        columns)
      (TablePreview.columns Row keys data).
Proof.
  unfold TablePreview.orderedColumns.
  destruct (TablePreview.columns Row keys data) as [cols|]; [|reflexivity].
  cbn [option_map]. f_equal. rewrite List.filter_app. f_equal.
  assert (H : forall l, (forall c, In c l -> In c cols) ->
    List.filter (fun col => TablePreview.array_includes cols col)
      (List.filter (fun col => negb (TablePreview.array_includes
                                       TablePreview.important col)) l)
    = List.filter (fun col => negb (TablePreview.array_includes
                                      TablePreview.important col)) l).
  { induction l as [|c l IH]; intros Hl; [reflexivity|]. cbn [List.filter].
    destruct (negb _) eqn:E; cbn [List.filter].
    - rewrite (proj2 (array_includes_In cols c) (Hl c (or_introl eq_refl))).
      f_equal. apply IH. intros x Hx. apply Hl. right. exact Hx.
    - apply IH. intros x Hx. apply Hl. right. exact Hx. }
  apply H. auto.
Qed.

(** X12.  The pages 1..totalPages show every row of the data exactly once, in
    order: their rows put together are the data. *)
Theorem pages_show_all_rows (Row : Type) (data : list Row) :
  concat (map (TablePreview.displayData Row data)
              (TablePreview.page_numbers Row data))
  = data.
Proof.
  unfold TablePreview.page_numbers.
  rewrite <- seq_shift, !map_map.
  rewrite (map_ext _ (fun p => firstn 10 (skipn (10 * p) data)))
    by (intros p; apply slice_page).
  apply chunks_concat. rewrite totalPages_div.
  pose proof (Z.div_mod (Z.of_nat (length data) + 9) 10 ltac:(lia)).
  pose proof (Z.mod_pos_bound (Z.of_nat (length data) + 9) 10 ltac:(lia)).
  lia.
Qed.

(** X13.  Whatever buttons are clicked, starting from page 1 of data that is
    not empty: the current page stays between 1 and the number of pages,
    and it shows at least one row and at most ten. *)
Theorem clicks_stay_on_a_page (Row : Type) (data : list Row)
  (clicks : list TablePreview.click) :
  data <> [] ->
  let page := TablePreview.after_clicks Row data clicks in
  (1 <= page <= TablePreview.totalPages Row data)%Z /\
  (1 <= length (TablePreview.displayData Row data page) <= 10)%nat.
Proof.
  intros Hne page.
  assert (Hlen : (0 < length data)%nat) by (destruct data; [congruence|simpl; lia]).
  pose proof (totalPages_div Row data) as Ht.
  pose proof (Z.div_mod (Z.of_nat (length data) + 9) 10 ltac:(lia)) as Hd.
  pose proof (Z.mod_pos_bound (Z.of_nat (length data) + 9) 10 ltac:(lia)) as Hm.
  assert (Hpage : (1 <= page <= TablePreview.totalPages Row data)%Z).
  { unfold page, TablePreview.after_clicks.
    assert (G : forall cs p, (1 <= p <= TablePreview.totalPages Row data)%Z ->
      (1 <= fold_left (TablePreview.on_click Row data) cs p
         <= TablePreview.totalPages Row data)%Z).
    { induction cs as [|c cs IH]; intros p Hp; [exact Hp|]. cbn [fold_left].
      apply IH. destruct c; cbn [TablePreview.on_click];
        unfold TablePreview.handlePreviousPage, TablePreview.handleNextPage; lia. }
    apply G. lia. }
  split; [exact Hpage|].
  destruct (Z_of_nat_complete (page - 1) ltac:(lia)) as [p Hp].
  replace page with (Z.of_nat (S p)) by lia.
  rewrite slice_page. rewrite length_firstn, length_skipn. lia.
Qed.

(** Witness of [clicks_stay_on_a_page]: 23 rows, three clicks on Next
    and one on Previous lead to page 2 of 3. *)
Lemma clicks_stay_on_a_page_witness :
  let clicks := [TablePreview.Next; TablePreview.Next; TablePreview.Next;
                 TablePreview.Previous] in
  TablePreview.after_clicks _ sample_rows clicks = 2%Z /\
  TablePreview.totalPages _ sample_rows = 3%Z /\
  (1 <= length (TablePreview.displayData _ sample_rows
                  (TablePreview.after_clicks _ sample_rows clicks)) <= 10)%nat.
Proof.
  split; [reflexivity|]. split; [reflexivity|].
  apply (clicks_stay_on_a_page _ sample_rows
           [TablePreview.Next; TablePreview.Next; TablePreview.Next;
            TablePreview.Previous]).
  discriminate.
Defined.

(* ------------------------------------------------------------------ *)
(** ** Invariants of the whole invocation *)
(* ------------------------------------------------------------------ *)

Lemma after_cancel_app_seen (l l' : list Pipeline.event) :
  existsb is_cancel l = true ->
  Pipeline.after_cancel (l ++ l') = Pipeline.after_cancel l ++ l'.
Proof.
  induction l as [|ev l IH]; simpl; [discriminate|].
  destruct ev; simpl; auto.
Qed.

Lemma after_cancel_app_unseen (l l' : list Pipeline.event) :
  existsb is_cancel l = false ->
  Pipeline.after_cancel (l ++ l') = Pipeline.after_cancel l'.
Proof.
  induction l as [|ev l IH]; simpl; [reflexivity|].
  destruct ev; simpl; auto; discriminate.
Qed.

(** *** What preserves an invariant that progress notifications and
    awaits preserve *)

Section Preserved.
Import Pipeline.
Variable e : env.
Variable Inv : state -> Prop.
Hypothesis Inv_throttled : forall p s, Inv s -> Inv (throttled p s).
Hypothesis Inv_await : forall ev s,
  is_operation ev = true ->
  Inv s -> Inv (suspend e (emit ev s)).

Lemma keeps_ret {A} (a : A) : keeps Inv (ret a).
Proof. intros s J. exact J. Qed.

Lemma keeps_raise {A} (m : string) : keeps Inv (@raise A m).
Proof. intros s J. exact J. Qed.

Lemma keeps_return {A} : keeps Inv (@return_ A).
Proof. intros s J. exact J. Qed.

Lemma keeps_get {A} (f : state -> A) : keeps Inv (get f).
Proof. intros s J. exact J. Qed.

Lemma keeps_bind {A B} (m : M A) (k : A -> M B) :
  keeps Inv m -> (forall a, keeps Inv (k a)) -> keeps Inv (bind m k).
Proof.
  intros Hm Hk s J. unfold bind. specialize (Hm s J).
  destruct (m s) as [[a| |err|] s']; cbn [snd] in *;
    [|exact Hm|exact Hm|exact Hm].
  apply Hk, Hm.
Qed.

Lemma keeps_try_catch {A} (m : M A) (h : string -> M A) :
  keeps Inv m -> (forall err, keeps Inv (h err)) -> keeps Inv (try_catch m h).
Proof.
  intros Hm Hh s J. unfold try_catch. specialize (Hm s J).
  destruct (m s) as [[a| |err|] s']; cbn [snd] in *;
    [exact Hm|exact Hm| |exact Hm].
  apply Hh, Hm.
Qed.

Lemma keeps_call (m : M unit) : keeps Inv m -> keeps Inv (call_ m).
Proof.
  intros Hm s J. unfold call_. specialize (Hm s J).
  destruct (m s) as [[a| |err|] s']; exact Hm.
Qed.

Lemma keeps_for_fold {A S} (body : S -> A -> M S) (l : list A) :
  (forall acc x, keeps Inv (body acc x)) ->
  forall acc, keeps Inv (for_fold l acc body).
Proof.
  intros Hb. induction l as [|x l IH]; intros acc; cbn [for_fold].
  - apply keeps_ret.
  - apply keeps_bind; [apply Hb|exact IH].
Qed.

Lemma keeps_pending {A} : keeps Inv (@pending A).
Proof. intros s J. exact J. Qed.

Lemma keeps_await (ev : event) :
  is_operation ev = true -> keeps Inv (await e ev).
Proof. intros Hop s J. apply Inv_await; assumption. Qed.

Lemma keeps_await_op (ev : event) :
  is_operation ev = true -> keeps Inv (await_op e ev).
Proof.
  intros Hop. unfold await_op.
  apply keeps_bind; [apply keeps_await, Hop|].
  intros _. destruct (rejects e ev); [apply keeps_raise|apply keeps_ret].
Qed.

(** Loading the document, when the password request preserves the
    invariant or cannot happen. *)
Lemma keeps_load_document :
  (needsPassword e = true -> forall s, Inv s -> Inv (on_password s)) ->
  keeps Inv (load_document e).
Proof.
  intros Hp. unfold load_document.
  apply keeps_bind; [apply keeps_await; reflexivity|]. intros _.
  destruct (needsPassword e).
  - apply keeps_bind; [|intros _; apply keeps_pending].
    intros s J. apply Hp; [reflexivity|exact J].
  - destruct (rejects e LoadDocument); [apply keeps_raise|apply keeps_ret].
Qed.

Lemma keeps_throttled (p : Q) : keeps Inv (throttledProgressUpdate p).
Proof. intros s J. apply Inv_throttled, J. Qed.

Lemma keeps_return_if_cancelled : keeps Inv return_if_cancelled.
Proof.
  unfold return_if_cancelled, cancelled.
  apply keeps_bind; [apply keeps_get|].
  intros [|]; [apply keeps_return|apply keeps_ret].
Qed.

Lemma keeps_ocr_progress (p : Q) : keeps Inv (ocr_progress p).
Proof.
  unfold ocr_progress, cancelled.
  apply keeps_bind; [apply keeps_get|].
  intros [|]; [apply keeps_ret|apply keeps_throttled].
Qed.

Ltac keeps_step :=
  lazymatch goal with
  | |- keeps _ (bind _ _) => apply keeps_bind; [|intros ?]
  | |- keeps _ (ret _) => apply keeps_ret
  | |- keeps _ (raise _) => apply keeps_raise
  | |- keeps _ return_ => apply keeps_return
  | |- keeps _ (get _) => apply keeps_get
  | |- keeps _ (await _ _) => apply keeps_await; reflexivity
  | |- keeps _ (await_op _ _) => apply keeps_await_op; reflexivity
  | |- keeps _ (throttledProgressUpdate _) => apply keeps_throttled
  | |- keeps _ return_if_cancelled => apply keeps_return_if_cancelled
  | |- keeps _ (ocr_progress _) => apply keeps_ocr_progress
  | |- keeps _ (for_fold _ _ _) => apply keeps_for_fold; intros ? ?
  | |- keeps _ (try_catch _ _) => apply keeps_try_catch; [|intros ?]
  | |- keeps _ (call_ _) => apply keeps_call
  | |- keeps _ (match ?x with _ => _ end) => destruct x
  end.

Lemma keeps_getTextContent (i : nat) : keeps Inv (getTextContent e i).
Proof. unfold getTextContent. repeat keeps_step. Qed.

Lemma keeps_checkIfPdfIsScanned : keeps Inv (checkIfPdfIsScanned e).
Proof.
  unfold checkIfPdfIsScanned. keeps_step; [|keeps_step].
  keeps_step; [apply keeps_getTextContent|keeps_step].
Qed.

Lemma keeps_extractAllText (n : nat) : keeps Inv (extractAllText e n).
Proof.
  unfold extractAllText. keeps_step. unfold all_text_step.
  keeps_step; [keeps_step|].
  keeps_step; [apply keeps_getTextContent|keeps_step].
Qed.

Lemma keeps_processImagesWithOcr (images : list nat) :
  keeps Inv (processImagesWithOcr e images ocr_progress).
Proof.
  unfold processImagesWithOcr. keeps_step; [|repeat keeps_step].
  keeps_step. unfold recognize_step. repeat keeps_step.
Qed.

Lemma keeps_raster_loop (m : nat) (l images : list nat) :
  keeps Inv (for_fold l images (raster_step e m)).
Proof. keeps_step. unfold raster_step. cbv zeta. repeat keeps_step. Qed.

Lemma keeps_record_loop (n : nat) (l : list (nat * string))
  (acc : list transaction) :
  keeps Inv (for_fold l acc (record_step n)).
Proof. keeps_step. unfold record_step. cbv zeta. repeat keeps_step. Qed.

Lemma keeps_text_loop (m : nat) (l : list nat) (acc : list transaction) :
  keeps Inv (for_fold l acc (text_step e m)).
Proof.
  keeps_step. unfold text_step. cbv zeta.
  do 3 (keeps_step; [keeps_step|]).
  keeps_step; [apply keeps_getTextContent|]. repeat keeps_step.
Qed.

End Preserved.

(** *** What happens during a suspension preserves an invariant that
    each of its parts preserves *)

Section Suspended.
Import Pipeline.
Variable e : env.
Variable Inv : state -> Prop.
Hypothesis Inv_same : forall s x,
  log x = log s -> mounted x = mounted s -> proc x = proc s ->
  Inv s -> Inv x.
Hypothesis Inv_flush : forall s, Inv s -> Inv (flush s).
Hypothesis Inv_cancels : forall s, Inv s -> Inv (caller_cancels s).
Hypothesis Inv_inner : forall s, Inv s -> Inv (inner_timer_fires s).
Hypothesis Inv_outer : forall s, Inv s -> Inv (outer_timer_fires s).

Lemma inv_next_event (t1 : Z) (s : state) (t : Z) (f : state -> state) :
  next_event e t1 s = Some (t, f) -> forall s0, Inv s0 -> Inv (f s0).
Proof.
  unfold next_event.
  destruct (if mounted s then due (cancelAt e) t1 else None) as [c|];
    destruct (due (timeoutId (proc s)) t1) as [i|];
    destruct (due (processingTimeout (call s)) t1) as [o|];
    cbn [option_map];
    repeat match goal with
           | |- context [if ?b then _ else _] => destruct b
           end;
    intros [= <- <-] s0; auto.
Qed.

Lemma inv_run_events (fuel : nat) (t1 : Z) :
  forall s, Inv s -> Inv (run_events fuel e t1 s).
Proof.
  induction fuel as [|fuel IH]; intros s J; [exact J|].
  cbn [run_events]. destruct (next_event e t1 s) as [[t f]|] eqn:E; [|exact J].
  apply IH. apply (inv_next_event _ _ _ _ E).
  revert J. apply Inv_same; reflexivity.
Qed.

Lemma inv_suspend (s : state) : Inv s -> Inv (suspend e s).
Proof.
  intros J. unfold suspend.
  apply (Inv_same (run_events 3 e
           (now (flush s) + Z.max 0 (awaitMs e (awaits (flush s))))%Z (flush s)));
    try reflexivity.
  apply inv_run_events, Inv_flush, J.
Qed.

End Suspended.

(** One step of a proof that a computation without result callbacks
    preserves an invariant; [HT] and [HA] are the facts about progress
    notifications and awaits. *)
Ltac keeps_with e HT HA :=
  lazymatch goal with
  | |- keeps _ (Pipeline.bind _ _) => apply keeps_bind; [|intros ?]
  | |- keeps _ (Pipeline.ret _) => apply keeps_ret
  | |- keeps _ (Pipeline.raise _) => apply keeps_raise
  | |- keeps _ Pipeline.return_ => apply keeps_return
  | |- keeps _ (Pipeline.await _ _) => apply (keeps_await e _ HA); reflexivity
  | |- keeps _ (Pipeline.await_op _ _) =>
      apply (keeps_await_op e _ HA); reflexivity
  | |- keeps _ (Pipeline.throttledProgressUpdate _) =>
      apply (keeps_throttled _ HT)
  | |- keeps _ Pipeline.return_if_cancelled => apply keeps_return_if_cancelled
  | |- keeps _ (Pipeline.for_fold _ _ (Pipeline.raster_step _ _)) =>
      apply (keeps_raster_loop e _ HT HA)
  | |- keeps _ (Pipeline.for_fold _ _ (Pipeline.record_step _)) =>
      apply (keeps_record_loop _ HT)
  | |- keeps _ (Pipeline.for_fold _ _ (Pipeline.text_step _ _)) =>
      apply (keeps_text_loop e _ HT HA)
  | |- keeps _ (Pipeline.processImagesWithOcr _ _ _) =>
      apply (keeps_processImagesWithOcr e _ HT HA)
  | |- keeps _ (Pipeline.extractAllText _ _) =>
      apply (keeps_extractAllText e _ HA)
  | |- keeps _ (Pipeline.checkIfPdfIsScanned _) =>
      apply (keeps_checkIfPdfIsScanned e _ HA)
  | |- keeps _ (Pipeline.try_catch _ _) => apply keeps_try_catch; [|intros ?]
  | |- keeps _ (Pipeline.call_ _) => apply keeps_call
  | |- keeps _ (match ?x with _ => _ end) => destruct x
  end.

(** *** No result callback after a cancellation *)

Section StopSafety.
Import Pipeline.

Ltac same_tac :=
  solve [ reflexivity
        | unfold events; cbn; rewrite ?map_app; reflexivity ].

(** A state that differs from a safe one in nothing the invariant sees. *)
Lemma safe_same (s x : state) :
  events x = events s -> mounted x = mounted s ->
  cleanupRequired (proc x) = cleanupRequired (proc s) ->
  stop_safe s -> stop_safe x.
Proof. unfold stop_safe. intros -> -> ->. exact id. Qed.

(** One more event: a result only while mounted, a cancellation only
    when unmounted already. *)
Lemma safe_append (s x : state) (ev : event) :
  events x = events s ++ [ev] -> mounted x = mounted s ->
  cleanupRequired (proc x) = cleanupRequired (proc s) ->
  (is_result ev = true -> mounted s = true) ->
  (is_cancel ev = true -> mounted s = false) ->
  stop_safe s -> stop_safe x.
Proof.
  unfold stop_safe. intros -> -> -> Hr Hs (J1 & J2 & J3).
  split; [exact J1|].
  rewrite existsb_app. cbn [existsb]. rewrite orb_false_r.
  split.
  - intros H. apply orb_prop in H as [H|H]; auto.
  - destruct (existsb is_cancel (events s)) eqn:E.
    + rewrite after_cancel_app_seen by exact E.
      rewrite forallb_app, J3. cbn [forallb andb].
      destruct (is_result ev); [|reflexivity].
      rewrite J2 in Hr by reflexivity. discriminate Hr. reflexivity.
    + rewrite after_cancel_app_unseen by exact E.
      destruct ev; reflexivity.
Qed.

(** One more event that is no result callback, and the processor is
    unmounted. *)
Lemma safe_append_unmount (s x : state) (ev : event) :
  events x = events s ++ [ev] -> is_result ev = false ->
  stop_safe s -> stop_safe (unmount x).
Proof.
  unfold stop_safe, unmount, events. cbn. fold (events x) (events s).
  intros -> Hr (J1 & J2 & J3).
  split; [reflexivity|]. split; [reflexivity|].
  destruct (existsb is_cancel (events s)) eqn:E.
  - rewrite after_cancel_app_seen by exact E.
    rewrite forallb_app, J3. cbn [forallb andb]. rewrite Hr. reflexivity.
  - rewrite after_cancel_app_unseen by exact E.
    destruct ev; reflexivity.
Qed.

Lemma safe_unmount (s : state) : stop_safe s -> stop_safe (unmount s).
Proof.
  unfold stop_safe, unmount, events. cbn. fold (events s).
  intros (J1 & J2 & J3). auto.
Qed.

Lemma safe_flush (s : state) : stop_safe s -> stop_safe (flush s).
Proof.
  unfold flush. destruct (mounted s && _); [apply safe_unmount|exact id].
Qed.

Lemma safe_throttled (p : Q) (s : state) : stop_safe s -> stop_safe (throttled p s).
Proof.
  intros J. unfold throttled. destruct (_ || _ || _); [|exact J].
  apply (safe_append s _ (Progress p)); try discriminate; try exact J;
    unfold onProgress, handleProgressUpdate;
    (destruct (_ || _); [|same_tac]);
    cbn; destruct (processingTimeout (call s)); same_tac.
Qed.

(** [onError] behind its guard. *)
Lemma safe_onError (m : string) (s : state) :
  cleanupRequired (proc s) = false -> stop_safe s -> stop_safe (onError m s).
Proof.
  intros Hc J.
  apply (safe_append s _ (Error m)); try same_tac; try discriminate; try exact J.
  intros _. destruct J as (J1 & _). destruct (mounted s); [reflexivity|].
  rewrite J1 in Hc by reflexivity. discriminate.
Qed.

(** [onDataExtracted] behind its guard. *)
Lemma safe_onDataExtracted (data : list transaction) (s : state) :
  cleanupRequired (proc s) = false -> stop_safe s ->
  stop_safe (onDataExtracted data s).
Proof.
  intros Hc J.
  apply (safe_append s _ (DataExtracted data)); try discriminate; try exact J;
    try (unfold onDataExtracted, handleExtractedData; destruct data; same_tac).
  intros _. destruct J as (J1 & _). destruct (mounted s); [reflexivity|].
  rewrite J1 in Hc by reflexivity. discriminate.
Qed.

Lemma safe_caller_cancels (s : state) : stop_safe s -> stop_safe (caller_cancels s).
Proof.
  intros J. unfold caller_cancels, flush. cbn [mounted with_call emit call
    isProcessing set_processingTimeout set_isProcessing negb andb].
  rewrite andb_true_r.
  destruct (mounted s) eqn:Hm.
  - apply (safe_append_unmount s _ CallerCancels); [same_tac|reflexivity|exact J].
  - apply (safe_append s _ CallerCancels); try same_tac; try discriminate;
      try exact J. intros _. exact Hm.
Qed.

Lemma safe_outer (s : state) : stop_safe s -> stop_safe (outer_timer_fires s).
Proof.
  intros J. unfold outer_timer_fires, flush. cbn [mounted with_call emit call
    isProcessing set_processingTimeout set_isProcessing set_error negb andb].
  rewrite andb_true_r.
  destruct (mounted s) eqn:Hm.
  - apply (safe_append_unmount s _ OuterTimeout); [same_tac|reflexivity|exact J].
  - apply (safe_append s _ OuterTimeout); try same_tac; try discriminate;
      exact J.
Qed.

Lemma safe_inner (s : state) : stop_safe s -> stop_safe (inner_timer_fires s).
Proof.
  intros J. unfold inner_timer_fires. apply safe_flush.
  assert (J' : stop_safe (with_proc (set_timeoutId None) s))
    by (revert J; apply safe_same; reflexivity).
  cbn [proc with_proc set_timeoutId processingCancelled cleanupRequired].
  destruct (cleanupRequired (proc s)) eqn:Hc.
  - rewrite andb_false_r. exact J'.
  - destruct (processingCancelled (proc s)); cbn [negb andb]; [exact J'|].
    apply (safe_same (onError inner_timeout_message
                        (with_proc (set_timeoutId None) s)));
      try reflexivity.
    apply safe_onError; [exact Hc|exact J'].
Qed.

(** [onPassword] calls [onError] behind no guard: after a cancellation
    it breaks the invariant, so the documents here ask for no
    password. *)
Variable e : env.
Hypothesis Hpw : needsPassword e = false.

Lemma safe_suspend (s : state) : stop_safe s -> stop_safe (suspend e s).
Proof.
  apply (inv_suspend e stop_safe); auto using safe_flush, safe_caller_cancels,
    safe_inner, safe_outer.
  intros s0 x Hl Hm Hp. apply safe_same; [unfold events|..]; congruence.
Qed.

Lemma safe_await (ev : event) (s : state) :
  is_operation ev = true ->
  stop_safe s -> stop_safe (suspend e (emit ev s)).
Proof.
  intros Hop J. apply safe_suspend.
  apply (safe_append s _ ev); try same_tac; try exact J;
    destruct ev; discriminate.
Qed.

Lemma safe_deliver (data : list transaction) : keeps stop_safe (deliver data).
Proof.
  intros s J. unfold deliver, bind, get, act, throttledProgressUpdate.
  destruct (cleanupRequired (proc s)) eqn:Hc; cbn [negb snd]; [exact J|].
  apply safe_throttled, safe_onDataExtracted; assumption.
Qed.

Lemma safe_report (message : string) : keeps stop_safe (report message).
Proof.
  intros s J. unfold report, bind, cancelled, get, act.
  destruct (cleanupRequired (proc s)) eqn:Hc.
  - rewrite orb_true_r. exact J.
  - destruct (processingCancelled (proc s)); cbn [orb negb snd]; [exact J|].
    apply safe_onError; assumption.
Qed.

Lemma safe_load_document : keeps stop_safe (load_document e).
Proof.
  apply (keeps_load_document e _ safe_await). rewrite Hpw. discriminate.
Qed.

Ltac safe_step :=
  first [ keeps_with e safe_throttled safe_await
        | apply safe_deliver
        | apply safe_report
        | apply safe_load_document ].

Lemma safe_processScannedPdf : keeps stop_safe (processScannedPdf e).
Proof.
  unfold processScannedPdf, processScannedPdf_body. cbv zeta.
  repeat safe_step.
Qed.

Lemma safe_processTextBasedPdf : keeps stop_safe (processTextBasedPdf e).
Proof.
  unfold processTextBasedPdf, processTextBasedPdf_body. cbv zeta.
  repeat safe_step.
Qed.

Lemma safe_processPdf : keeps stop_safe (processPdf e).
Proof.
  intros s J. unfold processPdf, try_finally.
  assert (H : keeps stop_safe (try_catch (processPdf_body e)
            (fun error => report ("Failed to process the PDF: " +:+ error
                                  +:+ ". Please try again.")))).
  { safe_step; [|safe_step]. unfold processPdf_body.
    safe_step.
    { intros s0. apply safe_same; reflexivity. }
    repeat safe_step;
      [apply safe_processScannedPdf|apply safe_processTextBasedPdf]. }
  specialize (H s J). destruct (try_catch _ _ s) as [[a| |err|] s'];
    cbn [snd] in *; try exact H;
    revert H; apply safe_same; reflexivity.
Qed.

End StopSafety.

(** X14.  In every environment whose document asks for no password (any
    page count, page texts or failures to read them, OCR texts or
    failures, rejections of the awaited operations, durations of the
    awaits, moment of the cancellation): once the caller has cancelled,
    neither [onDataExtracted] nor [onError] is called any more. *)
Theorem no_result_callback_after_cancel (e : Pipeline.env) :
  Pipeline.needsPassword e = false ->
  forallb (fun ev => negb (Pipeline.is_result ev))
          (Pipeline.after_cancel (Pipeline.trace e)) = true.
Proof.
  intros Hpw.
  assert (J : stop_safe (Pipeline.run e)).
  { unfold Pipeline.run. apply safe_flush. apply (safe_processPdf e Hpw).
    unfold stop_safe. cbn. split; [discriminate|]. split; [discriminate|reflexivity]. }
  unfold Pipeline.trace. revert J. generalize (Pipeline.run e).
  intros s (_ & _ & J3). exact J3.
Qed.

(** Witness of [no_result_callback_after_cancel]: the caller cancels
    while the third page of ten is rasterized; the run goes on for one
    more operation, and no result callback follows. *)
Lemma no_result_callback_after_cancel_witness :
  let e := ocr_env (Some (T0 + 9500)%Z) in
  Pipeline.after_cancel (Pipeline.trace e) <> [] /\
  forallb (fun ev => negb (Pipeline.is_result ev))
          (Pipeline.after_cancel (Pipeline.trace e)) = true.
Proof.
  split; [vm_compute; discriminate|].
  apply (no_result_callback_after_cancel (ocr_env (Some (T0 + 9500)%Z))).
  reflexivity.
Defined.

(** A document that asks for a password while the caller has already
    cancelled: [onPassword] calls [onError] behind no guard. *)
Example password_request_after_cancel :
  Pipeline.after_cancel (Pipeline.trace (locked_env (Some (T0 + 1500)%Z) 1000))
  = [Pipeline.Error Pipeline.password_message].
Proof. vm_compute. reflexivity. Qed.

(** *** At most one result callback *)

Section OneResult.
Import Pipeline.

Ltac same_tac :=
  solve [ reflexivity
        | unfold events; cbn; rewrite ?map_app; reflexivity ].

Lemma guarded_same (s x : state) :
  events x = events s -> mounted x = mounted s ->
  cleanupRequired (proc x) = cleanupRequired (proc s) ->
  guarded s -> guarded x.
Proof. unfold guarded, results. intros -> -> ->. exact id. Qed.

Lemma guarded_append (s x : state) (ev : event) :
  events x = events s ++ [ev] -> is_result ev = false ->
  mounted x = mounted s ->
  cleanupRequired (proc x) = cleanupRequired (proc s) ->
  guarded s -> guarded x.
Proof.
  unfold guarded, results. intros -> Hr -> ->.
  rewrite List.filter_app. cbn [List.filter]. rewrite Hr, app_nil_r. exact id.
Qed.

Lemma guarded_unmount (s : state) : guarded s -> guarded (unmount s).
Proof.
  unfold guarded, results, unmount, events. cbn. fold (events s).
  intros (G1 & G2 & G3). auto.
Qed.

(** The only result callback, and the processor is unmounted. *)
Lemma guarded_result_unmount (s x : state) (ev : event) :
  results s = [] -> events x = events s ++ [ev] -> guarded (unmount x).
Proof.
  unfold guarded, results, unmount, events. cbn. fold (events x) (events s).
  intros H0 ->. rewrite List.filter_app, H0. cbn [List.filter app].
  split; [reflexivity|]. split; [|reflexivity].
  destruct (is_result ev); simpl; lia.
Qed.

Lemma guarded_flush (s : state) : guarded s -> guarded (flush s).
Proof.
  unfold flush. destruct (mounted s && _); [apply guarded_unmount|exact id].
Qed.

Lemma guarded_throttled (p : Q) (s : state) : guarded s -> guarded (throttled p s).
Proof.
  intros J. unfold throttled. destruct (_ || _ || _); [|exact J].
  apply (guarded_append s _ (Progress p)); try exact J; try reflexivity;
    unfold onProgress, handleProgressUpdate;
    (destruct (_ || _); [|same_tac]);
    cbn; destruct (processingTimeout (call s)); same_tac.
Qed.

Lemma guarded_caller_cancels (s : state) : guarded s -> guarded (caller_cancels s).
Proof.
  intros J. unfold caller_cancels. apply guarded_flush.
  apply (guarded_append s _ CallerCancels); try same_tac. exact J.
Qed.

Lemma guarded_outer (s : state) : guarded s -> guarded (outer_timer_fires s).
Proof.
  intros J. unfold outer_timer_fires. apply guarded_flush.
  apply (guarded_append s _ OuterTimeout); try same_tac. exact J.
Qed.

(** While a guard is open, the processor is mounted and no result
    callback has been made. *)
Lemma guard_open (s : state) :
  guarded s -> cleanupRequired (proc s) = false ->
  mounted s = true /\ results s = [].
Proof.
  intros (G1 & _ & G3) Hc. split.
  - destruct (mounted s); [reflexivity|]. rewrite G1 in Hc by reflexivity.
    discriminate.
  - destruct (results s) as [|r rs]; [reflexivity|].
    rewrite G3 in Hc by discriminate. discriminate.
Qed.

Lemma guarded_inner (s : state) : guarded s -> guarded (inner_timer_fires s).
Proof.
  intros J. unfold inner_timer_fires.
  assert (J' : guarded (with_proc (set_timeoutId None) s))
    by (revert J; apply guarded_same; reflexivity).
  cbn [proc with_proc set_timeoutId processingCancelled cleanupRequired].
  destruct (cleanupRequired (proc s)) eqn:Hc.
  - rewrite andb_false_r. apply guarded_flush, J'.
  - destruct (processingCancelled (proc s)); cbn [negb andb];
      [apply guarded_flush, J'|].
    destruct (guard_open s J Hc) as [Hm H0].
    unfold flush. cbn. rewrite Hm. cbn [andb].
    apply (guarded_result_unmount s _ (Error inner_timeout_message) H0).
    same_tac.
Qed.

(** [onPassword] calls [onError] behind no guard: after another result
    callback it is a second one, so the documents here ask for no
    password. *)
Variable e : env.
Hypothesis Hpw : needsPassword e = false.

Lemma guarded_suspend (s : state) : guarded s -> guarded (suspend e s).
Proof.
  apply (inv_suspend e guarded); auto using guarded_flush,
    guarded_caller_cancels, guarded_inner, guarded_outer.
  intros s0 x Hl Hm Hp. apply guarded_same; [unfold events|..]; congruence.
Qed.

Lemma guarded_await (ev : event) (s : state) :
  is_operation ev = true ->
  guarded s -> guarded (suspend e (emit ev s)).
Proof.
  intros Hop J. apply guarded_suspend.
  apply (guarded_append s _ ev); try same_tac; try assumption.
  destruct ev; try discriminate; reflexivity.
Qed.

Lemma guarded_load_document : keeps guarded (load_document e).
Proof.
  apply (keeps_load_document e _ guarded_await). rewrite Hpw. discriminate.
Qed.

Lemma once_keeps {A} (m : M A) : keeps guarded m -> once m.
Proof. intros H s J. left. apply H, J. Qed.

Lemma once_bind {A B} (m : M A) (k : A -> M B) :
  keeps guarded m -> (forall a, once (k a)) -> once (bind m k).
Proof.
  intros Hm Hk s J. unfold bind. specialize (Hm s J).
  destruct (m s) as [[a| |err|] s']; cbn [snd fst] in *;
    [apply Hk, Hm|left; exact Hm|left; exact Hm|left; exact Hm].
Qed.

Lemma once_try_catch {A} (m : M A) (h : string -> M A) :
  once m -> (forall err, once (h err)) -> once (try_catch m h).
Proof.
  intros Hm Hh s J. unfold try_catch. specialize (Hm s J).
  destruct (m s) as [[a| |err|] s']; cbn [snd fst] in *;
    [exact Hm|exact Hm| |exact Hm].
  destruct Hm as [G|[_ N]]; [apply Hh, G|]. exfalso. exact (N err eq_refl).
Qed.

Lemma once_call (m : M unit) : once m -> once (call_ m).
Proof.
  intros Hm s J. unfold call_. specialize (Hm s J).
  destruct (m s) as [[a| |err|] s']; cbn [snd fst] in *;
    [exact Hm| |exact Hm|exact Hm].
  destruct Hm as [G|[L _]]; [left; exact G|right]. split; [exact L|discriminate].
Qed.

(** A computation followed by [return]. *)
Lemma once_then_return {A} (m : M A) :
  once m -> once (m ;;; @return_ unit).
Proof.
  intros Hm s J. unfold bind, return_. specialize (Hm s J).
  destruct (m s) as [[a| |err|] s']; cbn [snd fst] in *.
  - destruct Hm as [G|[L _]]; [left; exact G|right].
    split; [exact L|discriminate].
  - destruct Hm as [G|[L _]]; [left; exact G|right].
    split; [exact L|discriminate].
  - destruct Hm as [G|[_ N]]; [left; exact G|].
    exfalso. exact (N err eq_refl).
  - destruct Hm as [G|[L _]]; [left; exact G|right].
    split; [exact L|discriminate].
Qed.

Lemma results_onDataExtracted (data : list transaction) (s : state) :
  results s = [] ->
  results (throttled 100 (onDataExtracted data s)) = [DataExtracted data].
Proof.
  intros H0. unfold results, events in *.
  unfold throttled, onProgress, handleProgressUpdate.
  replace (Qeq_bool 100 100) with true by reflexivity.
  rewrite !orb_true_r. cbn [orb].
  unfold onDataExtracted, handleExtractedData.
  destruct data; cbn;
    (destruct (processingTimeout (call s)); cbn;
     rewrite !map_app, !List.filter_app, H0; reflexivity).
Qed.

Lemma once_deliver (data : list transaction) : once (deliver data).
Proof.
  intros s J.
  assert (E : deliver data s
              = (Val tt, if cleanupRequired (proc s) then s
                         else throttled 100 (onDataExtracted data s))).
  { unfold deliver, bind, get, act, throttledProgressUpdate.
    destruct (cleanupRequired (proc s)); reflexivity. }
  rewrite E. cbn [snd fst].
  destruct (cleanupRequired (proc s)) eqn:Hc; [left; exact J|].
  destruct (guard_open s J Hc) as [_ H0]. right.
  rewrite (results_onDataExtracted data s H0).
  split; [simpl; lia|discriminate].
Qed.

Lemma once_report (message : string) : once (report message).
Proof.
  intros s J.
  assert (E : report message s
              = (Val tt, if processingCancelled (proc s)
                            || cleanupRequired (proc s)
                         then s else onError message s)).
  { unfold report, bind, cancelled, get, act.
    destruct (_ || _); reflexivity. }
  rewrite E. cbn [snd fst].
  destruct (cleanupRequired (proc s)) eqn:Hc.
  - rewrite orb_true_r. left. exact J.
  - destruct (processingCancelled (proc s)); cbn [orb]; [left; exact J|].
    destruct (guard_open s J Hc) as [_ H0]. right.
    split; [|discriminate].
    unfold results, events, onError, handleExtractionError in *. cbn.
    rewrite map_app, List.filter_app, H0. simpl. lia.
Qed.

Ltac once_step :=
  lazymatch goal with
  | |- once (bind (deliver _) _) => apply once_then_return, once_deliver
  | |- once (bind _ _) =>
      apply once_bind;
      [repeat first [ apply guarded_load_document
                    | keeps_with e guarded_throttled guarded_await ]
      |intros ?]
  | |- once (deliver _) => apply once_deliver
  | |- once (report _) => apply once_report
  | |- once (raise _) => apply once_keeps, keeps_raise
  | |- once (try_catch _ _) => apply once_try_catch; [|intros ?]
  | |- once (call_ _) => apply once_call
  | |- once (match ?x with _ => _ end) => destruct x
  end.

Lemma once_processScannedPdf : once (processScannedPdf e).
Proof.
  unfold processScannedPdf, processScannedPdf_body. cbv zeta.
  repeat once_step.
Qed.

Lemma once_processTextBasedPdf : once (processTextBasedPdf e).
Proof.
  unfold processTextBasedPdf, processTextBasedPdf_body. cbv zeta.
  repeat once_step.
Qed.

Lemma once_processPdf_body : once (processPdf_body e).
Proof.
  unfold processPdf_body.
  apply once_bind.
  { intros s0. apply guarded_same; reflexivity. }
  intros _. repeat once_step;
    [apply once_processScannedPdf|apply once_processTextBasedPdf].
Qed.

End OneResult.

(** X15.  In every environment whose document asks for no password (any
    page count, page texts or failures to read them, OCR texts or
    failures, rejections of the awaited operations, durations of the
    awaits, moment of a cancellation): one invocation calls
    [onDataExtracted] or [onError] at most once in all, the [onError]
    of the inner timer included. *)
Theorem at_most_one_result_callback (e : Pipeline.env) :
  Pipeline.needsPassword e = false ->
  (length (List.filter Pipeline.is_result (Pipeline.trace e)) <= 1)%nat.
Proof.
  intros Hpw.
  assert (G0 : guarded (Pipeline.initial e)).
  { unfold guarded, results. cbn. split; [discriminate|]. split; [lia|congruence]. }
  assert (H : once (Pipeline.try_catch (Pipeline.processPdf_body e)
            (fun error => Pipeline.report ("Failed to process the PDF: " +:+ error
                                           +:+ ". Please try again.")))).
  { apply once_try_catch; [apply (once_processPdf_body e Hpw)|].
    intros err. apply once_report. }
  specialize (H _ G0).
  unfold Pipeline.trace, Pipeline.run, Pipeline.processPdf, Pipeline.try_finally.
  destruct (Pipeline.try_catch _ _ (Pipeline.initial e)) as [r s']. cbn [snd fst] in *.
  assert (L : (length (results s') <= 1)%nat).
  { destruct H as [(_ & L & _)|[L _]]; exact L. }
  clear H. unfold results, events in L.
  destruct r; cbn [snd]; unfold Pipeline.flush; destruct (_ && _); exact L.
Qed.

(** Witness of [at_most_one_result_callback]: a document of twenty
    pages, seven seconds per operation; the inner timer calls [onError]
    after two minutes, and no other result callback is made. *)
Lemma at_most_one_result_callback_witness :
  List.filter Pipeline.is_result (Pipeline.trace slow_env)
  = [Pipeline.Error Pipeline.inner_timeout_message] /\
  (length (List.filter Pipeline.is_result (Pipeline.trace slow_env)) <= 1)%nat.
Proof.
  split; [vm_compute; reflexivity|].
  apply (at_most_one_result_callback slow_env). reflexivity.
Defined.

(** A document that takes 130 s to load and then asks for a password:
    the inner timer and [onPassword] both call [onError]. *)
Example password_request_after_timeout :
  results (Pipeline.run (locked_env None 130000))
  = [Pipeline.Error Pipeline.inner_timeout_message;
     Pipeline.Error Pipeline.password_message].
Proof. vm_compute. reflexivity. Qed.

(** *** The throttle of the progress notifications *)

Section Throttle.
Import Pipeline.

Lemma spaced_app (a : Z) (l : list (Z * Q)) (t : Z) (p : Q) :
  spaced a (l ++ [(t, p)]) = spaced a l && passes (last_time a l) t p.
Proof.
  revert a. induction l as [|[t0 p0] l IH]; intros a; cbn [app spaced].
  - unfold last_time. cbn. rewrite andb_true_r. reflexivity.
  - rewrite IH, andb_assoc. reflexivity.
Qed.

Lemma last_time_app (a : Z) (l : list (Z * Q)) (x : Z * Q) :
  last_time a (l ++ [x]) = fst x.
Proof. unfold last_time. rewrite fold_left_app. reflexivity. Qed.

Lemma notifications_app (l l' : list (Z * event)) :
  notifications (l ++ l') = notifications l ++ notifications l'.
Proof. unfold notifications. apply flat_map_app. Qed.

Lemma throttle_same (s x : state) :
  log x = log s -> lastProgressUpdate (proc x) = lastProgressUpdate (proc s) ->
  throttle_ok s -> throttle_ok x.
Proof. unfold throttle_ok. intros -> ->. exact id. Qed.

(** One more event that is no progress notification. *)
Lemma throttle_append (s x : state) (t : Z) (ev : event) :
  log x = log s ++ [(t, ev)] -> is_progress ev = false ->
  lastProgressUpdate (proc x) = lastProgressUpdate (proc s) ->
  throttle_ok s -> throttle_ok x.
Proof.
  unfold throttle_ok. intros -> Hp ->. rewrite notifications_app.
  assert (E : notifications [(t, ev)] = []) by (destruct ev; try reflexivity; discriminate).
  rewrite E, app_nil_r. exact id.
Qed.

Lemma throttle_throttled (p : Q) (s : state) :
  throttle_ok s -> throttle_ok (throttled p s).
Proof.
  intros J. unfold throttled.
  destruct (_ || _ || _) eqn:E; [|exact J].
  destruct J as [J1 J2].
  assert (L : log (with_proc (set_lastProgressUpdate (now s)) (onProgress p s))
              = log s ++ [(now s, Progress p)]).
  { unfold onProgress, handleProgressUpdate. cbn.
    destruct ((100 <? now s - callerLastProgress (call s))%Z || Qeq_bool p 100);
      [|reflexivity].
    destruct (processingTimeout (call s)); reflexivity. }
  assert (P : lastProgressUpdate
                (proc (with_proc (set_lastProgressUpdate (now s)) (onProgress p s)))
              = now s) by reflexivity.
  unfold throttle_ok. rewrite L, P, notifications_app. cbn [notifications flat_map snd fst app].
  rewrite spaced_app, last_time_app, J1, <- J2. split; [|reflexivity].
  unfold passes. rewrite E. reflexivity.
Qed.

Lemma throttle_unmount (s : state) : throttle_ok s -> throttle_ok (unmount s).
Proof. apply throttle_same; reflexivity. Qed.

Lemma throttle_flush (s : state) : throttle_ok s -> throttle_ok (flush s).
Proof.
  unfold flush. destruct (mounted s && _); [apply throttle_unmount|exact id].
Qed.

Lemma throttle_caller_cancels (s : state) :
  throttle_ok s -> throttle_ok (caller_cancels s).
Proof.
  intros J. unfold caller_cancels. apply throttle_flush.
  apply (throttle_append s _ (now s) CallerCancels); try reflexivity. exact J.
Qed.

Lemma throttle_outer (s : state) : throttle_ok s -> throttle_ok (outer_timer_fires s).
Proof.
  intros J. unfold outer_timer_fires. apply throttle_flush.
  apply (throttle_append s _ (now s) OuterTimeout); try reflexivity. exact J.
Qed.

Lemma throttle_onError (m : string) (s : state) :
  throttle_ok s -> throttle_ok (onError m s).
Proof. apply (throttle_append s _ (now s) (Error m)); reflexivity. Qed.

Lemma throttle_inner (s : state) : throttle_ok s -> throttle_ok (inner_timer_fires s).
Proof.
  intros J. unfold inner_timer_fires. apply throttle_flush.
  assert (J' : throttle_ok (with_proc (set_timeoutId None) s))
    by (revert J; apply throttle_same; reflexivity).
  destruct (negb _ && negb _); [|exact J'].
  apply (throttle_same (onError inner_timeout_message
                          (with_proc (set_timeoutId None) s)));
    try reflexivity.
  apply throttle_onError, J'.
Qed.

Variable e : env.

Lemma throttle_suspend (s : state) : throttle_ok s -> throttle_ok (suspend e s).
Proof.
  apply (inv_suspend e throttle_ok); auto using throttle_flush,
    throttle_caller_cancels, throttle_inner, throttle_outer.
  intros s0 x Hl Hm Hp. apply throttle_same; congruence.
Qed.

Lemma throttle_await (ev : event) (s : state) :
  is_operation ev = true ->
  throttle_ok s -> throttle_ok (suspend e (emit ev s)).
Proof.
  intros Hop J. apply throttle_suspend.
  apply (throttle_append s _ (now s) ev); try reflexivity; try assumption.
  destruct ev; try discriminate; reflexivity.
Qed.

Lemma throttle_load_document : keeps throttle_ok (load_document e).
Proof.
  apply (keeps_load_document e _ throttle_await). intros _ s J.
  apply (throttle_same (onError password_message s)); try reflexivity.
  apply throttle_onError, J.
Qed.

Lemma throttle_deliver (data : list transaction) : keeps throttle_ok (deliver data).
Proof.
  intros s J. unfold deliver, bind, get, act, throttledProgressUpdate.
  destruct (cleanupRequired (proc s)); cbn [negb snd]; [exact J|].
  apply throttle_throttled.
  apply (throttle_append s _ (now s) (DataExtracted data)); try exact J;
    try reflexivity;
    unfold onDataExtracted, handleExtractedData; destruct data; reflexivity.
Qed.

Lemma throttle_report (message : string) : keeps throttle_ok (report message).
Proof.
  intros s J. unfold report, bind, cancelled, get, act.
  destruct (_ || _); cbn [negb snd]; [exact J|].
  apply throttle_onError, J.
Qed.

Ltac throttle_step :=
  first [ keeps_with e throttle_throttled throttle_await
        | apply throttle_deliver
        | apply throttle_report
        | apply throttle_load_document ].

Lemma throttle_processPdf : keeps throttle_ok (processPdf e).
Proof.
  intros s J. unfold processPdf, try_finally.
  assert (H : keeps throttle_ok (try_catch (processPdf_body e)
            (fun error => report ("Failed to process the PDF: " +:+ error
                                  +:+ ". Please try again.")))).
  { throttle_step; [|throttle_step]. unfold processPdf_body.
    throttle_step.
    { intros s0. apply throttle_same; reflexivity. }
    unfold processScannedPdf, processScannedPdf_body,
      processTextBasedPdf, processTextBasedPdf_body. cbv zeta.
    repeat throttle_step. }
  specialize (H s J). destruct (try_catch _ _ s) as [[a| |err|] s'];
    cbn [snd] in *; try exact H;
    revert H; apply throttle_same; reflexivity.
Qed.

End Throttle.

(** X16.  In every environment (page count, page texts or failures to
    read them, OCR texts or failures, durations of the awaits, moment of
    a cancellation): every progress notification of an invocation comes
    more than 100 ms after the one before it, or is a 0 % or a 100 %
    notification. *)
Theorem progress_notifications_are_throttled (e : Pipeline.env) :
  spaced 0 (notifications (Pipeline.log (Pipeline.run e))) = true.
Proof.
  assert (J : throttle_ok (Pipeline.run e)).
  { unfold Pipeline.run. apply throttle_flush. apply (throttle_processPdf e).
    split; reflexivity. }
  exact (proj1 J).
Qed.

(* ------------------------------------------------------------------ *)
(** ** A text-layer document without records *)
(* ------------------------------------------------------------------ *)

Section NoSuccess.
Import Pipeline.
Variable e : env.

















Hypothesis Hempty : page_records e (seq 1 (Nat.min (numPages e) 20)) = [].


Hypothesis Htl : text_layer e = true.



End NoSuccess.



